(** * HybridRAG: the resilience and observability toolkit

A shallow embedding of [utils/retry.py], [utils/cache.py] and
[utils/metrics.py] (with the exception classes of [exceptions.py]),
and the properties of the retry executor, the circuit breaker, the
TTL cache and the metrics collector.

Conventions of the embedding:
- Python [int] is [Z]; Python [float] is an exact rational [Q]
  (rounding of binary64 arithmetic is not modelled), with
  [float('inf')] as a separate constructor where the code uses it;
- a Python [dict] keyed by strings is a [gmap string _];
- a callable is a function on an explicit environment (the wall
  clock read by [time.time()] and the caller's own state) that either
  returns a value or raises an exception;
- every wrapper is a computation in a small monad that threads the
  environment, propagates exceptions and records the observable
  actions (invocations of the wrapped callable, sleeps, hook calls,
  log records) in the order they happen;
- locks are not modelled: all computations are sequential. *)

From Stdlib Require Import QArith Qminmax Qpower Lia Lqa.
From stdpp Require Import gmap strings list fin_maps pretty.

(** ** Python values, exception classes and exception objects *)

Module Py.

Inductive pyval : Type :=
| PyNone
| PyBool (b : bool)
| PyInt (z : Z)
| PyFloat (q : Q)
| PyStr (s : string).

Definition is_none (v : pyval) : bool :=
  match v with PyNone => true | _ => false end.

(** The built-in classes the toolkit meets, the hierarchy of
    [exceptions.py], and classes declared by callers. *)
Inductive pyclass : Type :=
| BaseException
| KeyboardInterrupt
| Exception
| ValueError
| TypeError
| ZeroDivisionError
| AdvancedRAGException
| ConfigurationError
| APIKeyError
| RetrievalError
| VectorStoreError
| GenerationError
| WebSearchError
| GradingError
| ValidationError
| CacheError
| RetryExhaustedError
| UserClass (name : string) (base : pyclass).

#[global] Instance pyclass_eq_dec : EqDecision pyclass.
Proof. solve_decision. Defined.

(** The class itself followed by its ancestors. *)
Fixpoint mro (c : pyclass) : list pyclass :=
  c :: match c with
       | BaseException => []
       | KeyboardInterrupt => [BaseException]
       | Exception => [BaseException]
       | ValueError | TypeError | ZeroDivisionError | AdvancedRAGException =>
           [Exception; BaseException]
       | ConfigurationError | RetrievalError | VectorStoreError
       | GenerationError | WebSearchError | GradingError | ValidationError
       | CacheError | RetryExhaustedError =>
           [AdvancedRAGException; Exception; BaseException]
       | APIKeyError =>
           [ConfigurationError; AdvancedRAGException; Exception; BaseException]
       | UserClass _ base => mro base
       end.

Definition issubclass (c d : pyclass) : bool := bool_decide (d ∈ mro c).

Definition details := list (string * pyval).

(** An exception object: its class, the message it was built with and,
    for the classes of [exceptions.py], the [details] dictionary. *)
Record exn : Type := Exn {
  exn_class : pyclass;
  exn_message : string;
  exn_details : details
}.

Definition isinstance (e : exn) (c : pyclass) : bool :=
  issubclass (exn_class e) c.

(** [except classes as e]: does [e] match one class of the tuple? *)
Definition matches (e : exn) (classes : list pyclass) : bool :=
  existsb (isinstance e) classes.

Section Str.

(** [str] of a dictionary is Python's own; it is a parameter. *)
Variable dict_repr : details -> string.

(** [str(e)]: [AdvancedRAGException.__str__] for the classes of
    [exceptions.py], the message for the others. *)
Definition str (e : exn) : string :=
  if issubclass (exn_class e) AdvancedRAGException then
    match exn_details e with
    | [] => exn_message e
    | _ :: _ => exn_message e +:+ " | Details: " +:+ dict_repr (exn_details e)
    end
  else exn_message e.

(** [str(last_exception)] where [last_exception] may be [None]. *)
Definition str_opt (o : option exn) : string :=
  match o with Some e => str e | None => "None" end.

End Str.

End Py.

(** ** Effects: environment, outcomes, observable events *)

Module Eff.
Import Py.

Inductive level : Type := DEBUG | INFO | WARNING | ERROR.

Inductive outcome (A : Type) : Type :=
| Returned (a : A)
| Raised (e : exn).
Arguments Returned {A} a.
Arguments Raised {A} e.

(** The observable actions of a wrapper, in the order they happen. *)
Inductive event : Type :=
| Call (r : outcome pyval)
| Sleep (d : Q)
| OnRetry (attempt : Z) (e : exn)
| Log (l : level) (msg : string).

Definition calls (evs : list event) : list (outcome pyval) :=
  omap (fun ev => match ev with Call r => Some r | _ => None end) evs.

Definition sleeps (evs : list event) : list Q :=
  omap (fun ev => match ev with Sleep d => Some d | _ => None end) evs.

(** *** The monad: state [S], exceptions, emitted events *)

Record run (S A : Type) : Type := Run {
  result : outcome A;
  world : S;
  emitted : list event
}.
Arguments Run {S A} result world emitted.
Arguments result {S A} r.
Arguments world {S A} r.
Arguments emitted {S A} r.

Definition M (S A : Type) : Type := S -> run S A.

Definition ret {S A} (a : A) : M S A := fun w => Run (Returned a) w [].

Definition raise {S A} (e : exn) : M S A := fun w => Run (Raised e) w [].

(** Events emitted before a computation are put in front of its own. *)
Definition after_events {S A} (evs : list event) (r : run S A) : run S A :=
  match r with
  | Run x w evs' => Run x w (evs ++ evs')
  end.

Arguments after_events {S A} evs !r /.

Definition bind {S A B} (m : M S A) (k : A -> M S B) : M S B := fun w =>
  match m w with
  | Run (Returned a) w' evs => after_events evs (k a w')
  | Run (Raised e) w' evs => Run (Raised e) w' evs
  end.

(** [try: body / except classes as e: handler e]. *)
Definition try_except {S A} (body : M S A) (classes : list pyclass)
    (handler : exn -> M S A) : M S A := fun w =>
  match body w with
  | Run (Returned a) w' evs => Run (Returned a) w' evs
  | Run (Raised e) w' evs =>
      if matches e classes then after_events evs (handler e w')
      else Run (Raised e) w' evs
  end.

Definition log {S} (l : level) (msg : string) : M S unit :=
  fun w => Run (Returned tt) w [Log l msg].

(** The same computation [n] times in a row, as long as it returns. *)
Fixpoint repeatedly {S A} (n : nat) (m : M S A) : M S unit :=
  match n with
  | O => ret tt
  | S k => bind m (fun _ => repeatedly k m)
  end.

(** *** The environment of the callables *)

Section WithUser.
Context {U : Type}.

(** What a callable can read and change: the wall clock and the
    caller's own state. *)
Record env : Type := Env { clock : Q; user : U }.

(** Positional and keyword arguments of a call. *)
Definition arguments : Type := list pyval * list (string * pyval).

Record pyfunc : Type := PyFunc {
  fname : string;
  fbody : arguments -> env -> outcome pyval * env
}.

(** Calling the wrapped callable with the arguments of the wrapper. *)
Definition invoke (f : pyfunc) (args : arguments) : M env pyval := fun w =>
  let '(r, w') := fbody f args w in Run r w' [Call r].

(** [time.time()]. *)
Definition time_time : M env Q := fun w => Run (Returned (clock w)) w [].

(** [time.sleep(d)]: a negative length is refused by the library. *)
Definition time_sleep (d : Q) : M env unit := fun w =>
  if Qlt_le_dec d 0 then
    Run (Raised (Exn ValueError "sleep length must be non-negative" [])) w []
  else
    Run (Returned tt) (Env (clock w + d) (user w)) [Sleep d].

(** *** An object next to the environment

    A method of an object [X] runs on the pair of the object's fields and
    the environment; the callables only see the environment. *)

Definition lift {X A} (m : M env A) : M (X * env) A := fun s =>
  match m s.2 with
  | Run x w evs => Run x (s.1, w) evs
  end.

Definition self {X} : M (X * env) X := fun s => Run (Returned s.1) s [].

Definition update {X} (f : X -> X) : M (X * env) unit := fun s =>
  Run (Returned tt) (f s.1, s.2) [].

End WithUser.

Arguments env U : clear implicits.
Arguments pyfunc U : clear implicits.

Notation "x <- m ;; k" := (bind m (fun x => k))
  (at level 100, m at level 99, right associativity).
Notation "m ;;; k" := (bind m (fun _ => k))
  (at level 100, right associativity).

End Eff.

(** ** [utils/retry.py]: [retry_with_backoff] *)

Module Retry.
Import Py Eff.

Section Wrapper.
Context {U : Type}.
Variable dict_repr : details -> string.

(** [on_retry(attempt, e)]: a caller's callable; its value is ignored. *)
Definition hook : Type := Z -> exn -> env U -> outcome unit * env U.

(** The arguments of the decorator. *)
Record config : Type := Config {
  max_retries : Z;
  initial_delay : Q;
  backoff_factor : Q;
  exceptions : list pyclass;
  on_retry : option hook
}.

Definition default_config : config := Config 3 1 2 [Exception] None.

(** [range(n)]. *)
Definition range (n : Z) : list Z := Z.of_nat <$> seq 0 (Z.to_nat n).

Definition call_hook (h : hook) (attempt : Z) (e : exn) : M (env U) unit := fun w =>
  let '(r, w') := h attempt e w in Run r w' [OnRetry attempt e].

(** The error raised at the last attempt. The link to [e] that
    [raise ... from e] records in [__cause__] is not part of the object
    here. *)
Definition exhausted (cfg : config) (func : pyfunc U) (e : exn) : exn :=
  Exn RetryExhaustedError
    ("Failed after " +:+ pretty (max_retries cfg + 1)%Z +:+ " attempts: "
       +:+ str dict_repr e)
    [("function", PyStr (fname func));
     ("attempts", PyInt (max_retries cfg + 1));
     ("last_error", PyStr (str dict_repr e))].

(** The error raised after the loop. *)
Definition unexpected (func : pyfunc U) (last_exception : option exn) : exn :=
  Exn RetryExhaustedError
    ("Unexpected retry exhaustion: " +:+ str_opt dict_repr last_exception)
    [("function", PyStr (fname func))].

(** How one iteration of the [for] loop ends: by [return result], or
    by falling through to the next iteration with the updated locals. *)
Inductive step : Type :=
| Return (v : pyval)
| Continue (delay : Q) (last_exception : option exn).

Definition iteration (cfg : config) (func : pyfunc U) (args : arguments)
    (attempt : Z) (delay : Q) : M (env U) step :=
  try_except
    (result <- invoke func args ;;
     (if (0 <? attempt)%Z
      then log INFO ("Function " +:+ fname func +:+ " succeeded after retry")
      else ret tt) ;;;
     ret (Return result))
    (exceptions cfg)
    (fun e =>
       if (attempt =? max_retries cfg)%Z then
         log ERROR ("Function " +:+ fname func +:+ " failed after all retries") ;;;
         raise (exhausted cfg func e)
       else
         log WARNING ("Function " +:+ fname func +:+ " failed, retrying") ;;;
         match on_retry cfg with
         | Some h => call_hook h attempt e
         | None => ret tt
         end ;;;
         time_sleep delay ;;;
         ret (Continue (delay * backoff_factor cfg) (Some e))).

Fixpoint loop (cfg : config) (func : pyfunc U) (args : arguments)
    (attempts : list Z) (delay : Q) (last_exception : option exn) : M (env U) pyval :=
  match attempts with
  | [] => raise (unexpected func last_exception)
  | attempt :: rest =>
      s <- iteration cfg func args attempt delay ;;
      match s with
      | Return v => ret v
      | Continue delay' last_exception' =>
          loop cfg func args rest delay' last_exception'
      end
  end.

Definition wrapper (cfg : config) (func : pyfunc U) (args : arguments) : M (env U) pyval :=
  loop cfg func args (range (max_retries cfg + 1)) (initial_delay cfg) None.

(** The events of a failed attempt that is followed by a sleep. *)
Definition hook_events (cfg : config) (attempt : Z) (e : exn) : list event :=
  match on_retry cfg with Some _ => [OnRetry attempt e] | None => [] end.

Definition before_sleep (cfg : config) (func : pyfunc U) (attempt : Z) (e : exn) :
    list event :=
  Call (Raised e)
    :: Log WARNING ("Function " +:+ fname func +:+ " failed, retrying")
    :: hook_events cfg attempt e.

(** *** Assumptions on the caller's callables *)

(** The hook, when there is one, returns. *)
Definition hook_returns (cfg : config) : Prop :=
  forall h, on_retry cfg = Some h ->
    forall attempt e w, exists w', h attempt e w = (Returned tt, w').

(** Every invocation raises an error that the [except] clause catches. *)
Definition always_retryable (cfg : config) (func : pyfunc U) (args : arguments) : Prop :=
  forall w, exists e w',
    fbody func args w = (Raised e, w') /\ matches e (exceptions cfg) = true.

End Wrapper.

Arguments config U : clear implicits.
Arguments hook U : clear implicits.

End Retry.

(** ** [utils/retry.py]: [CircuitBreaker] *)

Module Breaker.
Import Py Eff.

Inductive cb_state : Type := CLOSED | OPEN | HALF_OPEN.

(** The attributes of a [CircuitBreaker] object. *)
Record CircuitBreaker : Type := Breaker {
  failure_threshold : Z;
  timeout : Q;
  expected_exception : pyclass;
  failure_count : Z;
  last_failure_time : option Q;
  state : cb_state
}.

Definition set_state (s : cb_state) (cb : CircuitBreaker) : CircuitBreaker :=
  Breaker (failure_threshold cb) (timeout cb) (expected_exception cb)
          (failure_count cb) (last_failure_time cb) s.

Definition set_failure_count (n : Z) (cb : CircuitBreaker) : CircuitBreaker :=
  Breaker (failure_threshold cb) (timeout cb) (expected_exception cb)
          n (last_failure_time cb) (state cb).

Definition set_last_failure_time (t : Q) (cb : CircuitBreaker) : CircuitBreaker :=
  Breaker (failure_threshold cb) (timeout cb) (expected_exception cb)
          (failure_count cb) (Some t) (state cb).

(** The object built by [__init__]. *)
Definition initial (failure_threshold : Z) (timeout : Q)
    (expected_exception : pyclass) : CircuitBreaker :=
  Breaker failure_threshold timeout expected_exception 0 None CLOSED.

(** A circuit that is not closed has counted at least
    [failure_threshold] failures. *)
Definition tripped (cb : CircuitBreaker) : Prop :=
  state cb <> CLOSED -> (failure_threshold cb <= failure_count cb)%Z.

(** The call is admitted as the trial request: the circuit is half-open,
    or it is open and the timeout has elapsed. *)
Definition trial_admitted (cb : CircuitBreaker) (now : Q) : Prop :=
  state cb = HALF_OPEN \/
  (state cb = OPEN /\
   exists t, last_failure_time cb = Some t /\ (timeout cb <= now - t)%Q).

(** The error of a rejected call. *)
Definition circuit_open : exn := Exn Exception "Circuit breaker is OPEN" [].

(** [time.time() - None]. *)
Definition no_failure_time : exn :=
  Exn TypeError "unsupported operand type(s) for -: 'float' and 'NoneType'" [].

Section Methods.
Context {U : Type}.

Definition init (failure_threshold : Z) (timeout : Q)
    (expected_exception : pyclass) : M (env U) CircuitBreaker :=
  log INFO "Circuit breaker initialized" ;;;
  ret (initial failure_threshold timeout expected_exception).

(** The check made before the call when the circuit is open. *)
Definition gate : M (CircuitBreaker * env U) unit :=
  cb <- self ;;
  match state cb with
  | OPEN =>
      now <- lift time_time ;;
      match last_failure_time cb with
      | None => raise no_failure_time
      | Some t =>
          if Qlt_le_dec (now - t) (timeout cb) then
            log WARNING "Circuit breaker is OPEN, rejecting request" ;;;
            raise circuit_open
          else
            log INFO "Circuit breaker entering HALF_OPEN state" ;;;
            update (set_state HALF_OPEN)
      end
  | _ => ret tt
  end.

(** The [try] statement of [call]. *)
Definition guarded (func : pyfunc U) (args : arguments) : M (CircuitBreaker * env U) pyval :=
  cb0 <- self ;;
  try_except
    (result <- lift (invoke func args) ;;
     cb <- self ;;
     match state cb with
     | HALF_OPEN =>
         log INFO "Circuit breaker recovered, entering CLOSED state" ;;;
         update (set_failure_count 0) ;;;
         update (set_state CLOSED)
     | _ => ret tt
     end ;;;
     ret result)
    [expected_exception cb0]
    (fun e =>
       update (fun cb => set_failure_count (failure_count cb + 1) cb) ;;;
       now <- lift time_time ;;
       update (set_last_failure_time now) ;;;
       log WARNING "Circuit breaker registered failure" ;;;
       cb <- self ;;
       (if (failure_threshold cb <=? failure_count cb)%Z then
          update (set_state OPEN) ;;;
          log ERROR "Circuit breaker OPENED due to failures"
        else ret tt) ;;;
       raise e).

Definition call (func : pyfunc U) (args : arguments) : M (CircuitBreaker * env U) pyval :=
  gate ;;; guarded func args.

Definition reset : M (CircuitBreaker * env U) unit :=
  update (set_failure_count 0) ;;;
  update (set_state CLOSED) ;;;
  log INFO "Circuit breaker manually reset".

(** The breaker after a method has run on it. *)
Definition after {A} (m : M (CircuitBreaker * env U) A) (cb : CircuitBreaker)
    (w : env U) : CircuitBreaker :=
  (world (m (cb, w))).1.

(** The states a breaker object can be in: built by [__init__], then
    used through [call] and [reset] only. *)
Inductive reachable : CircuitBreaker -> Prop :=
| reach_init failure_threshold timeout expected_exception :
    reachable (initial failure_threshold timeout expected_exception)
| reach_call cb func args w :
    reachable cb -> reachable (after (call func args) cb w)
| reach_reset cb w :
    reachable cb -> reachable (after reset cb w).

End Methods.

End Breaker.

(** ** [utils/cache.py] *)

Module Cache.
Import Py Eff.

(** One entry of the [_cache] dictionary. *)
Record entry : Type := Entry {
  value : pyval;
  expires_at : Q;
  created_at : Q
}.

(** The attributes of an [InMemoryCache] object. *)
Record InMemoryCache : Type := Cache {
  _cache : gmap string entry;
  ttl : Z
}.

Definition new (ttl : Z) : InMemoryCache := Cache ∅ ttl.

Definition set__cache (f : gmap string entry -> gmap string entry)
    (c : InMemoryCache) : InMemoryCache :=
  Cache (f (_cache c)) (ttl c).

(** [ttl or self.ttl]: [None] and [0] both fall back to the default. *)
Definition ttl_or (ttl : option Z) (default : Z) : Z :=
  match ttl with
  | Some t => if (t =? 0)%Z then default else t
  | None => default
  end.

(** [current_time > entry["expires_at"]]. *)
Definition expired (now : Q) (e : entry) : bool :=
  if Qlt_le_dec (expires_at e) now then true else false.

Section Methods.
Context {U : Type}.

(** The key derivation hashes a serialisation of the arguments with
    [hashlib] and [json]; it is a parameter. *)
Variable _generate_key : arguments -> string.

(** The key of a call of the decorated function:
    [cache._generate_key(func.__name__, *args, **kwargs)]. *)
Definition fingerprint (func : pyfunc U) (args : arguments) : string :=
  _generate_key (PyStr (fname func) :: args.1, args.2).

Definition init (ttl : Z) : M (env U) InMemoryCache :=
  log INFO "Cache initialized" ;;;
  ret (new ttl).

Definition get (key : string) : M (InMemoryCache * env U) pyval :=
  c <- self ;;
  match _cache c !! key with
  | None =>
      log DEBUG "Cache miss" ;;;
      ret PyNone
  | Some entry =>
      now <- lift time_time ;;
      if expired now entry then
        log DEBUG "Cache expired" ;;;
        update (set__cache (delete key)) ;;;
        ret PyNone
      else
        log DEBUG "Cache hit" ;;;
        ret (value entry)
  end.

Definition set (key : string) (value : pyval) (ttl' : option Z) :
    M (InMemoryCache * env U) unit :=
  c <- self ;;
  let ttl := ttl_or ttl' (ttl c) in
  expires <- lift time_time ;;
  created <- lift time_time ;;
  update (set__cache (insert key (Entry value (expires + inject_Z ttl) created))) ;;;
  log DEBUG "Cache set".

Definition delete (key : string) : M (InMemoryCache * env U) unit :=
  c <- self ;;
  match _cache c !! key with
  | Some _ =>
      update (set__cache (base.delete key)) ;;;
      log DEBUG "Cache deleted"
  | None => ret tt
  end.

Definition clear : M (InMemoryCache * env U) unit :=
  update (set__cache (fun _ => ∅)) ;;;
  log INFO "Cache cleared".

Definition cleanup_expired : M (InMemoryCache * env U) Z :=
  c <- self ;;
  current_time <- lift time_time ;;
  let expired_keys := filter (fun kv => expired current_time kv.2 = true) (_cache c) in
  update (set__cache (filter (fun kv => expired current_time kv.2 = false))) ;;;
  (if bool_decide (expired_keys = ∅) then ret tt
   else log INFO "Expired cache entries cleaned") ;;;
  ret (Z.of_nat (size expired_keys)).

Definition stats : M (InMemoryCache * env U) (Z * Z) :=
  c <- self ;;
  ret (Z.of_nat (size (_cache c)), ttl c).

(** [get_cache(ttl)] and the code that uses the object it returns: the
    module-level singleton is created on first use. *)
Definition get_cache {A} (ttl : Z) (k : M (InMemoryCache * env U) A) :
    M (option InMemoryCache * env U) A := fun s =>
  let r0 : run (env U) InMemoryCache :=
    match s.1 with
    | Some c => Run (Returned c) s.2 []
    | None => init ttl s.2
    end in
  match r0 with
  | Run (Returned c) w evs =>
      match k (c, w) with
      | Run x (c', w') evs' => Run x (Some c', w') (evs ++ evs')
      end
  | Run (Raised e) w evs => Run (Raised e) (s.1, w) evs
  end.

(** The decorated function of [cached(ttl, enabled)]. *)
Definition wrapper (ttl : option Z) (enabled : bool) (func : pyfunc U)
    (args : arguments) : M (option InMemoryCache * env U) pyval :=
  if negb enabled then lift (invoke func args)
  else
    get_cache 3600 (
      let cache_key := fingerprint func args in
      cached_value <- get cache_key ;;
      if negb (is_none cached_value) then
        log DEBUG ("Returning cached result for " +:+ fname func) ;;;
        ret cached_value
      else
        result <- lift (invoke func args) ;;
        set cache_key result ttl ;;;
        log DEBUG ("Cached result for " +:+ fname func) ;;;
        ret result).

(** The read of the decorated function finds nothing to serve: no cache
    object yet, no entry, an expired entry, or an entry that holds
    [None]. *)
Definition nothing_served (oc : option InMemoryCache) (key : string) (now : Q) : Prop :=
  forall c e, oc = Some c -> _cache c !! key = Some e ->
    (now <= expires_at e)%Q -> value e = PyNone.

(** The cache holds no value other than [None] under the key. *)
Definition holds_none (oc : option InMemoryCache) (key : string) : Prop :=
  forall c e, oc = Some c -> _cache c !! key = Some e -> value e = PyNone.

(** The cache object after such a read. *)
Definition after_read (oc : option InMemoryCache) (key : string) (now : Q) :
    InMemoryCache :=
  match oc with
  | None => new 3600
  | Some c =>
      match _cache c !! key with
      | Some e => if expired now e then set__cache (base.delete key) c else c
      | None => c
      end
  end.

End Methods.

End Cache.

(** ** [utils/metrics.py]: [MetricsCollector] *)

Module Metrics.
Import Py Eff.

(** A float that may be [float('inf')]. *)
Inductive xfloat : Type :=
| Finite (q : Q)
| Infinity.

(** The built-in [min] and [max] on two arguments: the second argument is
    returned only when it is strictly smaller (larger) than the first. *)
Definition py_min (a : xfloat) (b : Q) : xfloat :=
  match a with
  | Infinity => Finite b
  | Finite x => if Qlt_le_dec b x then Finite b else Finite x
  end.

Definition py_max (a b : Q) : Q :=
  if Qlt_le_dec a b then b else a.

(** [self._metrics["requests"]]. *)
Record requests : Type := Requests {
  req_total : Z;
  req_success : Z;
  req_failure : Z
}.

(** One value of [self._metrics["nodes"]]. *)
Record node_metrics : Type := NodeMetrics {
  count : Z;
  success : Z;
  failure : Z;
  total_duration : Q;
  avg_duration : Q;
  min_duration : xfloat;
  max_duration : Q
}.

(** One value of [self._metrics["latency"]]. *)
Record latency : Type := Latency {
  lat_count : Z;
  lat_total : Q;
  lat_avg : Q;
  lat_min : xfloat;
  lat_max : Q
}.

(** [self._metrics["cache"]]. *)
Record cache_metrics : Type := CacheMetrics {
  hits : Z;
  misses : Z
}.

(** The attributes of a [MetricsCollector] object. *)
Record MetricsCollector : Type := Collector {
  m_requests : requests;
  m_nodes : gmap string node_metrics;
  m_latency : gmap string latency;
  m_errors : gmap string Z;
  m_cache : cache_metrics;
  _start_time : Q
}.

Definition empty_metrics (start : Q) : MetricsCollector :=
  Collector (Requests 0 0 0) ∅ ∅ ∅ (CacheMetrics 0 0) start.

Definition new_node : node_metrics := NodeMetrics 0 0 0 0 0 Infinity 0.

Definition new_latency : latency := Latency 0 0 0 Infinity 0.

Definition set_requests (f : requests -> requests) (m : MetricsCollector) :=
  Collector (f (m_requests m)) (m_nodes m) (m_latency m) (m_errors m)
            (m_cache m) (_start_time m).

Definition set_nodes (f : gmap string node_metrics -> gmap string node_metrics)
    (m : MetricsCollector) :=
  Collector (m_requests m) (f (m_nodes m)) (m_latency m) (m_errors m)
            (m_cache m) (_start_time m).

Definition set_latency (f : gmap string latency -> gmap string latency)
    (m : MetricsCollector) :=
  Collector (m_requests m) (m_nodes m) (f (m_latency m)) (m_errors m)
            (m_cache m) (_start_time m).

Definition set_errors (f : gmap string Z -> gmap string Z) (m : MetricsCollector) :=
  Collector (m_requests m) (m_nodes m) (m_latency m) (f (m_errors m))
            (m_cache m) (_start_time m).

Definition set_cache (f : cache_metrics -> cache_metrics) (m : MetricsCollector) :=
  Collector (m_requests m) (m_nodes m) (m_latency m) (m_errors m)
            (f (m_cache m)) (_start_time m).

(** [total / count] with an [int] divisor. *)
Definition float_division_by_zero : exn :=
  Exn ZeroDivisionError "float division by zero" [].

(** The value returned by [get_metrics]. *)
Record snapshot : Type := Snapshot {
  timestamp : string;
  uptime_seconds : Q;
  s_requests : requests;
  success_rate : Q;
  s_nodes : gmap string node_metrics;
  s_latency : gmap string latency;
  s_errors : gmap string Z;
  s_cache : cache_metrics;
  hit_rate : Q
}.

Section Methods.
Context {U : Type}.

(** [datetime.utcnow().isoformat()] is the library's; it is a parameter. *)
Variable utcnow_isoformat : env U -> string.

Definition init : M (env U) MetricsCollector :=
  start <- time_time ;;
  log INFO "Metrics collector initialized" ;;;
  ret (empty_metrics start).

Definition increment_request (ok : bool) : M (MetricsCollector * env U) unit :=
  update (set_requests (fun r =>
    Requests (req_total r + 1) (req_success r) (req_failure r))) ;;;
  if ok then
    update (set_requests (fun r =>
      Requests (req_total r) (req_success r + 1) (req_failure r)))
  else
    update (set_requests (fun r =>
      Requests (req_total r) (req_success r) (req_failure r + 1))).

(** The statements of [record_node_execution] update the entry of
    [node_name] one key at a time. *)
Definition on_node (node_name : string) (f : node_metrics -> node_metrics) :
    M (MetricsCollector * env U) unit :=
  update (set_nodes (alter f node_name)).

Definition record_node_execution (node_name : string) (duration : Q) (ok : bool) :
    M (MetricsCollector * env U) unit :=
  m <- self ;;
  match m_nodes m !! node_name with
  | None => update (set_nodes (insert node_name new_node))
  | Some _ => ret tt
  end ;;;
  on_node node_name (fun n =>
    NodeMetrics (count n + 1) (success n) (failure n) (total_duration n)
                (avg_duration n) (min_duration n) (max_duration n)) ;;;
  (if ok then
     on_node node_name (fun n =>
       NodeMetrics (count n) (success n + 1) (failure n) (total_duration n)
                   (avg_duration n) (min_duration n) (max_duration n))
   else
     on_node node_name (fun n =>
       NodeMetrics (count n) (success n) (failure n + 1) (total_duration n)
                   (avg_duration n) (min_duration n) (max_duration n))) ;;;
  on_node node_name (fun n =>
    NodeMetrics (count n) (success n) (failure n) (total_duration n + duration)
                (avg_duration n) (min_duration n) (max_duration n)) ;;;
  m <- self ;;
  match m_nodes m !! node_name with
  | None => ret tt
  | Some n =>
      if (count n =? 0)%Z then raise float_division_by_zero
      else
        on_node node_name (fun n =>
          NodeMetrics (count n) (success n) (failure n) (total_duration n)
                      (total_duration n / inject_Z (count n))
                      (min_duration n) (max_duration n)) ;;;
        on_node node_name (fun n =>
          NodeMetrics (count n) (success n) (failure n) (total_duration n)
                      (avg_duration n)
                      (py_min (min_duration n) duration) (max_duration n)) ;;;
        on_node node_name (fun n =>
          NodeMetrics (count n) (success n) (failure n) (total_duration n)
                      (avg_duration n) (min_duration n)
                      (py_max (max_duration n) duration))
  end.

Definition on_latency (operation : string) (f : latency -> latency) :
    M (MetricsCollector * env U) unit :=
  update (set_latency (alter f operation)).

Definition record_latency (operation : string) (duration : Q) :
    M (MetricsCollector * env U) unit :=
  m <- self ;;
  match m_latency m !! operation with
  | None => update (set_latency (insert operation new_latency))
  | Some _ => ret tt
  end ;;;
  on_latency operation (fun l =>
    Latency (lat_count l + 1) (lat_total l) (lat_avg l) (lat_min l) (lat_max l)) ;;;
  on_latency operation (fun l =>
    Latency (lat_count l) (lat_total l + duration) (lat_avg l) (lat_min l) (lat_max l)) ;;;
  m <- self ;;
  match m_latency m !! operation with
  | None => ret tt
  | Some l =>
      if (lat_count l =? 0)%Z then raise float_division_by_zero
      else
        on_latency operation (fun l =>
          Latency (lat_count l) (lat_total l) (lat_total l / inject_Z (lat_count l))
                  (lat_min l) (lat_max l)) ;;;
        on_latency operation (fun l =>
          Latency (lat_count l) (lat_total l) (lat_avg l)
                  (py_min (lat_min l) duration) (lat_max l)) ;;;
        on_latency operation (fun l =>
          Latency (lat_count l) (lat_total l) (lat_avg l) (lat_min l)
                  (py_max (lat_max l) duration))
  end.

Definition record_error (error_type : string) : M (MetricsCollector * env U) unit :=
  m <- self ;;
  match m_errors m !! error_type with
  | None => update (set_errors (insert error_type 0%Z))
  | Some _ => ret tt
  end ;;;
  update (set_errors (alter (fun n => n + 1)%Z error_type)).

Definition record_cache_hit (hit : bool) : M (MetricsCollector * env U) unit :=
  if hit then
    update (set_cache (fun c => CacheMetrics (hits c + 1) (misses c)))
  else
    update (set_cache (fun c => CacheMetrics (hits c) (misses c + 1))).

Definition get_metrics : M (MetricsCollector * env U) snapshot :=
  m <- self ;;
  now <- lift time_time ;;
  let uptime := (now - _start_time m)%Q in
  let cache_total := (hits (m_cache m) + misses (m_cache m))%Z in
  let cache_hit_rate :=
    if (0 <? cache_total)%Z
    then (inject_Z (hits (m_cache m)) / inject_Z cache_total)%Q
    else 0%Q in
  let total_requests := req_total (m_requests m) in
  let success_rate :=
    if (0 <? total_requests)%Z
    then (inject_Z (req_success (m_requests m)) / inject_Z total_requests)%Q
    else 0%Q in
  fun s =>
    Run (Returned (Snapshot (utcnow_isoformat s.2) uptime (m_requests m) success_rate
                            (m_nodes m) (m_latency m) (m_errors m) (m_cache m)
                            cache_hit_rate))
        s [].

Definition reset : M (MetricsCollector * env U) unit :=
  now <- lift time_time ;;
  update (fun _ => empty_metrics now) ;;;
  log INFO "Metrics reset".

(** The methods of the collector, as data. *)
Inductive method : Type :=
| IncrementRequest (ok : bool)
| RecordNodeExecution (node_name : string) (duration : Q) (ok : bool)
| RecordLatency (operation : string) (duration : Q)
| RecordError (error_type : string)
| RecordCacheHit (hit : bool)
| GetMetrics
| Reset.

Definition perform (op : method) : M (MetricsCollector * env U) unit :=
  match op with
  | IncrementRequest ok => increment_request ok
  | RecordNodeExecution node_name duration ok =>
      record_node_execution node_name duration ok
  | RecordLatency operation duration => record_latency operation duration
  | RecordError error_type => record_error error_type
  | RecordCacheHit hit => record_cache_hit hit
  | GetMetrics => get_metrics ;;; ret tt
  | Reset => reset
  end.

(** The collector after a method has run on it. *)
Definition after {A} (m : M (MetricsCollector * env U) A) (c : MetricsCollector)
    (w : env U) : MetricsCollector :=
  (world (m (c, w))).1.

(** [record_node_execution] once per element of a list, in order. *)
Fixpoint record_all (node_name : string) (samples : list (Q * bool)) :
    M (MetricsCollector * env U) unit :=
  match samples with
  | [] => ret tt
  | (duration, ok) :: rest =>
      record_node_execution node_name duration ok ;;;
      record_all node_name rest
  end.

End Methods.

(** *** The invariants of the counters *)

Definition requests_consistent (m : MetricsCollector) : Prop :=
  req_total (m_requests m)
  = (req_success (m_requests m) + req_failure (m_requests m))%Z.

Definition nodes_consistent (m : MetricsCollector) : Prop :=
  forall (name : string) (n : node_metrics),
    m_nodes m !! name = Some n -> count n = (success n + failure n)%Z.

Definition consistent (m : MetricsCollector) : Prop :=
  requests_consistent m /\ nodes_consistent m.

(** *** One call of [record_node_execution], as a function on the entry *)

(** The entry of a node, or the one created on first use. *)
Definition entry_of (m : MetricsCollector) (name : string) : node_metrics :=
  default new_node (m_nodes m !! name).

Definition with_entry (m : MetricsCollector) (name : string) (n : node_metrics) :
    MetricsCollector :=
  set_nodes (fun _ => <[name := n]> (m_nodes m)) m.

(** The entry after the statements that come before the division. *)
Definition counted (n : node_metrics) (duration : Q) (ok : bool) : node_metrics :=
  NodeMetrics (count n + 1) (if ok then success n + 1 else success n)%Z
              (if ok then failure n else failure n + 1)%Z
              (total_duration n + duration) (avg_duration n)
              (min_duration n) (max_duration n).

(** The entry after all the statements. *)
Definition recorded (n : node_metrics) (duration : Q) (ok : bool) : node_metrics :=
  NodeMetrics (count n + 1) (if ok then success n + 1 else success n)%Z
              (if ok then failure n else failure n + 1)%Z
              (total_duration n + duration)
              ((total_duration n + duration) / inject_Z (count n + 1))
              (py_min (min_duration n) duration)
              (py_max (max_duration n) duration).

Definition recorded_all (n : node_metrics) (samples : list (Q * bool)) : node_metrics :=
  foldl (fun n s => recorded n s.1 s.2) n samples.

(** *** The aggregates a list of durations should give *)

Definition Qsum (ds : list Q) : Q := foldr Qplus 0%Q ds.

Definition is_minimum (x : Q) (ds : list Q) : Prop :=
  In x ds /\ forall d, In d ds -> (x <= d)%Q.

Definition is_maximum (x : Q) (ds : list Q) : Prop :=
  (exists d, In d ds /\ (x == d)%Q) /\ forall d, In d ds -> (d <= x)%Q.

Definition successes (samples : list (Q * bool)) : Z :=
  Z.of_nat (length (filter (fun s => s.2 = true) samples)).

(** What [min_duration] and [max_duration] hold once the durations [ds]
    have been recorded. *)
Definition min_of (m : xfloat) (ds : list Q) : Prop :=
  match m with
  | Infinity => ds = []
  | Finite x => is_minimum x ds
  end.

Definition max_of (x : Q) (ds : list Q) : Prop :=
  (ds = [] -> x = 0%Q) /\ (ds <> [] -> is_maximum x ds).

End Metrics.

(** ** Callables and objects of the test-suite, used as instances *)

Module Examples.
Import Py Eff.

(** The caller's state is a call counter, as in the tests. *)
Definition bump (w : env Z) : env Z := Env (clock w) (user w + 1)%Z.

Definition start : env Z := Env 0 0%Z.

Definition at_time (t : Q) : env Z := Env t 0%Z.

(** A stand-in for Python's [str] of a dictionary. *)
Definition dict_repr (d : details) : string := "{...}".

(** A stand-in for the hash of the arguments. *)
Definition key_of (a : arguments) : string :=
  match a.1 with
  | PyStr name :: PyInt x :: _ => name +:+ ":" +:+ pretty x
  | PyStr name :: _ => name
  | _ => ""
  end.

(** A stand-in for the timestamp of a snapshot. *)
Definition isoformat (w : env Z) : string := "".

(** [tests/test_retry.py] *)
Definition always_fails : pyfunc Z :=
  PyFunc "always_fails"
         (fun _ w => (Raised (Exn ValueError "Always fails" []), bump w)).

Definition fails_with_type_error : pyfunc Z :=
  PyFunc "fails_with_type_error"
         (fun _ w => (Raised (Exn TypeError "Not retryable" []), bump w)).

Definition failing_operation : pyfunc Z :=
  PyFunc "failing_operation"
         (fun _ w => (Raised (Exn Exception "Failure" []), bump w)).

Definition successful_operation : pyfunc Z :=
  PyFunc "successful_operation" (fun _ w => (Returned (PyStr "success"), bump w)).

Definition retry_twice : Retry.config Z :=
  Retry.Config 2 0.1%Q 2 [Exception] None.

Definition retry_value_errors : Retry.config Z :=
  Retry.Config 3 0.1%Q 2 [ValueError] None.

(** An operation whose own failure is the error of a rejected call. *)
Definition raises_circuit_open : pyfunc Z :=
  PyFunc "raises_circuit_open" (fun _ w => (Raised Breaker.circuit_open, bump w)).

(** A breaker that opened at time [0] after one failure. *)
Definition opened : Breaker.CircuitBreaker :=
  Breaker.after (Breaker.call always_fails ([], []))
                (Breaker.initial 1 1 ValueError) (at_time 0).

(** The same breaker after a trial call, made at time [5], that raised an
    error of another class. *)
Definition half_open : Breaker.CircuitBreaker :=
  Breaker.after (Breaker.call fails_with_type_error ([], [])) opened (at_time 5).

(** A breaker object whose attributes were not set by its methods. *)
Definition forged : Breaker.CircuitBreaker :=
  Breaker.Breaker 5 60 Exception 0 None Breaker.HALF_OPEN.

(** [tests/test_cache.py] *)
Definition expensive_function : pyfunc Z :=
  PyFunc "expensive_function"
         (fun a w =>
            match a.1 with
            | [PyInt x] => (Returned (PyInt (x * 2)), bump w)
            | _ => (Raised (Exn TypeError "unsupported operand" []), bump w)
            end).

Definition returns_none : pyfunc Z :=
  PyFunc "returns_none" (fun _ w => (Returned PyNone, bump w)).

(** [tests/test_metrics.py] *)
Definition test_node : list (Q * bool) :=
  [(1.5%Q, true); (2.0%Q, true); (1.0%Q, false)].

End Examples.


(** ** More observations on the events of a run *)

Module Traces.
Import Py Eff.

(** The calls of the [on_retry] hook: attempt number and error. *)
Definition hook_calls (evs : list event) : list (Z * exn) :=
  omap (fun ev => match ev with OnRetry a e => Some (a, e) | _ => None end) evs.

(** The log records. *)
Definition logs (evs : list event) : list (level * string) :=
  omap (fun ev => match ev with Log l msg => Some (l, msg) | _ => None end) evs.

Section Retry.
Context {U : Type}.
Variable dict_repr : details -> string.
Variables (cfg : Retry.config U) (func : pyfunc U) (args : arguments).

(** How one iteration of the loop of [retry_with_backoff] ends: the
    operation returned; an error left the loop (the operation's own, the
    error of the last attempt, or one raised by the hook or by the sleep);
    or the loop went on after a sleep. *)
Inductive ending (attempt : Z) (rest : list Z) (delay : Q)
    (r : run (env U) pyval) : Prop :=
| ends_returned v w1 l :
    r = Run (Returned v) w1 (Call (Returned v) :: l) ->
    calls l = [] -> sleeps l = [] -> hook_calls l = [] ->
    ending attempt rest delay r
| ends_raised e x w1 l :
    r = Run (Raised x) w1 (Call (Raised e) :: l) ->
    calls l = [] -> sleeps l = [] ->
    (hook_calls l = [] \/
     (is_Some (Retry.on_retry cfg) /\ hook_calls l = [(attempt, e)])) ->
    (matches e (Retry.exceptions cfg) = false -> x = e /\ l = []) ->
    ending attempt rest delay r
| ends_retried e w2 l :
    matches e (Retry.exceptions cfg) = true ->
    attempt <> Retry.max_retries cfg ->
    r = after_events (Call (Raised e) :: l ++ [Sleep delay])
          (Retry.loop dict_repr cfg func args rest
             (delay * Retry.backoff_factor cfg) (Some e) w2) ->
    calls l = [] -> sleeps l = [] ->
    hook_calls l
      = match Retry.on_retry cfg with Some _ => [(attempt, e)] | None => [] end ->
    ending attempt rest delay r.

End Retry.

End Traces.


(** ** Sequences of calls on one object *)

Module Sequences.
Import Py Eff.

Section Breaker.
Context {U : Type}.

(** One use of a breaker: the operation, its arguments and the
    environment at the time of the call. *)
Definition use : Type := pyfunc U * arguments * env U.

(** The breaker after the calls of a list, whatever their outcomes (each
    call is made by a caller that handles its error, as the tests do with
    [pytest.raises]). *)
Fixpoint after_calls (cb : Breaker.CircuitBreaker) (uses : list use) :
    Breaker.CircuitBreaker :=
  match uses with
  | [] => cb
  | (func, args, w) :: rest =>
      after_calls (Breaker.after (Breaker.call func args) cb w) rest
  end.

(** The operation of a use raises an error of the class the breaker
    counts. *)
Definition fails_as_expected (c : pyclass) (u : use) : bool :=
  match fbody u.1.1 u.1.2 u.2 with
  | (Raised e, _) => isinstance e c
  | (Returned _, _) => false
  end.

Definition expected_failures (c : pyclass) (uses : list use) : Z :=
  Z.of_nat (length (filter (fun u => fails_as_expected c u = true) uses)).

End Breaker.

End Sequences.

(** ** [utils/metrics.py]: series of calls, and the decorators *)

Module Tracking.
Import Py Eff Metrics.

(** A method called once per element of a list, in order. *)
Fixpoint each {S A} (f : A -> M S unit) (l : list A) : M S unit :=
  match l with
  | [] => ret tt
  | a :: rest => f a ;;; each f rest
  end.

(** How many elements of a list are equal to [a]. *)
Definition occurrences `{EqDecision A} (a : A) (l : list A) : Z :=
  Z.of_nat (length (filter (fun x => x = a) l)).

(** The entry of an operation, or the one created on first use. *)
Definition latency_of (m : MetricsCollector) (operation : string) : latency :=
  default new_latency (m_latency m !! operation).

(** The entry of an operation after one call of [record_latency]. *)
Definition timed (l : latency) (duration : Q) : latency :=
  Latency (lat_count l + 1) (lat_total l + duration)
          ((lat_total l + duration) / inject_Z (lat_count l + 1))
          (py_min (lat_min l) duration) (py_max (lat_max l) duration).

Definition with_latency (m : MetricsCollector) (operation : string) (l : latency) :
    MetricsCollector :=
  set_latency (fun _ => <[operation := l]> (m_latency m)) m.

Definition timed_all (l : latency) (durations : list Q) : latency :=
  foldl timed l durations.

(** *** Local variables and [finally] *)

(** A computation that does not touch the local variables. *)
Definition under {L S A} (m : M S A) : M (L * S) A := fun s =>
  match m s.2 with
  | Run x w evs => Run x (s.1, w) evs
  end.

Definition local {L S} : M (L * S) L := fun s => Run (Returned s.1) s [].

Definition assign {L S} (l : L) : M (L * S) unit := fun s =>
  Run (Returned tt) (l, s.2) [].

(** A block with its local variables, which are dropped at its end. *)
Definition with_local {L S A} (l : L) (m : M (L * S) A) : M S A := fun w =>
  match m (l, w) with
  | Run x s evs => Run x s.2 evs
  end.

(** [try: body / finally: final]: [final] runs however [body] ends; an
    error of [final] replaces the outcome of [body]. *)
Definition try_finally {S A} (body : M S A) (final : M S unit) : M S A := fun w =>
  match body w with
  | Run x w' evs =>
      match final w' with
      | Run (Returned _) w'' evs' => Run x w'' (evs ++ evs')
      | Run (Raised e) w'' evs' => Run (Raised e) w'' (evs ++ evs')
      end
  end.

Section Decorators.
Context {U : Type}.

(** [get_metrics_collector()] and the code that uses the object it
    returns: the module-level singleton is created on first use. *)
Definition get_metrics_collector {A} (k : M (MetricsCollector * env U) A) :
    M (option MetricsCollector * env U) A := fun s =>
  let r0 : run (env U) MetricsCollector :=
    match s.1 with
    | Some m => Run (Returned m) s.2 []
    | None => Metrics.init s.2
    end in
  match r0 with
  | Run (Returned m) w evs =>
      match k (m, w) with
      | Run x (m', w') evs' => Run x (Some m', w') (evs ++ evs')
      end
  | Run (Raised e) w evs => Run (Raised e) (s.1, w) evs
  end.

(** [operation or func.__name__]. *)
Definition op_name (operation : option string) (func : pyfunc U) : string :=
  match operation with
  | Some o => if decide (o = EmptyString) then fname func else o
  | None => fname func
  end.

(** The decorated function of [track_time(operation)]. *)
Definition track_time (operation : option string) (func : pyfunc U)
    (args : arguments) : M (option MetricsCollector * env U) pyval :=
  start_time <- lift time_time ;;
  with_local true (
    try_finally
      (try_except
         (under (lift (invoke func args)))
         [Exception]
         (fun e =>
            assign false ;;;
            raise e))
      (now <- under (lift time_time) ;;
       let duration := (now - start_time)%Q in
       let op_name := op_name operation func in
       under (get_metrics_collector (record_latency op_name duration)) ;;;
       under (log DEBUG ("Operation " +:+ op_name +:+ " completed")))).

(** The decorated function of [track_node_execution(node_name)]. *)
Definition track_node_execution (node_name : string) (func : pyfunc U)
    (args : arguments) : M (option MetricsCollector * env U) pyval :=
  start_time <- lift time_time ;;
  with_local true (
    try_finally
      (try_except
         (under (log INFO ("Node " +:+ node_name +:+ " started")) ;;;
          under (lift (invoke func args)))
         [Exception]
         (fun e =>
            assign false ;;;
            under (log ERROR ("Node " +:+ node_name +:+ " failed")) ;;;
            raise e))
      (now <- under (lift time_time) ;;
       let duration := (now - start_time)%Q in
       success <- local ;;
       under (get_metrics_collector
                (record_node_execution node_name duration success)) ;;;
       under (log INFO ("Node " +:+ node_name +:+ " completed")))).

(** The flag the decorators keep in [success]: it is cleared by the handler
    of [except Exception] only. *)
Definition counts_as_success (x : outcome pyval) : bool :=
  match x with
  | Returned _ => true
  | Raised e => negb (matches e [Exception])
  end.

(** The collector the decorators write to: the singleton, or the one
    created at the time of the first use. *)
Definition collector_at (om : option MetricsCollector) (now : Q) : MetricsCollector :=
  default (empty_metrics now) om.

(** What creating the singleton logs. *)
Definition created (om : option MetricsCollector) : list event :=
  match om with
  | Some _ => []
  | None => [Log INFO "Metrics collector initialized"]
  end.

End Decorators.

End Tracking.

(** ** [utils/validation.py] *)

Module Validation.
Import Py Eff.

(** A [str] is the sequence of its code points. *)
Abbreviation text := (list Z).

Definition len {A} (l : list A) : Z := Z.of_nat (length l).

(** [s[:n]]: a negative bound counts from the end. *)
Definition slice_to {A} (s : list A) (n : Z) : list A :=
  if (0 <=? n)%Z then take (Z.to_nat n) s
  else take (Z.to_nat (len s + n)) s.

Definition suspicious_patterns : list string :=
  ["<script"; "javascript:"; "onerror="; "onclick="].

Section Functions.
Context {S : Type}.

(** Whether a character is whitespace, as [str.isspace] has it: these are
    the characters [str.strip()] removes and [\s] matches. *)
Variable isspace : Z -> bool.

(** [re.search(pattern, s, re.IGNORECASE)] finds a match. The matching is
    the library's; it is a parameter. *)
Variable search : string -> text -> bool.

Fixpoint lstrip (s : text) : text :=
  match s with
  | [] => []
  | c :: rest => if isspace c then lstrip rest else s
  end.

Fixpoint rstrip (s : text) : text :=
  match s with
  | [] => []
  | c :: rest =>
      match rstrip rest with
      | [] => if isspace c then [] else [c]
      | kept => c :: kept
      end
  end.

(** [s.strip()]. *)
Definition strip (s : text) : text := lstrip (rstrip s).

(** [s.replace("\x00", "")]. *)
Definition replace_nul (s : text) : text := filter (fun c => c <> 0%Z) s.

(** [re.sub(r'\s+', ' ', s)]: every maximal run of whitespace becomes one
    space; [in_run] tells that the run has begun. *)
Fixpoint sub_spaces (in_run : bool) (s : text) : text :=
  match s with
  | [] => []
  | c :: rest =>
      if isspace c then
        if in_run then sub_spaces true rest else 32%Z :: sub_spaces true rest
      else c :: sub_spaces false rest
  end.

(** The [for] loop of [validate_question] over the patterns. *)
Fixpoint check_patterns (patterns : list string) (question : text) : M S unit :=
  match patterns with
  | [] => ret tt
  | pattern :: rest =>
      if search pattern question then
        log WARNING "Suspicious pattern detected in question" ;;;
        raise (Exn ValidationError "Question contains suspicious content"
                   [("pattern", PyStr pattern)])
      else check_patterns rest question
  end.

(** The argument is a [str], so the [isinstance] test passes. *)
Definition validate_question (question : text) : M S text :=
  if bool_decide (question = []) then
    raise (Exn ValidationError "Question cannot be empty" [])
  else
    let question := strip question in
    if (len question <? 3)%Z then
      raise (Exn ValidationError "Question too short (minimum 3 characters)"
                 [("length", PyInt (len question))])
    else if (1000 <? len question)%Z then
      raise (Exn ValidationError "Question too long (maximum 1000 characters)"
                 [("length", PyInt (len question))])
    else
      check_patterns suspicious_patterns question ;;;
      log DEBUG "Question validated" ;;;
      ret question.

(** The argument is a [list], so the [isinstance] test passes. *)
Definition validate_documents {A} (documents : list A) : M S (list A) :=
  if bool_decide (documents = []) then
    log WARNING "Empty document list provided" ;;;
    ret []
  else
    documents <- (if (100 <? len documents)%Z then
                    log WARNING "Too many documents, truncating" ;;;
                    ret (slice_to documents 100)
                  else ret documents) ;;
    log DEBUG "Documents validated" ;;;
    ret documents.

Definition validate_generation (generation : text) : M S text :=
  if bool_decide (generation = []) then
    raise (Exn ValidationError "Generation cannot be empty" [])
  else
    let generation := strip generation in
    if (len generation <? 10)%Z then
      raise (Exn ValidationError "Generation too short (minimum 10 characters)"
                 [("length", PyInt (len generation))])
    else
      log DEBUG "Generation validated" ;;;
      ret generation.

Definition sanitize_text (s : text) (max_length : option Z) : text :=
  if bool_decide (s = []) then []
  else
    let s := replace_nul s in
    let s := sub_spaces false s in
    let s := strip s in
    match max_length with
    | Some n => if negb (n =? 0)%Z && (n <? len s)%Z then slice_to s n else s
    | None => s
    end.

(** No whitespace character is next to another. *)
Definition spaced (s : text) : Prop :=
  forall i c d, s !! i = Some c -> s !! Datatypes.S i = Some d ->
    isspace c = true -> isspace d = false.

(** No whitespace at either end. *)
Definition trimmed (s : text) : Prop :=
  (forall c, head s = Some c -> isspace c = false) /\
  (forall c, last s = Some c -> isspace c = false).

End Functions.

End Validation.

(** ** [ingestion.py]: a function under [retry_with_backoff] and [track_time] *)

Module Ingestion.
Import Py Eff Metrics Tracking.

Section Stack.
Context {U : Type}.

(** The module-level [_metrics] of [utils/metrics.py] is part of what a
    callable can read and change. *)
Definition globals : Type := option MetricsCollector * U.

Definition split (w : env globals) : option MetricsCollector * env U :=
  ((user w).1, Env (clock w) (user w).2).

Definition join (s : option MetricsCollector * env U) : env globals :=
  Env (clock s.2) (s.1, user s.2).

(** The function object [track_time(operation)(func)], which
    [functools.wraps] gives the name of [func]. *)
Definition tracked (operation : option string) (func : pyfunc U) : pyfunc globals :=
  PyFunc (fname func)
         (fun args w =>
            let r := track_time operation func args (split w) in
            (result r, join (world r))).

(** [@retry_with_backoff(max_retries=3, initial_delay=2.0,
    exceptions=(Exception,))] over [@track_time("load_documents")]. *)
Definition load_documents_retry : Retry.config globals :=
  Retry.Config 3 2 2 [Exception] None.

Definition load_documents (dict_repr : details -> string) (body : pyfunc U)
    (args : arguments) : M (env globals) pyval :=
  Retry.wrapper dict_repr load_documents_retry
                (tracked (Some "load_documents") body) args.

(** The number of latency samples the global collector holds for an
    operation. *)
Definition samples (w : env globals) (operation : string) : Z :=
  lat_count (latency_of (collector_at (user w).1 0) operation).

End Stack.

End Ingestion.


(** ** More callables of the test-suite *)

Module MoreExamples.
Import Py Eff.

(** [sometimes_fails] of [test_retry_success]: the first two invocations
    raise, the third returns. *)
Definition sometimes_fails : pyfunc Z :=
  PyFunc "sometimes_fails"
         (fun _ w =>
            let n := (user w + 1)%Z in
            if (n <? 3)%Z
            then (Raised (Exn Exception "Temporary failure" []), Env (clock w) n)
            else (Returned (PyStr "success"), Env (clock w) n)).

(** A hook that returns. *)
Definition quiet_hook : Retry.hook Z := fun _ _ w => (Returned tt, w).

Definition retry_thrice : Retry.config Z :=
  Retry.Config 3 0.1%Q 2 [Exception] None.

Definition retry_with_hook : Retry.config Z :=
  Retry.Config 2 0.1%Q 2 [Exception] (Some quiet_hook).

Definition retry_never : Retry.config Z :=
  Retry.Config (-1) 0.1%Q 2 [Exception] None.

(** The breaker of [test_circuit_breaker_opens]. *)
Definition breaker3 : Breaker.CircuitBreaker := Breaker.initial 3 1 Exception.

(** A failure, a success and a failure, at times [0], [1] and [2]. *)
Definition fail_succeed_fail : list (Sequences.use (U:=Z)) :=
  [(Examples.failing_operation, ([], []), Examples.at_time 0);
   (Examples.successful_operation, ([], []), Examples.at_time 1);
   (Examples.failing_operation, ([], []), Examples.at_time 2)].

(** An operation interrupted from the keyboard. *)
Definition interrupted : pyfunc Z :=
  PyFunc "interrupted"
         (fun _ w => (Raised (Exn KeyboardInterrupt "" []), Examples.bump w)).

(** A node that takes a second and a half. *)
Definition slow_node : pyfunc Z :=
  PyFunc "slow_node"
         (fun _ w => (Returned (PyStr "done"), Env (clock w + 1.5) (user w + 1)%Z)).

(** The code points of a string of ASCII characters. *)
Definition codes (s : string) : Validation.text :=
  (fun a => Z.of_N (Ascii.N_of_ascii a)) <$> String.list_ascii_of_string s.

(** The ASCII characters for which [str.isspace] holds. *)
Definition ascii_isspace (c : Z) : bool :=
  ((9 <=? c) && (c <=? 13) || (28 <=? c) && (c <=? 32))%Z.

(** A search for the pattern as it is written, letter case apart, among
    ASCII characters. *)
Definition lower (c : Z) : Z :=
  if ((65 <=? c) && (c <=? 90))%Z then (c + 32)%Z else c.

Fixpoint starts_with (p s : Validation.text) : bool :=
  match p, s with
  | [], _ => true
  | _ :: _, [] => false
  | a :: p', b :: s' => (lower a =? lower b)%Z && starts_with p' s'
  end.

Fixpoint found_in (p s : Validation.text) : bool :=
  starts_with p s ||
  match s with
  | [] => false
  | _ :: s' => found_in p s'
  end.

Definition ascii_search (pattern : string) (s : Validation.text) : bool :=
  found_in (codes pattern) s.

End MoreExamples.

(** * Properties *)

(** ** The monad *)

Module EffFacts.
Import Py Eff.

Lemma run_eta {S A} (r : run S A) : r = Run (result r) (world r) (emitted r).
Proof. destruct r; reflexivity. Qed.

Lemma after_events_eq {S A} evs (r : run S A) :
  after_events evs r = Run (result r) (world r) (evs ++ emitted r).
Proof. destruct r; reflexivity. Qed.

Lemma after_events_nil {S A} (r : run S A) : after_events [] r = r.
Proof. destruct r; reflexivity. Qed.

Lemma result_after_events {S A} evs (r : run S A) :
  result (after_events evs r) = result r.
Proof. destruct r; reflexivity. Qed.

Lemma world_after_events {S A} evs (r : run S A) :
  world (after_events evs r) = world r.
Proof. destruct r; reflexivity. Qed.

Lemma emitted_after_events {S A} evs (r : run S A) :
  emitted (after_events evs r) = evs ++ emitted r.
Proof. destruct r; reflexivity. Qed.

Lemma bind_returned {S A B} (m : M S A) (k : A -> M S B) s a s' evs :
  m s = Run (Returned a) s' evs ->
  bind m k s = Run (result (k a s')) (world (k a s')) (evs ++ emitted (k a s')).
Proof. intros H. unfold bind. rewrite H. apply after_events_eq. Qed.

Lemma bind_quiet {S A B} (m : M S A) (k : A -> M S B) s a s' :
  m s = Run (Returned a) s' [] -> bind m k s = k a s'.
Proof. intros H. unfold bind. rewrite H. apply after_events_nil. Qed.

Lemma bind_raised {S A B} (m : M S A) (k : A -> M S B) s e s' evs :
  m s = Run (Raised e) s' evs -> bind m k s = Run (Raised e) s' evs.
Proof. intros H. unfold bind. rewrite H. reflexivity. Qed.

Lemma calls_app evs evs' : calls (evs ++ evs') = calls evs ++ calls evs'.
Proof. unfold calls. apply omap_app. Qed.

Lemma sleeps_app evs evs' : sleeps (evs ++ evs') = sleeps evs ++ sleeps evs'.
Proof. unfold sleeps. apply omap_app. Qed.

Lemma sleeps_call r evs : sleeps (Call r :: evs) = sleeps evs.
Proof. reflexivity. Qed.

Lemma calls_call r evs : calls (Call r :: evs) = r :: calls evs.
Proof. reflexivity. Qed.

Lemma sleeps_sleep d evs : sleeps (Sleep d :: evs) = d :: sleeps evs.
Proof. reflexivity. Qed.

Lemma calls_sleep d evs : calls (Sleep d :: evs) = calls evs.
Proof. reflexivity. Qed.

Lemma calls_log l msg evs : calls (Log l msg :: evs) = calls evs.
Proof. reflexivity. Qed.

Lemma length_append (s1 s2 : string) :
  String.length (s1 +:+ s2) = String.length s1 + String.length s2.
Proof. induction s1 as [|a s1 IH]; simpl; [reflexivity | f_equal; exact IH]. Qed.

Lemma Qpower_succ (q : Q) (n : nat) :
  (q ^ Z.of_nat (S n) == q * q ^ Z.of_nat n)%Q.
Proof.
  rewrite Nat2Z.inj_succ, <- Z.add_1_l.
  rewrite Qpower_plus' by lia. rewrite Qpower_1_r. reflexivity.
Qed.

End EffFacts.

(** ** [retry_with_backoff] *)

Module RetryFacts.
Import Py Eff Retry EffFacts.

Section Facts.
Context {U : Type}.
Variable dict_repr : details -> string.
Variables (cfg : config U) (func : pyfunc U) (args : arguments).

#[local] Abbreviation loop := (Retry.loop dict_repr cfg func args).
#[local] Abbreviation before_sleep := (Retry.before_sleep cfg func).

Lemma sleeps_before_sleep attempt e : sleeps (before_sleep attempt e) = [].
Proof. unfold Retry.before_sleep, hook_events. destruct (on_retry cfg); reflexivity. Qed.

Lemma calls_before_sleep attempt e : calls (before_sleep attempt e) = [Raised e].
Proof. unfold Retry.before_sleep, hook_events. destruct (on_retry cfg); reflexivity. Qed.

(** *** One iteration, case by case *)

Lemma loop_returned attempt rest delay last_exception w v w' :
  fbody func args w = (Returned v, w') ->
  loop (attempt :: rest) delay last_exception w =
    Run (Returned v) w'
        (Call (Returned v) ::
         if (0 <? attempt)%Z
         then [Log INFO ("Function " +:+ fname func +:+ " succeeded after retry")]
         else []).
Proof.
  intros Hf. cbn. unfold iteration, try_except, bind, invoke. cbn. rewrite Hf. cbn.
  destruct (0 <? attempt)%Z; reflexivity.
Qed.

Lemma loop_not_caught attempt rest delay last_exception w e w' :
  fbody func args w = (Raised e, w') ->
  matches e (exceptions cfg) = false ->
  loop (attempt :: rest) delay last_exception w = Run (Raised e) w' [Call (Raised e)].
Proof.
  intros Hf Hm. cbn. unfold iteration, try_except, bind, invoke. cbn. rewrite Hf. cbn.
  rewrite Hm. reflexivity.
Qed.

Lemma loop_exhausted rest delay last_exception w e w' :
  fbody func args w = (Raised e, w') ->
  matches e (exceptions cfg) = true ->
  loop (max_retries cfg :: rest) delay last_exception w =
    Run (Raised (exhausted dict_repr cfg func e)) w'
        [Call (Raised e);
         Log ERROR ("Function " +:+ fname func +:+ " failed after all retries")].
Proof.
  intros Hf Hm. cbn. unfold iteration, try_except, bind, invoke. cbn. rewrite Hf. cbn.
  rewrite Hm, Z.eqb_refl. reflexivity.
Qed.

Lemma loop_retry attempt rest delay last_exception w e w1 :
  fbody func args w = (Raised e, w1) ->
  matches e (exceptions cfg) = true ->
  attempt <> max_retries cfg ->
  hook_returns cfg ->
  (0 <= delay)%Q ->
  exists w2,
    let r' := loop rest (delay * backoff_factor cfg) (Some e) w2 in
    loop (attempt :: rest) delay last_exception w =
      Run (result r') (world r') (before_sleep attempt e ++ Sleep delay :: emitted r').
Proof.
  intros Hf Hm Ha Hh Hd. apply Z.eqb_neq in Ha.
  cbn. unfold iteration, try_except, bind, invoke. cbn.
  rewrite Hf. cbn. rewrite Hm, Ha. cbn.
  unfold Retry.before_sleep, hook_events, time_sleep.
  destruct (on_retry cfg) as [h|] eqn:Hh'; cbn.
  - unfold call_hook. destruct (Hh h Hh' attempt e w1) as [w2 ->]. cbn.
    destruct (Qlt_le_dec delay 0) as [Hlt|_]; [exfalso; lra|]. cbn.
    eexists. rewrite !after_events_eq. reflexivity.
  - destruct (Qlt_le_dec delay 0) as [Hlt|_]; [exfalso; lra|]. cbn.
    eexists. rewrite !after_events_eq. reflexivity.
Qed.

(** One iteration either ends the loop, with no sleep and no invocation
    after the first one, or sleeps [delay] and runs the next iteration
    with [delay * backoff_factor]. *)
Lemma loop_cons attempt rest delay last_exception w :
  let r := loop (attempt :: rest) delay last_exception w in
  (exists r0 evs,
      emitted r = Call r0 :: evs /\ sleeps evs = [] /\ calls evs = [] /\
      forall e, r0 = Raised e -> matches e (exceptions cfg) = false ->
                evs = [] /\ result r = Raised e)
  \/
  (exists e w',
      let r' := loop rest (delay * backoff_factor cfg) (Some e) w' in
      matches e (exceptions cfg) = true /\ attempt <> max_retries cfg /\
      (0 <= delay)%Q /\
      emitted r = before_sleep attempt e ++ Sleep delay :: emitted r' /\
      result r = result r' /\ world r = world r').
Proof.
  cbn. unfold iteration, try_except, bind, invoke. cbn.
  destruct (fbody func args w) as [[v|e] w1] eqn:Hf; cbn.
  - left. exists (Returned v).
    destruct (0 <? attempt)%Z; cbn; eexists; (split; [reflexivity|]);
      repeat split; intros; discriminate.
  - destruct (matches e (exceptions cfg)) eqn:Hm; cbn.
    2:{ left. exists (Raised e), []. repeat split; congruence. }
    destruct (attempt =? max_retries cfg)%Z eqn:Ha; cbn.
    { left. eexists (Raised e), _. split; [reflexivity|].
      repeat split; intros; congruence. }
    apply Z.eqb_neq in Ha.
    unfold Retry.before_sleep, hook_events.
    destruct (on_retry cfg) as [h|]; cbn.
    + unfold call_hook. destruct (h attempt e w1) as [[[]|e'] w2]; cbn.
      * unfold time_sleep. destruct (Qlt_le_dec delay 0); cbn.
        -- left. eexists (Raised e), _. split; [reflexivity|].
           repeat split; intros; congruence.
        -- right. exists e. eexists. rewrite !after_events_eq.
           repeat split; try eassumption; reflexivity.
      * left. eexists (Raised e), _. split; [reflexivity|].
        repeat split; intros; congruence.
    + unfold time_sleep. destruct (Qlt_le_dec delay 0); cbn.
      * left. eexists (Raised e), _. split; [reflexivity|].
        repeat split; intros; congruence.
      * right. exists e. eexists. rewrite !after_events_eq.
        repeat split; try eassumption; reflexivity.
Qed.

(** *** The loop as a whole *)

Lemma loop_sleeps attempts : forall delay last_exception w (i : nat) d,
  sleeps (emitted (loop attempts delay last_exception w)) !! i = Some d ->
  (d == delay * backoff_factor cfg ^ Z.of_nat i)%Q.
Proof.
  induction attempts as [|attempt rest IH]; intros delay last_exception w i d Hi.
  - discriminate.
  - destruct (loop_cons attempt rest delay last_exception w)
      as [(r0 & evs & He & Hs & _)|(e & w' & _ & _ & _ & He & _)];
      rewrite He in Hi.
    + rewrite sleeps_call, Hs in Hi. discriminate.
    + rewrite sleeps_app, sleeps_before_sleep in Hi. cbn in Hi.
      destruct i as [|i]; cbn in Hi.
      * injection Hi as <-. change (delay == delay * 1)%Q. ring.
      * apply IH in Hi. rewrite Hi, Qpower_succ. ring.
Qed.

Lemma loop_not_caught_last attempts : forall delay last_exception w e,
  Raised e ∈ calls (emitted (loop attempts delay last_exception w)) ->
  matches e (exceptions cfg) = false ->
  last (emitted (loop attempts delay last_exception w)) = Some (Call (Raised e)) /\
  result (loop attempts delay last_exception w) = Raised e.
Proof.
  induction attempts as [|attempt rest IH]; intros delay last_exception w e Hin Hm.
  - cbn in Hin. apply elem_of_nil in Hin. destruct Hin.
  - destruct (loop_cons attempt rest delay last_exception w)
      as [(r0 & evs & He & _ & Hc & Hstop)|(e0 & w' & Hm0 & _ & _ & He & Hr & _)];
      rewrite He in Hin |- *.
    + rewrite calls_call, Hc in Hin. apply list_elem_of_singleton in Hin as <-.
      destruct (Hstop e eq_refl Hm) as [-> ->]. split; reflexivity.
    + rewrite calls_app, calls_before_sleep in Hin. cbn in Hin.
      apply elem_of_cons in Hin as [Heq|Hin].
      { injection Heq as ->. congruence. }
      destruct (IH _ _ _ _ Hin Hm) as [Hl Hres].
      split; [|congruence].
      rewrite last_app_cons, last_cons, Hl. reflexivity.
Qed.

Lemma range_succ (n : Z) :
  (0 <= n)%Z -> range (n + 1) = range n ++ [n].
Proof.
  intros Hn. unfold range.
  replace (Z.to_nat (n + 1)) with (S (Z.to_nat n)) by lia.
  rewrite seq_S, fmap_app. cbn. f_equal. f_equal. lia.
Qed.

Lemma range_lt (n x : Z) : x ∈ range n -> (0 <= x < n)%Z.
Proof.
  unfold range. intros (k & -> & Hk)%list_elem_of_fmap.
  apply list_elem_of_In, in_seq in Hk. lia.
Qed.

Lemma length_range (n : Z) : length (range n) = Z.to_nat n.
Proof. unfold range. rewrite length_fmap, length_seq. reflexivity. Qed.

(** A loop over attempts that end with [max_retries] and whose
    invocations all raise a caught error. *)
Lemma loop_always_retryable :
  hook_returns cfg ->
  always_retryable cfg func args ->
  (0 <= backoff_factor cfg)%Q ->
  forall attempts delay last_exception w,
    Forall (fun a => a <> max_retries cfg) attempts ->
    (0 <= delay)%Q ->
    let r := loop (attempts ++ [max_retries cfg]) delay last_exception w in
    exists e,
      result r = Raised (exhausted dict_repr cfg func e) /\
      last (calls (emitted r)) = Some (Raised e) /\
      length (calls (emitted r)) = S (length attempts) /\
      length (sleeps (emitted r)) = length attempts.
Proof.
  intros Hh Hf Hb. induction attempts as [|attempt rest IH];
    intros delay last_exception w Hne Hd.
  - destruct (Hf w) as (e & w' & He & Hm). cbn [app].
    rewrite (loop_exhausted _ _ _ _ _ _ He Hm). exists e. cbn. auto.
  - destruct (Hf w) as (e & w' & He & Hm). inversion Hne as [|? ? Ha Hrest]; subst.
    destruct (loop_retry attempt (rest ++ [max_retries cfg]) delay last_exception
                w e w' He Hm Ha Hh Hd) as (w2 & Heq).
    cbn [app]. cbv zeta in Heq. rewrite Heq. cbn [result emitted].
    assert (Hd' : (0 <= delay * backoff_factor cfg)%Q)
      by (apply Qmult_le_0_compat; assumption).
    destruct (IH (delay * backoff_factor cfg)%Q (Some e) w2 Hrest Hd')
      as (e' & Hres & Hlast & Hcalls & Hsleeps).
    exists e'. rewrite calls_app, sleeps_app, calls_before_sleep, sleeps_before_sleep.
    rewrite calls_sleep, sleeps_sleep. cbn [app length].
    rewrite Hcalls, Hsleeps. repeat split; auto.
    rewrite last_cons, Hlast. reflexivity.
Qed.

(** Over attempts that end with [max_retries], every invocation but the
    last one is followed by exactly one sleep. *)
Lemma loop_calls_and_sleeps attempts : forall delay last_exception w,
  let r := loop (attempts ++ [max_retries cfg]) delay last_exception w in
  length (calls (emitted r)) = S (length (sleeps (emitted r))).
Proof.
  induction attempts as [|attempt rest IH]; intros delay last_exception w; cbv zeta.
  - cbn [app].
    destruct (loop_cons (max_retries cfg) [] delay last_exception w)
      as [(r0 & evs & He & Hs & Hc & _)|(e & w' & _ & Hne & _)]; [|congruence].
    rewrite He, calls_call, sleeps_call, Hs, Hc. reflexivity.
  - cbn [app].
    destruct (loop_cons attempt (rest ++ [max_retries cfg]) delay last_exception w)
      as [(r0 & evs & He & Hs & Hc & _)|(e & w' & _ & _ & _ & He & _)]; rewrite He.
    + rewrite calls_call, sleeps_call, Hs, Hc. reflexivity.
    + rewrite calls_app, sleeps_app, calls_before_sleep, sleeps_before_sleep.
      rewrite calls_sleep, sleeps_sleep. cbn [app length]. rewrite IH. reflexivity.
Qed.

(** The error of the last attempt is a new object, not the error it
    reports. *)
Lemma exhausted_fresh e : exhausted dict_repr cfg func e <> e.
Proof.
  intros Heq.
  assert (Hc : exn_class e = RetryExhaustedError) by (rewrite <- Heq; reflexivity).
  assert (Hd : exn_details e <> []) by (rewrite <- Heq; discriminate).
  assert (Hm : exn_message e
               = "Failed after " +:+ pretty (max_retries cfg + 1)%Z +:+ " attempts: "
                   +:+ str dict_repr e) by (rewrite <- Heq at 1; reflexivity).
  assert (Hs : String.length (exn_message e) <= String.length (str dict_repr e)).
  { unfold str. rewrite Hc.
    change (issubclass RetryExhaustedError AdvancedRAGException) with true.
    cbv iota. destruct (exn_details e); [congruence|].
    rewrite length_append. lia. }
  apply (f_equal String.length) in Hm. rewrite !length_append in Hm.
  change (String.length "Failed after ") with 13 in Hm. lia.
Qed.

End Facts.

(** C1. With [max_retries = n >= 0], a non-negative delay configuration and
    a hook that returns, an operation that raises a caught error on every
    invocation is invoked exactly [n + 1] times (with [n] sleeps in between);
    the call then raises a [RetryExhaustedError], an object distinct from the
    operation's last error, whose details carry the name of the function, the
    attempt count [n + 1] and [str] of the last error. *)
Theorem retry_exhausted_after_all_attempts {U : Type} (dict_repr : details -> string)
    (cfg : config U) (func : pyfunc U) (args : arguments) (w : env U) :
  (0 <= max_retries cfg)%Z ->
  (0 <= initial_delay cfg)%Q ->
  (0 <= backoff_factor cfg)%Q ->
  hook_returns cfg ->
  always_retryable cfg func args ->
  let r := wrapper dict_repr cfg func args w in
  length (calls (emitted r)) = Z.to_nat (max_retries cfg + 1) /\
  length (sleeps (emitted r)) = Z.to_nat (max_retries cfg) /\
  exists e x,
    last (calls (emitted r)) = Some (Raised e) /\
    result r = Raised x /\
    exn_class x = RetryExhaustedError /\
    x <> e /\
    exn_message x
      = "Failed after " +:+ pretty (max_retries cfg + 1)%Z +:+ " attempts: "
          +:+ str dict_repr e /\
    exn_details x
      = [("function", PyStr (fname func));
         ("attempts", PyInt (max_retries cfg + 1));
         ("last_error", PyStr (str dict_repr e))].
Proof.
  intros Hn Hd Hb Hh Hf. cbv zeta. unfold wrapper.
  rewrite range_succ by assumption.
  assert (Hne : Forall (fun a => a <> max_retries cfg) (range (max_retries cfg))).
  { apply Forall_forall. intros a Ha%range_lt. lia. }
  destruct (loop_always_retryable dict_repr cfg func args Hh Hf Hb
              (range (max_retries cfg)) (initial_delay cfg) None w Hne Hd)
    as (e & Hres & Hlast & Hcalls & Hsleeps).
  rewrite Hcalls, Hsleeps, length_range.
  split; [lia|]. split; [reflexivity|].
  exists e, (exhausted dict_repr cfg func e).
  repeat split; auto. apply exhausted_fresh.
Qed.

(** C4. In any run of the retry wrapper, an invocation that raises an error
    outside the configured exception classes is the last thing that happens:
    no further invocation, hook call or sleep follows it, and the call raises
    that very error. *)
Theorem non_retryable_error_propagates {U : Type} (dict_repr : details -> string)
    (cfg : config U) (func : pyfunc U) (args : arguments) (w : env U) (e : exn) :
  Raised e ∈ calls (emitted (wrapper dict_repr cfg func args w)) ->
  matches e (exceptions cfg) = false ->
  last (emitted (wrapper dict_repr cfg func args w)) = Some (Call (Raised e)) /\
  result (wrapper dict_repr cfg func args w) = Raised e.
Proof. apply loop_not_caught_last. Qed.

(** When the first invocation raises such an error, it is the only one. *)
Lemma not_caught_first {U : Type} (dict_repr : details -> string)
    (cfg : config U) (func : pyfunc U) (args : arguments) (w w' : env U) (e : exn) :
  (0 <= max_retries cfg)%Z ->
  fbody func args w = (Raised e, w') ->
  matches e (exceptions cfg) = false ->
  wrapper dict_repr cfg func args w = Run (Raised e) w' [Call (Raised e)].
Proof.
  intros Hn Hf Hm. unfold wrapper, range.
  replace (Z.to_nat (max_retries cfg + 1)) with (S (Z.to_nat (max_retries cfg))) by lia.
  cbn [seq fmap list_fmap]. eapply loop_not_caught; eassumption.
Qed.

(** C7. In any run of the retry wrapper with [max_retries >= 0], every
    invocation but the last one is followed by exactly one sleep, and the
    [i]-th sleep (counting from 0) lasts [initial_delay * backoff_factor ^ i]:
    nothing is added to a delay and nothing bounds it. *)
Theorem backoff_delays_are_geometric {U : Type} (dict_repr : details -> string)
    (cfg : config U) (func : pyfunc U) (args : arguments) (w : env U) :
  (0 <= max_retries cfg)%Z ->
  let evs := emitted (wrapper dict_repr cfg func args w) in
  length (calls evs) = S (length (sleeps evs)) /\
  forall (i : nat) (d : Q),
    sleeps evs !! i = Some d ->
    (d == initial_delay cfg * backoff_factor cfg ^ Z.of_nat i)%Q.
Proof.
  intros Hn. cbv zeta. split.
  - unfold wrapper. rewrite range_succ by assumption. apply loop_calls_and_sleeps.
  - intros i d. apply loop_sleeps.
Qed.

(** The test [test_retry_exhausted]: two retries, three invocations. *)
Lemma retry_exhausted_after_all_attempts_witness :
  always_retryable Examples.retry_twice Examples.always_fails ([], []) /\
  let r := wrapper Examples.dict_repr Examples.retry_twice Examples.always_fails
                   ([], []) Examples.start in
  length (calls (emitted r)) = 3 /\
  length (sleeps (emitted r)) = 2 /\
  exists e x,
    last (calls (emitted r)) = Some (Raised e) /\
    result r = Raised x /\
    exn_class x = RetryExhaustedError /\
    x <> e /\
    exn_message x
      = "Failed after " +:+ pretty 3%Z +:+ " attempts: "
          +:+ str Examples.dict_repr e /\
    exn_details x
      = [("function", PyStr "always_fails");
         ("attempts", PyInt 3);
         ("last_error", PyStr (str Examples.dict_repr e))].
Proof.
  assert (H : always_retryable Examples.retry_twice Examples.always_fails ([], [])).
  { intros w. eexists _, _. split; reflexivity. }
  split; [exact H|].
  apply (retry_exhausted_after_all_attempts Examples.dict_repr Examples.retry_twice
           Examples.always_fails ([], []) Examples.start).
  - cbn. lia.
  - cbn. lra.
  - cbn. lra.
  - intros h Hh. discriminate.
  - exact H.
Defined.

(** The test [test_retry_specific_exceptions]. *)
Lemma non_retryable_error_propagates_witness :
  let e := Exn TypeError "Not retryable" [] in
  let r := wrapper Examples.dict_repr Examples.retry_value_errors
                   Examples.fails_with_type_error ([], []) Examples.start in
  last (emitted r) = Some (Call (Raised e)) /\ result r = Raised e.
Proof.
  apply (non_retryable_error_propagates Examples.dict_repr Examples.retry_value_errors
           Examples.fails_with_type_error ([], []) Examples.start).
  - vm_compute. apply list_elem_of_here.
  - reflexivity.
Defined.

(** The sleeps of [test_retry_exhausted]: three invocations, two sleeps,
    the second one of [0.1 * 2] seconds. *)
Lemma backoff_delays_are_geometric_witness :
  let evs := emitted (wrapper Examples.dict_repr Examples.retry_twice
                              Examples.always_fails ([], []) Examples.start) in
  length (calls evs) = 3 /\
  sleeps evs !! 1 = Some (0.1 * 2)%Q /\
  (0.1 * 2 == 0.1 * 2 ^ Z.of_nat 1)%Q.
Proof.
  cbv zeta.
  destruct (backoff_delays_are_geometric Examples.dict_repr Examples.retry_twice
              Examples.always_fails ([], []) Examples.start) as [Hcount Hdelay].
  { cbn. lia. }
  split; [exact Hcount|]. split; [reflexivity|].
  apply (Hdelay 1 (0.1 * 2)%Q). reflexivity.
Defined.

End RetryFacts.

(** ** [CircuitBreaker] *)

Module BreakerFacts.
Import Py Eff Breaker EffFacts.

Section Facts.
Context {U : Type}.
Implicit Types (cb : CircuitBreaker) (w : env U) (func : pyfunc U) (args : arguments).

(** *** The check before the call *)

Lemma gate_closed cb w :
  state cb <> OPEN -> gate (cb, w) = Run (Returned tt) (cb, w) [].
Proof.
  intros Hs. unfold gate, bind, self. cbn.
  destruct (state cb) eqn:E; cbn; congruence.
Qed.

Lemma gate_rejects cb w t :
  state cb = OPEN -> last_failure_time cb = Some t ->
  (clock w - t < timeout cb)%Q ->
  gate (cb, w) =
    Run (Raised circuit_open) (cb, w)
        [Log WARNING "Circuit breaker is OPEN, rejecting request"].
Proof.
  intros Hs Ht Hlt. unfold gate, bind, self, lift, time_time. cbn.
  rewrite Hs, Ht. cbn.
  destruct (Qlt_le_dec (clock w - t) (timeout cb)) as [_|Hle]; [reflexivity|].
  exfalso. lra.
Qed.

Lemma gate_admits cb w t :
  state cb = OPEN -> last_failure_time cb = Some t ->
  (timeout cb <= clock w - t)%Q ->
  gate (cb, w) =
    Run (Returned tt) (set_state HALF_OPEN cb, w)
        [Log INFO "Circuit breaker entering HALF_OPEN state"].
Proof.
  intros Hs Ht Hle. unfold gate, bind, self, lift, time_time. cbn.
  rewrite Hs, Ht. cbn.
  destruct (Qlt_le_dec (clock w - t) (timeout cb)) as [Hlt|_]; [exfalso; lra|].
  reflexivity.
Qed.

(** *** The [try] statement *)

(** It invokes the operation exactly once. *)
Lemma guarded_calls func args cb w :
  calls (emitted (guarded func args (cb, w))) = [(fbody func args w).1].
Proof.
  unfold guarded, try_except, bind, self, lift, invoke. cbn.
  destruct (fbody func args w) as [[v|e] w1]; cbn.
  - destruct (state cb); reflexivity.
  - unfold matches. cbn.
    destruct (isinstance e (expected_exception cb)); cbn; [|reflexivity].
    destruct (failure_threshold cb <=? failure_count cb + 1)%Z; reflexivity.
Qed.

(** A failure of the expected class is counted, dated and re-raised. *)
Lemma guarded_failure func args cb w e w' :
  fbody func args w = (Raised e, w') ->
  isinstance e (expected_exception cb) = true ->
  let cb1 := set_last_failure_time (clock w')
               (set_failure_count (failure_count cb + 1) cb) in
  let cb2 := if (failure_threshold cb <=? failure_count cb + 1)%Z
             then set_state OPEN cb1 else cb1 in
  result (guarded func args (cb, w)) = Raised e /\
  world (guarded func args (cb, w)) = (cb2, w').
Proof.
  intros Hf He. unfold guarded, try_except, bind, self, lift, invoke. cbn.
  rewrite Hf. cbn. unfold matches. cbn. rewrite He. cbn.
  destruct (failure_threshold cb <=? failure_count cb + 1)%Z; split; reflexivity.
Qed.

(** *** The invariant of the reachable states *)

Lemma guarded_tripped func args cb w :
  tripped cb -> tripped (world (guarded func args (cb, w))).1.
Proof.
  unfold tripped. intros Hinv.
  unfold guarded, try_except, bind, self, lift, invoke. cbn.
  destruct (fbody func args w) as [[v|e] w1]; cbn.
  - destruct (state cb) eqn:Hs; cbn; rewrite ?Hs; auto. congruence.
  - unfold matches. cbn.
    destruct (isinstance e (expected_exception cb)); cbn; [|assumption].
    destruct (failure_threshold cb <=? failure_count cb + 1)%Z eqn:Hle; cbn.
    + intros _. lia.
    + intros Hs. specialize (Hinv Hs). lia.
Qed.

Lemma gate_tripped cb w :
  tripped cb -> tripped (world (gate (cb, w))).1.
Proof.
  unfold tripped. intros Hinv.
  unfold gate, bind, self, lift, time_time. cbn.
  destruct (state cb) eqn:Hs; cbn; rewrite ?Hs; auto.
  destruct (last_failure_time cb); cbn; rewrite ?Hs; auto.
  destruct (Qlt_le_dec _ _); cbn; rewrite ?Hs; auto;
    intros _; apply Hinv; congruence.
Qed.

Lemma call_tripped func args cb w :
  tripped cb -> tripped (after (call func args) cb w).
Proof.
  intros Hinv. unfold after, call.
  pose proof (gate_tripped cb w Hinv) as Hg.
  destruct (gate (cb, w)) as [[[]|e] [cb1 w1] evs] eqn:E; cbn [world fst] in Hg.
  - erewrite bind_returned by exact E. cbn [world]. apply guarded_tripped, Hg.
  - erewrite bind_raised by exact E. exact Hg.
Qed.

Lemma reachable_tripped cb : reachable (U:=U) cb -> tripped cb.
Proof.
  induction 1.
  - unfold tripped. cbn. congruence.
  - apply call_tripped. assumption.
  - unfold tripped. cbn. congruence.
Qed.

Lemma call_rejected func args cb w t :
  state cb = OPEN -> last_failure_time cb = Some t ->
  (clock w - t < timeout cb)%Q ->
  call func args (cb, w) =
    Run (Raised circuit_open) (cb, w)
        [Log WARNING "Circuit breaker is OPEN, rejecting request"].
Proof.
  intros Hs Ht Hlt. unfold call.
  erewrite bind_raised by (eapply gate_rejects; eassumption). reflexivity.
Qed.

End Facts.

(** C2 (as amended). When the circuit is open and [last_failure_time] is set:
    before the timeout has elapsed the call is rejected with a plain
    [Exception] whose message is "Circuit breaker is OPEN", the operation is
    not invoked and the breaker is unchanged; once the timeout has elapsed the
    breaker enters [HALF_OPEN] and the operation is invoked exactly once, as
    the trial request. *)
Theorem open_circuit_gate {U : Type} (cb : CircuitBreaker) (func : pyfunc U)
    (args : arguments) (w : env U) (t : Q) :
  state cb = OPEN ->
  last_failure_time cb = Some t ->
  let r := call func args (cb, w) in
  ((clock w - t < timeout cb)%Q ->
     result r = Raised (Exn Exception "Circuit breaker is OPEN" []) /\
     calls (emitted r) = [] /\
     world r = (cb, w)) /\
  ((timeout cb <= clock w - t)%Q ->
     let trial := guarded func args (set_state HALF_OPEN cb, w) in
     r = Run (result trial) (world trial)
             (Log INFO "Circuit breaker entering HALF_OPEN state" :: emitted trial) /\
     calls (emitted r) = [(fbody func args w).1]).
Proof.
  intros Hs Ht. cbv zeta. split.
  - intros Hlt. rewrite (call_rejected func args cb w t Hs Ht Hlt).
    repeat split; reflexivity.
  - intros Hle. unfold call.
    erewrite bind_returned by (eapply gate_admits; eassumption).
    split; [reflexivity|]. cbn [emitted app]. rewrite calls_log.
    apply guarded_calls.
Qed.

(** A breaker that opened at time [0] with a timeout of one second: a call
    at time [1/2] is rejected, a call at time [5] is the trial request. *)
Lemma open_circuit_gate_witness :
  state Examples.opened = OPEN /\
  last_failure_time Examples.opened = Some 0%Q /\
  result (call Examples.successful_operation ([], [])
               (Examples.opened, Examples.at_time 0.5))
    = Raised (Exn Exception "Circuit breaker is OPEN" []) /\
  calls (emitted (call Examples.successful_operation ([], [])
                       (Examples.opened, Examples.at_time 5)))
    = [Returned (PyStr "success")].
Proof.
  split; [reflexivity|]. split; [reflexivity|].
  pose proof (open_circuit_gate Examples.opened Examples.successful_operation
                ([], []) (Examples.at_time 0.5) 0%Q eq_refl eq_refl) as [H _].
  pose proof (open_circuit_gate Examples.opened Examples.successful_operation
                ([], []) (Examples.at_time 5) 0%Q eq_refl eq_refl) as [_ H'].
  split.
  - apply H. vm_compute. reflexivity.
  - apply H'. vm_compute. discriminate.
Defined.

(** C2 (as stated) fails: the error of a rejected call is not of a class of
    its own. A rejected call, which does not invoke the operation, and a call
    whose operation itself raises [Exception("Circuit breaker is OPEN")]
    through a closed breaker end with the same error. *)
Lemma circuit_open_is_not_distinct :
  let rejected := call Examples.successful_operation ([], [])
                       (Examples.opened, Examples.at_time 0.5) in
  let failed := call Examples.raises_circuit_open ([], [])
                     (initial 3 1 Exception, Examples.start) in
  state Examples.opened = OPEN /\
  calls (emitted rejected) = [] /\
  calls (emitted failed) = [Raised circuit_open] /\
  result rejected = result failed /\
  exn_class circuit_open = Exception.
Proof. vm_compute. repeat split; reflexivity. Qed.

(** C5. In a reachable state, a call admitted as the trial request (the
    circuit is half-open, or open with the timeout elapsed, in which case the
    call first makes it half-open) whose operation raises an error of the
    expected class re-raises that error, counts it, sets [last_failure_time]
    to the clock read after the failure and reopens the circuit; any call made
    less than [timeout] after that time is rejected without invoking its
    operation. *)
Theorem half_open_failure_reopens {U : Type} (cb : CircuitBreaker) (func : pyfunc U)
    (args : arguments) (w w' : env U) (e : exn) :
  reachable (U:=U) cb ->
  trial_admitted cb (clock w) ->
  fbody func args w = (Raised e, w') ->
  isinstance e (expected_exception cb) = true ->
  let r := call func args (cb, w) in
  let cb' := (world r).1 in
  result r = Raised e /\
  (world r).2 = w' /\
  state cb' = OPEN /\
  last_failure_time cb' = Some (clock w') /\
  failure_count cb' = (failure_count cb + 1)%Z /\
  timeout cb' = timeout cb /\
  forall (func2 : pyfunc U) (args2 : arguments) (w2 : env U),
    (clock w2 - clock w' < timeout cb)%Q ->
    let r2 := call func2 args2 (cb', w2) in
    result r2 = Raised circuit_open /\
    calls (emitted r2) = [] /\
    world r2 = (cb', w2).
Proof.
  intros Hreach Hadm Hf He. cbv zeta.
  pose proof (reachable_tripped cb Hreach) as Hinv.
  assert (Hth : (failure_threshold cb <=? failure_count cb + 1)%Z = true).
  { apply Z.leb_le. unfold tripped in Hinv.
    assert (failure_threshold cb <= failure_count cb)%Z.
    { apply Hinv. destruct Hadm as [Hs|[Hs _]]; congruence. }
    lia. }
  assert (Hcall : exists cb_h evs,
    (cb_h = cb \/ cb_h = set_state HALF_OPEN cb) /\
    call func args (cb, w) = after_events evs (guarded func args (cb_h, w))).
  { destruct Hadm as [Hs|(Hs & t & Ht & Hle)].
    - exists cb, []. split; [left; reflexivity|]. unfold call, bind.
      rewrite gate_closed by congruence. reflexivity.
    - exists (set_state HALF_OPEN cb), [Log INFO "Circuit breaker entering HALF_OPEN state"].
      split; [right; reflexivity|]. unfold call, bind.
      rewrite (gate_admits cb w t Hs Ht Hle). reflexivity. }
  destruct Hcall as (cb_h & evs & Hcb & ->).
  rewrite result_after_events, world_after_events.
  assert (He' : isinstance e (expected_exception cb_h) = true)
    by (destruct Hcb as [->| ->]; exact He).
  destruct (guarded_failure func args cb_h w e w' Hf He') as [Hres Hw].
  cbv zeta in Hw.
  replace (failure_threshold cb_h <=? failure_count cb_h + 1)%Z with true in Hw
    by (destruct Hcb as [->| ->]; symmetry; exact Hth).
  rewrite Hres, Hw. cbn [fst snd].
  split; [reflexivity|]. split; [reflexivity|]. split; [reflexivity|].
  split; [reflexivity|].
  split; [destruct Hcb as [->| ->]; reflexivity|].
  split; [destruct Hcb as [->| ->]; reflexivity|].
  intros func2 args2 w2 Hlt.
  erewrite call_rejected; [repeat split | reflexivity | reflexivity |].
  destruct Hcb as [->| ->]; exact Hlt.
Qed.

(** The same transition for a circuit that was open: the call that finds the
    timeout elapsed is the trial request. *)
Lemma open_trial_failure_reopens {U : Type} (cb : CircuitBreaker) (func : pyfunc U)
    (args : arguments) (w w' : env U) (e : exn) (t : Q) :
  tripped cb ->
  state cb = OPEN ->
  last_failure_time cb = Some t ->
  (timeout cb <= clock w - t)%Q ->
  fbody func args w = (Raised e, w') ->
  isinstance e (expected_exception cb) = true ->
  emitted (call func args (cb, w))
    = [Log INFO "Circuit breaker entering HALF_OPEN state";
       Call (Raised e);
       Log WARNING "Circuit breaker registered failure";
       Log ERROR "Circuit breaker OPENED due to failures"] /\
  state (after (call func args) cb w) = OPEN.
Proof.
  intros Hinv Hs Ht Hle Hf He.
  assert (Hth : (failure_threshold cb <=? failure_count cb + 1)%Z = true).
  { apply Z.leb_le. unfold tripped in Hinv.
    assert (failure_threshold cb <= failure_count cb)%Z by (apply Hinv; congruence).
    lia. }
  unfold after, call, bind. rewrite (gate_admits cb w t Hs Ht Hle).
  unfold guarded, try_except, bind, self, lift, invoke. cbn.
  rewrite Hf. cbn. unfold matches. cbn. rewrite He. cbn. rewrite Hth. cbn.
  split; reflexivity.
Qed.

(** A reachable circuit that is not closed has a [last_failure_time]. *)
Lemma reachable_dated {U : Type} (cb : CircuitBreaker) :
  reachable (U:=U) cb -> state cb <> CLOSED -> is_Some (last_failure_time cb).
Proof.
  induction 1 as [ft to ex | cb func args w Hreach IH | cb w Hreach IH].
  - cbn. congruence.
  - unfold after, call.
    assert (Hgate : let g := gate (cb, w) in
              state (world g).1 <> CLOSED -> is_Some (last_failure_time (world g).1)).
    { unfold gate, bind, self, lift, time_time. cbn.
      destruct (state cb) eqn:Hs; cbn; rewrite ?Hs; auto.
      destruct (last_failure_time cb) as [t|] eqn:Ht; cbn; rewrite ?Hs, ?Ht; auto.
      destruct (Qlt_le_dec _ _); cbn; rewrite ?Hs, ?Ht; eauto. }
    cbv zeta in Hgate.
    destruct (gate (cb, w)) as [[[]|e] [cb1 w1] evs] eqn:E; cbn [world fst] in Hgate.
    + erewrite bind_returned by exact E. cbn [world].
      unfold guarded, try_except, bind, self, lift, invoke. cbn.
      destruct (fbody func args w1) as [[v|e] w2]; cbn.
      * destruct (state cb1) eqn:Hs; cbn; rewrite ?Hs; auto; congruence.
      * unfold matches. cbn.
        destruct (isinstance e (expected_exception cb1)); cbn; [|exact Hgate].
        destruct (failure_threshold cb1 <=? failure_count cb1 + 1)%Z; cbn; eauto.
    + erewrite bind_raised by exact E. exact Hgate.
  - cbn. congruence.
Qed.

Lemma half_open_reachable : reachable (U:=Z) Examples.half_open.
Proof.
  unfold Examples.half_open, Examples.opened. do 2 apply reach_call. apply reach_init.
Qed.

(** The breaker of the examples, half-open after a trial that raised an
    error of another class: a [ValueError] at time [6] reopens it, and a call
    at time [6.5] is rejected. *)
Lemma half_open_failure_reopens_witness :
  state Examples.half_open = HALF_OPEN /\
  let r := call Examples.always_fails ([], []) (Examples.half_open, Examples.at_time 6) in
  state (world r).1 = OPEN /\
  last_failure_time (world r).1 = Some 6%Q /\
  result (call Examples.successful_operation ([], [])
               ((world r).1, Examples.at_time 6.5)) = Raised circuit_open.
Proof.
  split; [reflexivity|].
  pose proof (half_open_failure_reopens Examples.half_open Examples.always_fails
                ([], []) (Examples.at_time 6) (Examples.bump (Examples.at_time 6))
                (Exn ValueError "Always fails" [])
                half_open_reachable (or_introl eq_refl) eq_refl eq_refl)
    as (_ & _ & Hst & Hlft & _ & _ & Hnext).
  cbv zeta. split; [exact Hst|]. split; [exact Hlft|].
  apply (Hnext Examples.successful_operation ([], []) (Examples.at_time 6.5)).
  vm_compute. reflexivity.
Defined.

(** The transition of C5 rests on the invariant: a breaker object whose
    fields were set by hand to [HALF_OPEN] with no counted failure stays
    half-open after a failed trial. *)
Lemma half_open_needs_invariant :
  state (after (call Examples.failing_operation ([], [])) Examples.forged Examples.start)
    = HALF_OPEN.
Proof. reflexivity. Qed.

End BreakerFacts.

(** ** [InMemoryCache] and [cached] *)

Module CacheFacts.
Import Py Eff Cache EffFacts.

Section Facts.
Context {U : Type}.
Variable _generate_key : arguments -> string.
Implicit Types (c : InMemoryCache) (w : env U) (func : pyfunc U) (args : arguments)
  (key : string) (v : pyval).

#[local] Abbreviation fingerprint := (Cache.fingerprint _generate_key).
#[local] Abbreviation wrapper := (Cache.wrapper _generate_key).

Lemma expired_true now (e : entry) : expired now e = true <-> (expires_at e < now)%Q.
Proof. unfold expired. destruct (Qlt_le_dec _ _); split; intros; try lra; congruence. Qed.

Lemma expired_false now (e : entry) : expired now e = false <-> (now <= expires_at e)%Q.
Proof. unfold expired. destruct (Qlt_le_dec _ _); split; intros; try lra; congruence. Qed.

(** *** [get] and [set] as equations *)

Lemma get_eq key c w :
  get key (c, w) =
    match _cache c !! key with
    | None => Run (Returned PyNone) (c, w) [Log DEBUG "Cache miss"]
    | Some e =>
        if expired (clock w) e
        then Run (Returned PyNone) (set__cache (base.delete key) c, w)
                 [Log DEBUG "Cache expired"]
        else Run (Returned (value e)) (c, w) [Log DEBUG "Cache hit"]
    end.
Proof.
  unfold get, bind, self, lift, time_time. cbn.
  destruct (_cache c !! key) as [e|]; cbn; [|reflexivity].
  destruct (expired (clock w) e); reflexivity.
Qed.

Lemma set_eq key v ttl' c w :
  set key v ttl' (c, w) =
    Run (Returned tt)
        (set__cache
           (insert key (Entry v (clock w + inject_Z (ttl_or ttl' (ttl c))) (clock w))) c,
         w)
        [Log DEBUG "Cache set"].
Proof. reflexivity. Qed.

(** *** The decorated function, case by case *)

Lemma wrapper_disabled ttl' func args (s : option InMemoryCache * env U) :
  wrapper ttl' false func args s =
    Run (fbody func args s.2).1 (s.1, (fbody func args s.2).2)
        [Call (fbody func args s.2).1].
Proof.
  unfold Cache.wrapper, lift, invoke. cbn. destruct (fbody func args s.2); reflexivity.
Qed.

Lemma wrapper_hit ttl' func args c w e :
  _cache c !! fingerprint func args = Some e ->
  (clock w <= expires_at e)%Q ->
  value e <> PyNone ->
  wrapper ttl' true func args (Some c, w) =
    Run (Returned (value e)) (Some c, w)
        [Log DEBUG "Cache hit";
         Log DEBUG ("Returning cached result for " +:+ fname func)].
Proof.
  intros Hl Hexp Hv. apply expired_false in Hexp.
  unfold Cache.wrapper, get_cache, get, bind, self, lift, time_time. cbn.
  rewrite Hl. cbn. rewrite Hexp. cbn.
  destruct (value e); cbn; try reflexivity. congruence.
Qed.

Lemma wrapper_miss_calls ttl' func args oc w :
  nothing_served oc (fingerprint func args) (clock w) ->
  calls (emitted (wrapper ttl' true func args (oc, w))) = [(fbody func args w).1].
Proof.
  intros Hn.
  unfold Cache.wrapper, get_cache, get, bind, self, lift, time_time, invoke. cbn.
  destruct oc as [c|]; cbn.
  - destruct (_cache c !! _) as [e|] eqn:Hl; cbn.
    + destruct (expired (clock w) e) eqn:Hexp; cbn.
      * destruct (fbody func args w) as [[v|ex] w']; reflexivity.
      * apply expired_false in Hexp. rewrite (Hn c e eq_refl Hl Hexp). cbn.
        destruct (fbody func args w) as [[v|ex] w']; reflexivity.
    + destruct (fbody func args w) as [[v|ex] w']; reflexivity.
  - rewrite lookup_empty. cbn.
    destruct (fbody func args w) as [[v|ex] w']; reflexivity.
Qed.

Lemma wrapper_miss_returned ttl' func args oc w v w' :
  nothing_served oc (fingerprint func args) (clock w) ->
  fbody func args w = (Returned v, w') ->
  let r := wrapper ttl' true func args (oc, w) in
  let c0 := after_read oc (fingerprint func args) (clock w) in
  result r = Returned v /\
  world r =
    (Some (set__cache
             (insert (fingerprint func args)
                (Entry v (clock w' + inject_Z (ttl_or ttl' (ttl c0))) (clock w')))
             c0),
     w').
Proof.
  intros Hn Hf.
  unfold Cache.wrapper, get_cache, get, set, bind, self, lift, time_time, invoke,
    after_read. cbn.
  destruct oc as [c|]; cbn.
  - destruct (_cache c !! _) as [e|] eqn:Hl; cbn.
    + destruct (expired (clock w) e) eqn:Hexp; cbn.
      * rewrite Hf. cbn. split; reflexivity.
      * apply expired_false in Hexp. rewrite (Hn c e eq_refl Hl Hexp). cbn.
        rewrite Hf. cbn. split; reflexivity.
    + rewrite Hf. cbn. split; reflexivity.
  - rewrite lookup_empty. cbn. rewrite Hf. cbn. split; reflexivity.
Qed.

Lemma wrapper_miss_raised ttl' func args oc w ex w' :
  nothing_served oc (fingerprint func args) (clock w) ->
  fbody func args w = (Raised ex, w') ->
  let r := wrapper ttl' true func args (oc, w) in
  result r = Raised ex /\
  world r = (Some (after_read oc (fingerprint func args) (clock w)), w').
Proof.
  intros Hn Hf.
  unfold Cache.wrapper, get_cache, get, set, bind, self, lift, time_time, invoke,
    after_read. cbn.
  destruct oc as [c|]; cbn.
  - destruct (_cache c !! _) as [e|] eqn:Hl; cbn.
    + destruct (expired (clock w) e) eqn:Hexp; cbn.
      * rewrite Hf. cbn. split; reflexivity.
      * apply expired_false in Hexp. rewrite (Hn c e eq_refl Hl Hexp). cbn.
        rewrite Hf. cbn. split; reflexivity.
    + rewrite Hf. cbn. split; reflexivity.
  - rewrite lookup_empty. cbn. rewrite Hf. cbn. split; reflexivity.
Qed.

(** A cache that holds nothing but [None] under the key serves nothing at
    any time. *)
Lemma none_is_nothing_served oc key now :
  holds_none oc key -> nothing_served oc key now.
Proof. intros H c e Hc He _. eapply H; eassumption. Qed.

End Facts.

(** C6. [get] returns the stored value of a live entry (present, with
    [now <= expires_at]) and leaves the cache as it is; it returns [None] for
    an absent key, and for an expired entry, which it removes from the map,
    the other keys being untouched; whatever it returns that is not [None] is
    the value of a live entry. [set] stores the value under the key with
    [expires_at = now + (ttl or default ttl)], replacing any prior entry and
    leaving the other keys untouched. *)
Theorem ttl_cache_get_set {U : Type} (c : InMemoryCache) (w : env U) (key : string) :
  let r := get key (c, w) in
  (forall e, _cache c !! key = Some e -> (clock w <= expires_at e)%Q ->
     result r = Returned (value e) /\ world r = (c, w)) /\
  (_cache c !! key = None ->
     result r = Returned PyNone /\ world r = (c, w)) /\
  (forall e, _cache c !! key = Some e -> (expires_at e < clock w)%Q ->
     result r = Returned PyNone /\
     _cache (world r).1 !! key = None /\
     (forall k, k <> key -> _cache (world r).1 !! k = _cache c !! k) /\
     ttl (world r).1 = ttl c /\
     (world r).2 = w) /\
  (forall v, result r = Returned v -> v <> PyNone ->
     exists e, _cache c !! key = Some e /\ (clock w <= expires_at e)%Q /\ value e = v) /\
  (forall v ttl',
     let r' := set key v ttl' (c, w) in
     result r' = Returned tt /\
     _cache (world r').1 !! key
       = Some (Entry v (clock w + inject_Z (ttl_or ttl' (ttl c))) (clock w)) /\
     (forall k, k <> key -> _cache (world r').1 !! k = _cache c !! k) /\
     ttl (world r').1 = ttl c /\
     (world r').2 = w).
Proof.
  cbv zeta. rewrite get_eq. repeat apply conj.
  - intros e He Hlive. apply expired_false in Hlive. rewrite He, Hlive.
    split; reflexivity.
  - intros ->. split; reflexivity.
  - intros e He Hexp. apply expired_true in Hexp. rewrite He, Hexp. cbn.
    rewrite lookup_delete_eq. repeat split.
    intros k Hk. apply lookup_delete_ne. congruence.
  - intros v Hr Hv. destruct (_cache c !! key) as [e|]; [|cbn in Hr; congruence].
    destruct (expired (clock w) e) eqn:Hexp; [cbn in Hr; congruence|].
    exists e. apply expired_false in Hexp. cbn in Hr. split; [reflexivity|].
    split; [assumption|congruence].
  - intros v ttl'. rewrite set_eq. cbn. rewrite lookup_insert_eq. repeat split.
    intros k Hk. apply lookup_insert_ne. congruence.
Qed.

(** The test [test_cache_basic_operations], with a clock that reads [0]:
    [set("key1", "value1")] on a cache with [ttl = 10], then [get("key1")]. *)
Lemma ttl_cache_get_set_witness :
  let stored := world (set "key1" (PyStr "value1") None (new 10, Examples.start)) in
  _cache stored.1 !! "key1" = Some (Entry (PyStr "value1") (0 + inject_Z 10) 0) /\
  result (get "key1" stored) = Returned (PyStr "value1") /\
  result (get "nonexistent" stored) = Returned PyNone.
Proof.
  cbv zeta.
  destruct (ttl_cache_get_set (new 10) Examples.start "key1")
    as (_ & _ & _ & _ & Hset).
  destruct (Hset (PyStr "value1") None) as (_ & Hstored & Hother & _ & Henv).
  split; [exact Hstored|].
  set (stored := world (set "key1" (PyStr "value1") None (new 10, Examples.start))) in *.
  destruct (ttl_cache_get_set stored.1 stored.2 "key1") as (Hhit & _).
  destruct (ttl_cache_get_set stored.1 stored.2 "nonexistent") as (_ & Hmiss & _).
  replace stored with (stored.1, stored.2) at 2 4 by (destruct stored; reflexivity).
  split.
  - refine (proj1 (Hhit _ Hstored _)). rewrite Henv. vm_compute. discriminate.
  - refine (proj1 (Hmiss _)). rewrite Hother by discriminate. reflexivity.
Defined.

(** C3 (as amended). With [enabled = false] the decorated function is the
    operation: it is invoked once and the cache is neither read nor written.
    With [enabled = true]: a live entry whose value is not [None] is returned
    without invoking the operation; when there is nothing to serve (no entry,
    an expired entry, or an entry that holds [None]) the operation is invoked
    once and, when it returns, its result is stored under the fingerprint and
    returned; so a later call with the same fingerprint, made before that
    entry expires, does not invoke the operation when the result was not
    [None]. *)
Theorem cached_wrapper_behaviour {U : Type} (_generate_key : arguments -> string)
    (ttl' : option Z) (func : pyfunc U) (args : arguments)
    (oc : option InMemoryCache) (w : env U) :
  let key := fingerprint _generate_key func args in
  let off := wrapper _generate_key ttl' false func args (oc, w) in
  let on := wrapper _generate_key ttl' true func args (oc, w) in
  (result off = (fbody func args w).1 /\
   world off = (oc, (fbody func args w).2) /\
   emitted off = [Call (fbody func args w).1]) /\
  (forall c e, oc = Some c -> _cache c !! key = Some e ->
     (clock w <= expires_at e)%Q -> value e <> PyNone ->
     result on = Returned (value e) /\ calls (emitted on) = [] /\ world on = (oc, w)) /\
  (nothing_served oc key (clock w) ->
     calls (emitted on) = [(fbody func args w).1] /\
     forall v w', fbody func args w = (Returned v, w') ->
       let expires := (clock w' + inject_Z (ttl_or ttl' (ttl (after_read oc key (clock w)))))%Q in
       result on = Returned v /\
       (world on).2 = w' /\
       exists c', (world on).1 = Some c' /\
         _cache c' !! key = Some (Entry v expires (clock w')) /\
         (v <> PyNone ->
          forall w2, (clock w2 <= expires)%Q ->
            let again := wrapper _generate_key ttl' true func args (Some c', w2) in
            result again = Returned v /\ calls (emitted again) = [])).
Proof.
  cbv zeta. repeat apply conj.
  - rewrite wrapper_disabled. reflexivity.
  - rewrite wrapper_disabled. reflexivity.
  - rewrite wrapper_disabled. reflexivity.
  - intros c e -> He Hlive Hv. rewrite (wrapper_hit _ _ _ _ _ _ _ He Hlive Hv).
    repeat split; reflexivity.
  - intros Hn. split; [apply wrapper_miss_calls; assumption|].
    intros v w' Hf.
    destruct (wrapper_miss_returned _generate_key ttl' func args oc w v w' Hn Hf)
      as [Hres Hw].
    cbv zeta in Hw. rewrite Hres, Hw. cbn [fst snd].
    split; [reflexivity|]. split; [reflexivity|].
    eexists. split; [reflexivity|]. cbn [_cache set__cache].
    rewrite lookup_insert_eq. split; [reflexivity|].
    intros Hv w2 Hw2.
    erewrite wrapper_hit; [| cbn [_cache set__cache]; apply lookup_insert_eq | |].
    + split; reflexivity.
    + exact Hw2.
    + exact Hv.
Qed.

(** The test [test_cached_decorator], with a clock that reads [0]: the first
    call of [expensive_function(5)] invokes it and returns [10]; the second
    call returns [10] without invoking it. *)
Lemma cached_wrapper_behaviour_witness :
  let first := wrapper Examples.key_of (Some 10%Z) true Examples.expensive_function
                       ([PyInt 5], []) (None, Examples.start) in
  let second := wrapper Examples.key_of (Some 10%Z) true Examples.expensive_function
                        ([PyInt 5], []) ((world first).1, Examples.start) in
  calls (emitted first) = [Returned (PyInt 10)] /\
  result second = Returned (PyInt 10) /\
  calls (emitted second) = [].
Proof.
  cbv zeta.
  destruct (cached_wrapper_behaviour Examples.key_of (Some 10%Z)
              Examples.expensive_function ([PyInt 5], []) None Examples.start)
    as (_ & _ & Hmiss).
  destruct Hmiss as [Hcalls Hret]; [intros c e Hc; discriminate|].
  split; [exact Hcalls|].
  destruct (Hret (PyInt 10) (Examples.bump Examples.start) eq_refl)
    as (_ & _ & c' & Hc' & _ & Hagain).
  rewrite Hc'. apply Hagain; [discriminate|]. vm_compute. discriminate.
Defined.

(** C3 (as stated) fails: an operation that returns [None] is invoked by
    both of two calls with the same fingerprint made at the same instant,
    although the first call stored an entry that has not expired. *)
Lemma cached_none_invoked_twice :
  let first := wrapper Examples.key_of (Some 10%Z) true Examples.returns_none
                       ([], []) (None, Examples.start) in
  let second := wrapper Examples.key_of (Some 10%Z) true Examples.returns_none
                        ([], []) ((world first).1, Examples.start) in
  calls (emitted first) = [Returned PyNone] /\
  (exists c, (world first).1 = Some c /\
     _cache c !! fingerprint Examples.key_of Examples.returns_none ([], [])
       = Some (Entry PyNone 10 0)) /\
  calls (emitted second) = [Returned PyNone].
Proof.
  cbv zeta. split; [reflexivity|]. split; [|reflexivity].
  eexists. split; [reflexivity|]. reflexivity.
Qed.

(** C9. When the operation returns [None] and the cache holds no value
    other than [None] under the fingerprint, the enabled decorated function
    invokes the operation, returns [None] and stores [None] under the
    fingerprint; [get] returns [None] for that entry as it does for a missing
    key, so the next call invokes the operation again: [n] calls in a row
    make [n] invocations. *)
Theorem cached_none_is_never_served {U : Type} (_generate_key : arguments -> string)
    (ttl' : option Z) (func : pyfunc U) (args : arguments) :
  (forall w, exists w', fbody func args w = (Returned PyNone, w')) ->
  let key := fingerprint _generate_key func args in
  (forall oc w, holds_none oc key ->
     let r := wrapper _generate_key ttl' true func args (oc, w) in
     calls (emitted r) = [Returned PyNone] /\
     result r = Returned PyNone /\
     holds_none (world r).1 key /\
     exists c' e, (world r).1 = Some c' /\ _cache c' !! key = Some e /\
                  value e = PyNone) /\
  (forall c (w : env U),
     (_cache c !! key = None \/
      exists e, _cache c !! key = Some e /\ value e = PyNone) ->
     result (get key (c, w)) = Returned PyNone) /\
  (forall (n : nat) oc w, holds_none oc key ->
     calls (emitted (repeatedly n (wrapper _generate_key ttl' true func args) (oc, w)))
       = replicate n (Returned PyNone)).
Proof.
  intros Hnone. cbv zeta.
  assert (Hone : forall oc w,
    holds_none oc (fingerprint _generate_key func args) ->
    let r := wrapper _generate_key ttl' true func args (oc, w) in
    calls (emitted r) = [Returned PyNone] /\
    result r = Returned PyNone /\
    holds_none (world r).1 (fingerprint _generate_key func args) /\
    exists c' e, (world r).1 = Some c' /\
      _cache c' !! fingerprint _generate_key func args = Some e /\ value e = PyNone).
  { intros oc w Hoc. cbv zeta.
    pose proof (none_is_nothing_served oc _ (clock w) Hoc) as Hn.
    destruct (Hnone w) as [w' Hf].
    pose proof (wrapper_miss_calls _generate_key ttl' func args oc w Hn) as Hcalls.
    rewrite Hf in Hcalls.
    destruct (wrapper_miss_returned _generate_key ttl' func args oc w PyNone w' Hn Hf)
      as [Hres Hw].
    cbv zeta in Hw. rewrite Hcalls, Hres, Hw. cbn [fst].
    split; [reflexivity|]. split; [reflexivity|]. split.
    - intros c e Hc He. injection Hc as <-. cbn [_cache set__cache] in He.
      rewrite lookup_insert_eq in He. injection He as <-. reflexivity.
    - eexists _, _. split; [reflexivity|]. cbn [_cache set__cache].
      rewrite lookup_insert_eq. split; reflexivity. }
  repeat apply conj.
  - exact Hone.
  - intros c w H. rewrite get_eq. destruct H as [->|(e & -> & He)]; [reflexivity|].
    destruct (expired (clock w) e); [reflexivity|]. cbn. congruence.
  - induction n as [|n IH]; intros oc w Hoc; [reflexivity|].
    destruct (Hone oc w Hoc) as (Hcalls & Hres & Hinv & _). cbv zeta in *.
    cbn [repeatedly replicate].
    erewrite bind_returned.
    2:{ rewrite (run_eta (wrapper _generate_key ttl' true func args (oc, w))).
        rewrite Hres. reflexivity. }
    cbn [emitted]. rewrite calls_app, Hcalls.
    destruct (world (wrapper _generate_key ttl' true func args (oc, w))) as [oc1 w1].
    rewrite (IH oc1 w1 Hinv). reflexivity.
Qed.

(** An operation that returns [None], called three times in a row through
    the decorator on a fresh process. *)
Lemma cached_none_is_never_served_witness :
  calls (emitted (repeatedly 3
           (wrapper Examples.key_of (Some 10%Z) true Examples.returns_none ([], []))
           (None, Examples.start)))
    = [Returned PyNone; Returned PyNone; Returned PyNone].
Proof.
  refine (proj2 (proj2 (cached_none_is_never_served Examples.key_of (Some 10%Z)
                          Examples.returns_none ([], []) _)) 3 None Examples.start _).
  - intros w. eexists. reflexivity.
  - intros c e Hc. discriminate.
Defined.

End CacheFacts.

(** ** [MetricsCollector] *)

Module MetricsFacts.
Import Py Eff Metrics EffFacts.

Section Facts.
Context {U : Type}.
Variable utcnow_isoformat : env U -> string.
Implicit Types (c : MetricsCollector) (w : env U) (name : string).

(** *** [record_node_execution] as an equation *)

Lemma with_entry_id c name n :
  m_nodes c !! name = Some n -> with_entry c name n = c.
Proof.
  intros Hn. destruct c. unfold with_entry, set_nodes. cbn in *.
  rewrite insert_id by assumption. reflexivity.
Qed.

Lemma on_node_with_entry name f c n w :
  on_node name f (with_entry c name n, w) =
    Run (Returned tt) (with_entry c name (f n), w) [].
Proof.
  unfold on_node, update, with_entry, set_nodes. cbn.
  rewrite alter_insert_eq. reflexivity.
Qed.

Lemma ensure_entry name c w :
  match m_nodes c !! name with
  | None => update (set_nodes (insert name new_node))
  | Some _ => ret tt
  end (c, w)
  = Run (Returned tt) (with_entry c name (entry_of c name), w) [].
Proof.
  unfold entry_of. cbn.
  destruct (m_nodes c !! name) as [n|] eqn:Hn; cbn.
  - rewrite with_entry_id by assumption. reflexivity.
  - reflexivity.
Qed.

Lemma record_node_execution_eq name duration ok c w :
  let n0 := entry_of c name in
  record_node_execution name duration ok (c, w) =
    if (count n0 + 1 =? 0)%Z then
      Run (Raised float_division_by_zero)
          (with_entry c name (counted n0 duration ok), w) []
    else
      Run (Returned tt) (with_entry c name (recorded n0 duration ok), w) [].
Proof.
  cbv zeta. unfold record_node_execution.
  rewrite (bind_quiet self _ (c, w) c (c, w)) by reflexivity.
  erewrite bind_quiet by apply ensure_entry.
  erewrite bind_quiet by apply on_node_with_entry.
  destruct ok.
  all: erewrite bind_quiet by apply on_node_with_entry.
  all: erewrite bind_quiet by apply on_node_with_entry.
  all: erewrite bind_quiet by reflexivity.
  all: unfold with_entry at 1, set_nodes at 1; cbn [m_nodes fst].
  all: rewrite lookup_insert_eq; cbn [count].
  all: destruct (count (entry_of c name) + 1 =? 0)%Z; [reflexivity|].
  all: erewrite bind_quiet by apply on_node_with_entry.
  all: erewrite bind_quiet by apply on_node_with_entry.
  all: rewrite on_node_with_entry; reflexivity.
Qed.

Lemma record_node_execution_env name duration ok c w :
  (world (record_node_execution name duration ok (c, w))).2 = w.
Proof.
  rewrite record_node_execution_eq. cbv zeta.
  destruct (_ =? _)%Z; reflexivity.
Qed.

(** The entry of [name] after the call, and the other entries. *)
Lemma record_node_execution_lookup name duration ok c w :
  let c' := after (record_node_execution name duration ok) c w in
  let n0 := entry_of c name in
  m_nodes c' !! name
    = Some (if (count n0 + 1 =? 0)%Z then counted n0 duration ok
            else recorded n0 duration ok) /\
  (forall k, k <> name -> m_nodes c' !! k = m_nodes c !! k) /\
  m_requests c' = m_requests c.
Proof.
  cbv zeta. unfold after. rewrite record_node_execution_eq. cbv zeta.
  destruct (_ =? _)%Z; cbn; rewrite lookup_insert_eq;
    (repeat split; auto; intros k Hk; rewrite lookup_insert_ne by congruence; reflexivity).
Qed.


Lemma consistent_empty start : consistent (empty_metrics start).
Proof.
  split; [reflexivity|]. intros name n Hn. cbn in Hn.
  rewrite lookup_empty in Hn. discriminate.
Qed.

Lemma increment_request_consistent ok c w :
  consistent c -> consistent (after (increment_request ok) c w).
Proof.
  intros [Hr Hn]. unfold after, increment_request, bind, update. cbn.
  destruct ok; cbn; (split; [unfold requests_consistent in *; cbn; lia | exact Hn]).
Qed.

Lemma record_node_execution_consistent name duration ok c w :
  consistent c -> consistent (after (record_node_execution name duration ok) c w).
Proof.
  intros [Hr Hn].
  destruct (record_node_execution_lookup name duration ok c w) as (Hl & Hother & Hreq).
  split.
  - unfold requests_consistent. rewrite Hreq. exact Hr.
  - intros k n Hk. destruct (decide (k = name)) as [->|Hne].
    + rewrite Hl in Hk. injection Hk as <-.
      assert (H0 : count (entry_of c name)
                   = (success (entry_of c name) + failure (entry_of c name))%Z).
      { unfold entry_of. destruct (m_nodes c !! name) as [n0|] eqn:E; cbn.
        - eapply Hn; eassumption.
        - reflexivity. }
      destruct (_ =? _)%Z; destruct ok; cbn; lia.
    + rewrite Hother in Hk by assumption. eapply Hn; eassumption.
Qed.

Lemma record_latency_unchanged operation duration c w :
  let c' := after (record_latency operation duration) c w in
  m_requests c' = m_requests c /\ m_nodes c' = m_nodes c.
Proof.
  unfold after, record_latency, on_latency, bind, self, update. cbn.
  destruct (m_latency c !! operation) as [l|] eqn:E; cbn.
  - rewrite !lookup_alter_eq, E. cbn.
    destruct (lat_count l + 1 =? 0)%Z; cbn; split; reflexivity.
  - rewrite !lookup_alter_eq, lookup_insert_eq. cbn. split; reflexivity.
Qed.

Lemma record_error_unchanged error_type c w :
  let c' := after (record_error error_type) c w in
  m_requests c' = m_requests c /\ m_nodes c' = m_nodes c.
Proof.
  unfold after, record_error, bind, self, update. cbn.
  destruct (m_errors c !! error_type); cbn; split; reflexivity.
Qed.

Lemma record_cache_hit_unchanged hit c w :
  let c' := after (record_cache_hit hit) c w in
  m_requests c' = m_requests c /\ m_nodes c' = m_nodes c.
Proof. destruct hit; split; reflexivity. Qed.

Lemma get_metrics_unchanged c w :
  world (get_metrics utcnow_isoformat (c, w)) = (c, w).
Proof. reflexivity. Qed.

Lemma unchanged_consistent c c' :
  m_requests c' = m_requests c /\ m_nodes c' = m_nodes c ->
  consistent c -> consistent c'.
Proof.
  intros [Hr Hn] [H1 H2]. split.
  - unfold requests_consistent. rewrite Hr. exact H1.
  - unfold nodes_consistent. rewrite Hn. exact H2.
Qed.

Lemma perform_consistent op c w :
  consistent c -> consistent (after (perform utcnow_isoformat op) c w).
Proof.
  intros Hc. destruct op; cbn [perform].
  - apply increment_request_consistent, Hc.
  - apply record_node_execution_consistent, Hc.
  - eapply unchanged_consistent; [apply record_latency_unchanged | exact Hc].
  - eapply unchanged_consistent; [apply record_error_unchanged | exact Hc].
  - eapply unchanged_consistent; [apply record_cache_hit_unchanged | exact Hc].
  - exact Hc.
  - apply consistent_empty.
Qed.


Lemma recorded_all_cons n d ok rest :
  recorded_all n ((d, ok) :: rest) = recorded_all (recorded n d ok) rest.
Proof. reflexivity. Qed.

Lemma recorded_all_count samples : forall n,
  count (recorded_all n samples) = (count n + Z.of_nat (length samples))%Z.
Proof.
  induction samples as [|[d ok] rest IH]; intros n; cbn.
  - lia.
  - unfold recorded_all in IH. rewrite IH. cbn. lia.
Qed.

Lemma record_all_lookup samples : forall name c w,
  (0 <= count (entry_of c name))%Z ->
  let r := record_all name samples (c, w) in
  result r = Returned tt /\
  (world r).2 = w /\
  (samples <> [] ->
   m_nodes (world r).1 !! name = Some (recorded_all (entry_of c name) samples)).
Proof.
  induction samples as [|[d ok] rest IH]; intros name c w Hc; cbv zeta.
  - cbn. repeat split. congruence.
  - cbn [record_all].
    pose proof (record_node_execution_eq name d ok c w) as Heq. cbv zeta in Heq.
    destruct (count (entry_of c name) + 1 =? 0)%Z eqn:E; [lia|].
    erewrite bind_quiet by exact Heq.
    set (c1 := with_entry c name (recorded (entry_of c name) d ok)).
    assert (H1 : entry_of c1 name = recorded (entry_of c name) d ok).
    { unfold entry_of at 1, c1, with_entry, set_nodes. cbn.
      rewrite lookup_insert_eq. reflexivity. }
    destruct (IH name c1 w) as (Hr & Hw & Hl).
    { rewrite H1. cbn. lia. }
    repeat split; auto. intros _.
    destruct rest as [|s rest].
    + cbn. unfold c1, with_entry, set_nodes. cbn. rewrite lookup_insert_eq. reflexivity.
    + rewrite Hl by congruence. rewrite H1. reflexivity.
Qed.

Lemma recorded_all_split samples : forall n,
  success (recorded_all n samples) = (success n + successes samples)%Z /\
  failure (recorded_all n samples)
    = (failure n + (Z.of_nat (length samples) - successes samples))%Z /\
  (total_duration (recorded_all n samples) == total_duration n + Qsum samples.*1)%Q.
Proof.
  unfold successes.
  induction samples as [|[d ok] rest IH]; intros n.
  - cbn. repeat split; try lia. ring.
  - rewrite recorded_all_cons.
    destruct (IH (recorded n d ok)) as (Hs & Hf & Ht).
    rewrite Hs, Hf, Ht. rewrite filter_cons. cbn [fmap list_fmap fst snd Qsum foldr].
    destruct ok; cbn [recorded success failure total_duration snd].
    + rewrite decide_True by reflexivity. cbn [length]. repeat split; try lia.
      unfold Qsum. ring.
    + rewrite decide_False by discriminate. cbn [length]. repeat split; try lia.
      unfold Qsum. ring.
Qed.

Lemma recorded_all_snoc n samples d ok :
  recorded_all n (samples ++ [(d, ok)]) = recorded (recorded_all n samples) d ok.
Proof. unfold recorded_all. rewrite foldl_snoc. reflexivity. Qed.

Lemma py_min_snoc m ds d : min_of m ds -> min_of (py_min m d) (ds ++ [d]).
Proof.
  destruct m as [x|]; cbn.
  - intros [Hin Hle]. destruct (Qlt_le_dec d x) as [Hlt|Hge]; split.
    + apply in_app_iff. right. left. reflexivity.
    + intros y [Hy|[<-|[]]]%in_app_iff; [|lra]. specialize (Hle y Hy). lra.
    + apply in_app_iff. left. assumption.
    + intros y [Hy|[<-|[]]]%in_app_iff; [|lra]. apply Hle, Hy.
  - intros ->. split; [left; reflexivity|].
    intros y [<-|[]]. lra.
Qed.

Lemma py_max_snoc x ds d :
  (0 <= d)%Q -> max_of x ds -> max_of (py_max x d) (ds ++ [d]).
Proof.
  intros Hd [Hnil Hmax]. split.
  { intros H. destruct ds; discriminate. }
  intros _. unfold py_max. destruct ds as [|d0 ds'].
  - rewrite (Hnil eq_refl). cbn. destruct (Qlt_le_dec 0 d) as [Hlt|Hge]; split.
    + exists d. split; [left; reflexivity | reflexivity].
    + intros y [<-|[]]. lra.
    + exists d. split; [left; reflexivity | lra].
    + intros y [<-|[]]. lra.
  - destruct Hmax as [(y & Hy & Hxy) Hle]; [discriminate|].
    destruct (Qlt_le_dec x d) as [Hlt|Hge]; split.
    + exists d. split; [apply in_app_iff; right; left; reflexivity | reflexivity].
    + intros z [Hz|[<-|[]]]%in_app_iff; [|lra]. specialize (Hle z Hz). lra.
    + exists y. split; [apply in_app_iff; left; assumption | assumption].
    + intros z [Hz|[<-|[]]]%in_app_iff; [|lra]. apply Hle, Hz.
Qed.

Lemma recorded_all_extrema samples :
  Forall (fun s => 0 <= s.1)%Q samples ->
  min_of (min_duration (recorded_all new_node samples)) samples.*1 /\
  max_of (max_duration (recorded_all new_node samples)) samples.*1.
Proof.
  induction samples as [|[d ok] rest IH] using rev_ind; intros Hpos.
  - cbn. split; [reflexivity|]. split; congruence.
  - apply Forall_app in Hpos as [Hrest Hd]. inversion Hd as [|? ? Hd0 _]; subst.
    destruct (IH Hrest) as [Hmin Hmax].
    rewrite recorded_all_snoc, fmap_app. cbn [fmap list_fmap fst recorded min_duration max_duration].
    split; [apply py_min_snoc, Hmin | apply py_max_snoc; assumption].
Qed.

Lemma recorded_all_avg n samples :
  samples <> [] ->
  avg_duration (recorded_all n samples)
  = (total_duration (recorded_all n samples)
     / inject_Z (count (recorded_all n samples)))%Q.
Proof.
  destruct samples as [|s rest] using rev_ind; [congruence|]. intros _.
  destruct s as [d ok]. rewrite recorded_all_snoc. reflexivity.
Qed.


End Facts.

(** C8. Starting from a collector that has no entry for the node, [k >= 1]
    calls of [record_node_execution] with non-negative durations all return
    and leave an entry with: [count = k]; [total_duration] the sum of the
    durations; [avg_duration = total_duration / k]; [min_duration] and
    [max_duration] the least and the greatest of the durations; [success] the
    number of calls with a true flag; [failure = k - success]. *)
Theorem node_statistics {U : Type} (name : string) (samples : list (Q * bool))
    (c : MetricsCollector) (w : env U) :
  m_nodes c !! name = None ->
  samples <> [] ->
  Forall (fun s => 0 <= s.1)%Q samples ->
  let r := record_all name samples (c, w) in
  let k := Z.of_nat (length samples) in
  let ds := samples.*1 in
  result r = Returned tt /\
  exists n mn,
    m_nodes (world r).1 !! name = Some n /\
    count n = k /\
    (total_duration n == Qsum ds)%Q /\
    (avg_duration n == Qsum ds / inject_Z k)%Q /\
    min_duration n = Finite mn /\
    is_minimum mn ds /\
    is_maximum (max_duration n) ds /\
    success n = successes samples /\
    failure n = (k - successes samples)%Z.
Proof.
  intros Hfresh Hne Hpos. cbv zeta.
  assert (H0 : entry_of c name = new_node) by (unfold entry_of; rewrite Hfresh; reflexivity).
  destruct (record_all_lookup samples name c w) as (Hres & _ & Hl).
  { rewrite H0. cbn. lia. }
  split; [exact Hres|].
  specialize (Hl Hne). rewrite H0 in Hl.
  destruct (recorded_all_split samples new_node) as (Hs & Hf & Ht).
  destruct (recorded_all_extrema samples Hpos) as [Hmin Hmax].
  pose proof (recorded_all_count samples new_node) as Hc.
  pose proof (recorded_all_avg new_node samples Hne) as Ha.
  assert (Hds : samples.*1 <> []) by (destruct samples; [congruence | discriminate]).
  destruct (min_duration (recorded_all new_node samples)) as [mn|] eqn:Emin;
    [|cbn in Hmin; congruence].
  exists (recorded_all new_node samples), mn.
  cbn in Hc, Hs, Hf, Ht.
  split; [exact Hl|]. split; [lia|].
  assert (Ht' : (total_duration (recorded_all new_node samples) == Qsum samples.*1)%Q).
  { rewrite Ht. ring. }
  split; [exact Ht'|]. split.
  { rewrite Ha, Hc, Ht'. cbn. reflexivity. }
  split; [exact Emin|]. split; [exact Hmin|]. split.
  { apply Hmax. exact Hds. }
  split; lia.
Qed.

(** The test [test_metrics_node_execution]: durations [1.5], [2.0], [1.0],
    the last one failed. *)
Lemma node_statistics_witness :
  let r := record_all (U:=Z) "test_node" Examples.test_node
                      (empty_metrics 0, Examples.start) in
  result r = Returned tt /\
  exists n mn,
    m_nodes (world r).1 !! "test_node" = Some n /\
    count n = 3%Z /\
    (total_duration n == Qsum [1.5; 2.0; 1.0])%Q /\
    (avg_duration n == Qsum [1.5; 2.0; 1.0] / inject_Z 3)%Q /\
    min_duration n = Finite mn /\
    is_minimum mn [1.5; 2.0; 1.0]%Q /\
    is_maximum (max_duration n) [1.5; 2.0; 1.0]%Q /\
    success n = 2%Z /\
    failure n = (3 - 2)%Z.
Proof.
  apply (node_statistics (U:=Z) "test_node" Examples.test_node
           (empty_metrics 0) Examples.start).
  - reflexivity.
  - discriminate.
  - unfold Examples.test_node. repeat constructor; cbn; lra.
Defined.

(** The figures of that test. *)
Lemma test_metrics_node_execution :
  let n := entry_of (after (record_all (U:=Z) "test_node" Examples.test_node)
                           (empty_metrics 0) Examples.start) "test_node" in
  count n = 3%Z /\ success n = 2%Z /\ failure n = 1%Z /\
  (avg_duration n == 1.5)%Q /\
  min_duration n = Finite 1.0 /\
  max_duration n = 2.0%Q.
Proof. vm_compute. repeat split; reflexivity. Qed.

(** C10. Every method of the collector takes a state in which
    [requests.total = requests.success + requests.failure] and, for every
    node, [count = success + failure], to a state in which both hold again
    (also when the method raises); [reset] leaves the request counters at
    zero and no node. *)
Theorem counters_stay_consistent {U : Type} (utcnow_isoformat : env U -> string)
    (op : method) (c : MetricsCollector) (w : env U) :
  consistent c ->
  consistent (after (perform utcnow_isoformat op) c w) /\
  m_requests (after reset c w) = Requests 0 0 0 /\
  m_nodes (after reset c w) = ∅.
Proof.
  intros Hc. split; [apply perform_consistent; exact Hc|]. split; reflexivity.
Qed.

(** A fresh collector, then one failed node execution. *)
Lemma counters_stay_consistent_witness :
  consistent (empty_metrics 0) /\
  consistent (after (perform Examples.isoformat (RecordNodeExecution "test_node" 1.5 false))
                    (empty_metrics 0) Examples.start).
Proof.
  split; [apply consistent_empty|].
  apply (counters_stay_consistent Examples.isoformat
           (RecordNodeExecution "test_node" 1.5 false) (empty_metrics 0) Examples.start).
  apply consistent_empty.
Defined.

End MetricsFacts.

(** ** More on [retry_with_backoff] *)

Module RetryRuns.
Import Py Eff Retry EffFacts RetryFacts Traces.

Section Facts.
Context {U : Type}.
Variable dict_repr : details -> string.
Variables (cfg : config U) (func : pyfunc U) (args : arguments).

#[local] Abbreviation loop := (Retry.loop dict_repr cfg func args).
#[local] Abbreviation ending := (Traces.ending dict_repr cfg func args).

Lemma hook_calls_app evs evs' :
  hook_calls (evs ++ evs') = hook_calls evs ++ hook_calls evs'.
Proof. unfold hook_calls. apply omap_app. Qed.

Lemma loop_ending attempt rest delay last_exception w :
  ending attempt rest delay (loop (attempt :: rest) delay last_exception w).
Proof.
  cbn. unfold iteration, try_except, bind, invoke. cbn.
  destruct (fbody func args w) as [[v|e] w1] eqn:Hf; cbn.
  - destruct (0 <? attempt)%Z; cbn; eapply ends_returned; reflexivity.
  - destruct (matches e (exceptions cfg)) eqn:Hm; cbn.
    2:{ eapply ends_raised with (l := []); try reflexivity; auto. }
    destruct (attempt =? max_retries cfg)%Z eqn:Ha; cbn.
    { eapply ends_raised; try reflexivity; auto. congruence. }
    apply Z.eqb_neq in Ha.
    destruct (on_retry cfg) as [h|] eqn:Hh; cbn.
    + unfold call_hook. destruct (h attempt e w1) as [[[]|e'] w2]; cbn.
      * unfold time_sleep. destruct (Qlt_le_dec delay 0); cbn.
        -- eapply ends_raised; try reflexivity; [|congruence].
           right. rewrite Hh. split; [eauto|reflexivity].
        -- eapply ends_retried with (l := [_; _]); try reflexivity; auto.
           rewrite Hh. reflexivity.
      * eapply ends_raised; try reflexivity; [|congruence].
        right. rewrite Hh. split; [eauto|reflexivity].
    + unfold time_sleep. destruct (Qlt_le_dec delay 0); cbn.
      * eapply ends_raised; try reflexivity; auto. congruence.
      * eapply ends_retried with (l := [_]); try reflexivity; auto.
        rewrite Hh. reflexivity.
Qed.

(** The events of an iteration that went on. *)
Lemma retried_calls e l delay (r' : run (env U) pyval) :
  calls l = [] ->
  calls (emitted (after_events (Call (Raised e) :: l ++ [Sleep delay]) r'))
    = Raised e :: calls (emitted r').
Proof.
  intros Hl. rewrite emitted_after_events.
  change (Call (Raised e) :: l ++ [Sleep delay]) with ([Call (Raised e)] ++ l ++ [Sleep delay]).
  rewrite !calls_app, Hl. reflexivity.
Qed.

Lemma retried_sleeps e l delay (r' : run (env U) pyval) :
  sleeps l = [] ->
  sleeps (emitted (after_events (Call (Raised e) :: l ++ [Sleep delay]) r'))
    = delay :: sleeps (emitted r').
Proof.
  intros Hl. rewrite emitted_after_events.
  change (Call (Raised e) :: l ++ [Sleep delay]) with ([Call (Raised e)] ++ l ++ [Sleep delay]).
  rewrite !sleeps_app, Hl. reflexivity.
Qed.

Lemma retried_hook_calls e l delay (r' : run (env U) pyval) :
  hook_calls (emitted (after_events (Call (Raised e) :: l ++ [Sleep delay]) r'))
    = hook_calls l ++ hook_calls (emitted r').
Proof.
  rewrite emitted_after_events.
  change (Call (Raised e) :: l ++ [Sleep delay]) with ([Call (Raised e)] ++ l ++ [Sleep delay]).
  rewrite !hook_calls_app.
  change (hook_calls [Call (Raised e)]) with (@nil (Z * exn)).
  change (hook_calls [Sleep delay]) with (@nil (Z * exn)).
  cbn [app]. rewrite app_nil_r. reflexivity.
Qed.

Lemma loop_calls_bounded attempts : forall delay last_exception w,
  length (calls (emitted (loop attempts delay last_exception w))) <= length attempts.
Proof.
  induction attempts as [|attempt rest IH]; intros delay last_exception w.
  - reflexivity.
  - destruct (loop_ending attempt rest delay last_exception w)
      as [v w1 l -> Hc _ _ | e x w1 l -> Hc _ _ _ | e w2 l _ _ -> Hc _ _].
    + cbn [emitted]. rewrite calls_call, Hc. cbn. lia.
    + cbn [emitted]. rewrite calls_call, Hc. cbn. lia.
    + rewrite retried_calls by assumption. cbn [length].
      specialize (IH (delay * backoff_factor cfg)%Q (Some e) w2). lia.
Qed.

Lemma loop_returned_shape attempts : forall delay last_exception w v,
  result (loop attempts delay last_exception w) = Returned v ->
  exists es,
    calls (emitted (loop attempts delay last_exception w))
      = (Raised <$> es) ++ [Returned v] /\
    Forall (fun e => matches e (exceptions cfg) = true) es /\
    length (sleeps (emitted (loop attempts delay last_exception w))) = length es /\
    length es < length attempts.
Proof.
  induction attempts as [|attempt rest IH]; intros delay last_exception w v Hres.
  - discriminate.
  - destruct (loop_ending attempt rest delay last_exception w)
      as [v' w1 l Hr Hc Hs _ | e x w1 l Hr _ _ _ _ | e w2 l Hm _ Hr Hc Hs _];
      rewrite Hr in Hres |- *.
    + cbn in Hres. injection Hres as ->. exists []. cbn [emitted].
      rewrite calls_call, sleeps_call, Hc, Hs. cbn. repeat split; auto. lia.
    + discriminate.
    + rewrite result_after_events in Hres.
      destruct (IH _ _ _ _ Hres) as (es & Hcalls & Hall & Hsl & Hlen).
      exists (e :: es). rewrite retried_calls, retried_sleeps by assumption.
      rewrite Hcalls. cbn [length]. rewrite Hsl.
      repeat split; auto. lia.
Qed.

Lemma loop_no_hook attempts : forall delay last_exception w,
  on_retry cfg = None ->
  hook_calls (emitted (loop attempts delay last_exception w)) = [].
Proof.
  induction attempts as [|attempt rest IH]; intros delay last_exception w Hnone.
  - reflexivity.
  - destruct (loop_ending attempt rest delay last_exception w)
      as [v w1 l -> _ _ Hh | e0 x w1 l -> _ _ Hh _ | e0 w2 l _ _ -> _ _ Hh].
    + exact Hh.
    + destruct Hh as [Hh|[[h Hh'] _]]; [exact Hh | congruence].
    + rewrite retried_hook_calls, Hh, Hnone, IH by assumption. reflexivity.
Qed.

Lemma loop_hook_calls n : forall (k : nat) delay last_exception w (i : nat) a e,
  hook_calls (emitted (loop (Z.of_nat <$> seq k n) delay last_exception w)) !! i
    = Some (a, e) ->
  a = Z.of_nat (k + i) /\
  calls (emitted (loop (Z.of_nat <$> seq k n) delay last_exception w)) !! i
    = Some (Raised e).
Proof.
  induction n as [|n IH]; intros k delay last_exception w i a e Hi.
  - discriminate.
  - cbn [seq fmap list_fmap] in *.
    destruct (loop_ending (Z.of_nat k) (Z.of_nat <$> seq (S k) n) delay last_exception w)
      as [v w1 l Hr Hc _ Hh | e0 x w1 l Hr Hc _ Hh _ | e0 w2 l _ _ Hr Hc _ Hh];
      rewrite Hr in Hi |- *.
    + change (hook_calls l !! i = Some (a, e)) in Hi.
      rewrite Hh in Hi. discriminate.
    + change (hook_calls l !! i = Some (a, e)) in Hi.
      cbn [emitted]. rewrite calls_call, Hc.
      destruct Hh as [Hh|[_ Hh]]; rewrite Hh in Hi; [discriminate|].
      destruct i as [|i]; [|discriminate]. injection Hi as <- <-.
      split; [f_equal; lia | reflexivity].
    + rewrite retried_hook_calls in Hi. rewrite retried_calls by assumption.
      destruct (on_retry cfg) as [h|] eqn:Hhook; rewrite Hh in Hi.
      * destruct i as [|i]; cbn in Hi.
        -- injection Hi as <- <-. split; [f_equal; lia | reflexivity].
        -- apply IH in Hi as [-> Hc']. split; [f_equal; lia | exact Hc'].
      * cbn [app] in Hi. rewrite loop_no_hook in Hi by assumption. discriminate.
Qed.

End Facts.

(** X1. The retry wrapper never invokes the operation more than
    [max_retries + 1] times (and not at all when that number is not
    positive), whatever the operation and the hook do. *)
Theorem retry_attempts_bounded {U : Type} (dict_repr : details -> string)
    (cfg : config U) (func : pyfunc U) (args : arguments) (w : env U) :
  length (calls (emitted (wrapper dict_repr cfg func args w)))
    <= Z.to_nat (max_retries cfg + 1).
Proof.
  unfold wrapper. etransitivity; [apply loop_calls_bounded|].
  rewrite length_range. reflexivity.
Qed.

(** X2. When the retry wrapper returns a value, that value is the result of
    the last invocation; every earlier invocation raised an error of the
    configured classes and was followed by one sleep; there were at most
    [max_retries] of them. *)
Theorem retry_success_shape {U : Type} (dict_repr : details -> string)
    (cfg : config U) (func : pyfunc U) (args : arguments) (w : env U) (v : pyval) :
  result (wrapper dict_repr cfg func args w) = Returned v ->
  let evs := emitted (wrapper dict_repr cfg func args w) in
  exists es,
    calls evs = (Raised <$> es) ++ [Returned v] /\
    Forall (fun e => matches e (exceptions cfg) = true) es /\
    length (sleeps evs) = length es /\
    (Z.of_nat (length es) <= max_retries cfg)%Z.
Proof.
  intros Hres. cbv zeta. unfold wrapper in *.
  destruct (loop_returned_shape dict_repr cfg func args _ _ _ _ _ Hres)
    as (es & Hc & Hall & Hs & Hlen).
  exists es. repeat split; auto. rewrite length_range in Hlen. lia.
Qed.

(** [test_retry_success]: two failures, then "success" at the third
    invocation. *)
Lemma retry_success_shape_witness :
  let r := wrapper Examples.dict_repr MoreExamples.retry_thrice
                   MoreExamples.sometimes_fails ([], []) Examples.start in
  result r = Returned (PyStr "success") /\
  exists es,
    calls (emitted r) = (Raised <$> es) ++ [Returned (PyStr "success")] /\
    Forall (fun e => matches e [Exception] = true) es /\
    length (sleeps (emitted r)) = length es /\
    (Z.of_nat (length es) <= 3)%Z.
Proof.
  split; [reflexivity|].
  apply (retry_success_shape Examples.dict_repr MoreExamples.retry_thrice
           MoreExamples.sometimes_fails ([], []) Examples.start (PyStr "success")).
  reflexivity.
Defined.

(** X3. With a negative [max_retries] the loop has no iteration: the
    operation is not invoked, nothing is logged, and the call raises the
    [RetryExhaustedError] that follows the loop, whose message reports
    [None] as the last error. *)
Theorem retry_negative_budget {U : Type} (dict_repr : details -> string)
    (cfg : config U) (func : pyfunc U) (args : arguments) (w : env U) :
  (max_retries cfg < 0)%Z ->
  wrapper dict_repr cfg func args w =
    Run (Raised (Exn RetryExhaustedError "Unexpected retry exhaustion: None"
                     [("function", PyStr (fname func))]))
        w [].
Proof.
  intros Hn. unfold wrapper, range.
  replace (Z.to_nat (max_retries cfg + 1)) with 0 by lia. reflexivity.
Qed.

Lemma retry_negative_budget_witness :
  (Retry.max_retries MoreExamples.retry_never < 0)%Z /\
  calls (emitted (wrapper Examples.dict_repr MoreExamples.retry_never
                          Examples.successful_operation ([], []) Examples.start)) = [].
Proof.
  split; [reflexivity|].
  rewrite (retry_negative_budget Examples.dict_repr MoreExamples.retry_never
             Examples.successful_operation ([], []) Examples.start); reflexivity.
Defined.

(** X4. The [i]-th call of the [on_retry] hook (counting from 0) receives
    the attempt number [i] and the error raised by the [i]-th invocation of
    the operation. *)
Theorem hook_sees_attempt_and_error {U : Type} (dict_repr : details -> string)
    (cfg : config U) (func : pyfunc U) (args : arguments) (w : env U)
    (i : nat) (a : Z) (e : exn) :
  hook_calls (emitted (wrapper dict_repr cfg func args w)) !! i = Some (a, e) ->
  a = Z.of_nat i /\
  calls (emitted (wrapper dict_repr cfg func args w)) !! i = Some (Raised e).
Proof.
  unfold wrapper, range. intros Hi.
  apply loop_hook_calls in Hi as [-> Hc]. split; [reflexivity | exact Hc].
Qed.

Lemma hook_sees_attempt_and_error_witness :
  let evs := emitted (wrapper Examples.dict_repr MoreExamples.retry_with_hook
                              Examples.always_fails ([], []) Examples.start) in
  hook_calls evs !! 1 = Some (1%Z, Exn ValueError "Always fails" []) /\
  calls evs !! 1 = Some (Raised (Exn ValueError "Always fails" [])).
Proof.
  split; [reflexivity|].
  refine (proj2 (hook_sees_attempt_and_error Examples.dict_repr
                   MoreExamples.retry_with_hook Examples.always_fails ([], [])
                   Examples.start 1 1%Z (Exn ValueError "Always fails" []) _)).
  reflexivity.
Defined.

End RetryRuns.

(** ** More on [CircuitBreaker] *)

Module BreakerRuns.
Import Py Eff Breaker EffFacts BreakerFacts Sequences.

Section Facts.
Context {U : Type}.
Implicit Types (cb : CircuitBreaker) (w : env U) (func : pyfunc U) (args : arguments).

Lemma guarded_returned func args cb w v w' :
  fbody func args w = (Returned v, w') ->
  guarded func args (cb, w) =
    match state cb with
    | HALF_OPEN =>
        Run (Returned v) (set_state CLOSED (set_failure_count 0 cb), w')
            [Call (Returned v);
             Log INFO "Circuit breaker recovered, entering CLOSED state"]
    | _ => Run (Returned v) (cb, w') [Call (Returned v)]
    end.
Proof.
  intros Hf. unfold guarded, try_except, bind, self, lift, invoke. cbn.
  rewrite Hf. cbn. destruct (state cb); reflexivity.
Qed.

Lemma guarded_unexpected func args cb w e w' :
  fbody func args w = (Raised e, w') ->
  isinstance e (expected_exception cb) = false ->
  guarded func args (cb, w) = Run (Raised e) (cb, w') [Call (Raised e)].
Proof.
  intros Hf He. unfold guarded, try_except, bind, self, lift, invoke. cbn.
  rewrite Hf. cbn. unfold matches. cbn. rewrite He. reflexivity.
Qed.

Lemma call_not_open func args cb w :
  state cb <> OPEN -> call func args (cb, w) = guarded func args (cb, w).
Proof.
  intros Hs. unfold call.
  apply (bind_quiet gate (fun _ => guarded func args) (cb, w) tt (cb, w)).
  apply gate_closed, Hs.
Qed.

Lemma call_admitted func args cb w t :
  state cb = OPEN -> last_failure_time cb = Some t ->
  (timeout cb <= clock w - t)%Q ->
  call func args (cb, w) =
    after_events [Log INFO "Circuit breaker entering HALF_OPEN state"]
                 (guarded func args (set_state HALF_OPEN cb, w)).
Proof.
  intros Hs Ht Hle. unfold call, bind.
  rewrite (gate_admits cb w t Hs Ht Hle). reflexivity.
Qed.

(** One call through a closed circuit. *)
Lemma closed_call func args cb w :
  state cb = CLOSED ->
  let cb' := after (call func args) cb w in
  failure_threshold cb' = failure_threshold cb /\
  expected_exception cb' = expected_exception cb /\
  if fails_as_expected (expected_exception cb) (func, args, w) then
    failure_count cb' = (failure_count cb + 1)%Z /\
    state cb' = if (failure_threshold cb <=? failure_count cb + 1)%Z
                then OPEN else CLOSED
  else cb' = cb.
Proof.
  intros Hs. cbv zeta. unfold after. rewrite call_not_open by congruence.
  unfold fails_as_expected. cbn [fst snd].
  destruct (fbody func args w) as [[v|e] w'] eqn:Hf.
  - rewrite (guarded_returned _ _ _ _ _ _ Hf), Hs. cbn. auto.
  - destruct (isinstance e (expected_exception cb)) eqn:He.
    + destruct (guarded_failure func args cb w e w' Hf He) as [_ Hw].
      cbv zeta in Hw. rewrite Hw. cbn [fst].
      destruct (failure_threshold cb <=? failure_count cb + 1)%Z; cbn; rewrite ?Hs; auto.
    + rewrite (guarded_unexpected _ _ _ _ _ _ Hf He). cbn. auto.
Qed.

Lemma expected_failures_cons c (u : use (U:=U)) rest :
  expected_failures c (u :: rest)
  = ((if fails_as_expected c u then 1 else 0) + expected_failures c rest)%Z.
Proof.
  unfold expected_failures. rewrite filter_cons.
  destruct (fails_as_expected c u).
  - rewrite decide_True by reflexivity. cbn [length]. lia.
  - rewrite decide_False by discriminate. lia.
Qed.

Lemma after_calls_closed (uses : list (use (U:=U))) : forall cb,
  state cb = CLOSED ->
  (failure_count cb + expected_failures (expected_exception cb) uses
   < failure_threshold cb)%Z ->
  state (after_calls cb uses) = CLOSED /\
  failure_count (after_calls cb uses)
    = (failure_count cb + expected_failures (expected_exception cb) uses)%Z.
Proof.
  induction uses as [|[[func args] w] rest IH]; intros cb Hs Hlt.
  - cbn. split; [assumption | unfold expected_failures; cbn; lia].
  - cbn [after_calls]. rewrite expected_failures_cons in Hlt |- *.
    assert (Hpos : (0 <= expected_failures (expected_exception cb) rest)%Z)
      by (unfold expected_failures; lia).
    destruct (closed_call func args cb w Hs) as (Hth & Hex & Hstep).
    cbv zeta in *.
    destruct (fails_as_expected (expected_exception cb) (func, args, w)).
    + destruct Hstep as [Hc Hst].
      replace (failure_threshold cb <=? failure_count cb + 1)%Z with false in Hst
        by (symmetry; apply Z.leb_gt; lia).
      destruct (IH _ Hst) as [Hs' Hc']; rewrite ?Hex, ?Hc, ?Hth; [lia|].
      rewrite Hex, Hc in Hc'. split; [assumption | lia].
    + rewrite Hstep. destruct (IH cb Hs) as [Hs' Hc']; [lia|].
      split; [assumption | lia].
Qed.

End Facts.

(** X5. In a closed circuit, [failure_count] grows by one with each call
    whose operation raises an error of the expected class and is left alone
    by every other call: a success does not reset it, and an error of another
    class is not counted. As long as the count stays below
    [failure_threshold] the circuit stays closed. *)
Theorem closed_circuit_counts_failures {U : Type} (cb : CircuitBreaker)
    (uses : list (use (U:=U))) :
  state cb = CLOSED ->
  (failure_count cb + expected_failures (expected_exception cb) uses
   < failure_threshold cb)%Z ->
  state (after_calls cb uses) = CLOSED /\
  failure_count (after_calls cb uses)
    = (failure_count cb + expected_failures (expected_exception cb) uses)%Z.
Proof. apply after_calls_closed. Qed.


(** [fail, succeed, fail] on a breaker with threshold 3: two failures are
    counted although a success came in between. *)
Lemma closed_circuit_counts_failures_witness :
  state (after_calls MoreExamples.breaker3 MoreExamples.fail_succeed_fail) = CLOSED /\
  failure_count (after_calls MoreExamples.breaker3 MoreExamples.fail_succeed_fail)
    = (0 + 2)%Z.
Proof.
  apply (closed_circuit_counts_failures MoreExamples.breaker3
           MoreExamples.fail_succeed_fail).
  - reflexivity.
  - vm_compute. reflexivity.
Defined.

(** X6. In a closed circuit, the call whose expected failure brings
    [failure_count] to [failure_threshold] (or above) re-raises the error,
    opens the circuit and records the time read after the failure. *)
Theorem closed_circuit_opens_at_threshold {U : Type} (cb : CircuitBreaker)
    (func : pyfunc U) (args : arguments) (w w' : env U) (e : exn) :
  state cb = CLOSED ->
  fbody func args w = (Raised e, w') ->
  isinstance e (expected_exception cb) = true ->
  (failure_threshold cb <= failure_count cb + 1)%Z ->
  let r := call func args (cb, w) in
  result r = Raised e /\
  state (world r).1 = OPEN /\
  failure_count (world r).1 = (failure_count cb + 1)%Z /\
  last_failure_time (world r).1 = Some (clock w') /\
  (world r).2 = w'.
Proof.
  intros Hs Hf He Hth. cbv zeta. rewrite call_not_open by congruence.
  destruct (guarded_failure func args cb w e w' Hf He) as [Hres Hw].
  cbv zeta in Hw. apply Z.leb_le in Hth. rewrite Hth in Hw.
  rewrite Hres, Hw. repeat split; reflexivity.
Qed.

(** [test_circuit_breaker_opens]: after the failure, the success and the
    failure above, a third failure at time [3] opens the breaker. *)
Lemma closed_circuit_opens_at_threshold_witness :
  let cb := after_calls MoreExamples.breaker3 MoreExamples.fail_succeed_fail in
  let r := call Examples.failing_operation ([], []) (cb, Examples.at_time 3) in
  state cb = CLOSED /\
  state (world r).1 = OPEN /\
  failure_count (world r).1 = 3%Z /\
  last_failure_time (world r).1 = Some 3%Q.
Proof.
  cbv zeta. split; [reflexivity|].
  destruct (closed_circuit_opens_at_threshold
              (after_calls MoreExamples.breaker3 MoreExamples.fail_succeed_fail)
              Examples.failing_operation ([], []) (Examples.at_time 3)
              (Examples.bump (Examples.at_time 3)) (Exn Exception "Failure" [])
              eq_refl eq_refl eq_refl)
    as (_ & Hst & Hc & Ht & _).
  { vm_compute. discriminate. }
  repeat split; assumption.
Defined.

(** X7. A call admitted as the trial request whose operation returns gives
    the operation's value, closes the circuit and resets [failure_count] to
    zero; [last_failure_time] is kept. *)
Theorem trial_success_closes {U : Type} (cb : CircuitBreaker)
    (func : pyfunc U) (args : arguments) (w w' : env U) (v : pyval) :
  trial_admitted cb (clock w) ->
  fbody func args w = (Returned v, w') ->
  let r := call func args (cb, w) in
  result r = Returned v /\
  calls (emitted r) = [Returned v] /\
  state (world r).1 = CLOSED /\
  failure_count (world r).1 = 0%Z /\
  last_failure_time (world r).1 = last_failure_time cb /\
  (world r).2 = w'.
Proof.
  intros [Hs|(Hs & t & Ht & Hle)] Hf; cbv zeta.
  - rewrite call_not_open by congruence.
    rewrite (guarded_returned _ _ _ _ _ _ Hf), Hs. repeat split; reflexivity.
  - rewrite (call_admitted _ _ _ _ _ Hs Ht Hle).
    rewrite (guarded_returned _ _ _ _ _ _ Hf). cbn. repeat split; reflexivity.
Qed.

(** [test_circuit_breaker_half_open]: the breaker opened at time [0] with a
    timeout of one second; a successful call at time [5] closes it. *)
Lemma trial_success_closes_witness :
  let r := call Examples.successful_operation ([], [])
                (Examples.opened, Examples.at_time 5) in
  trial_admitted Examples.opened 5 /\
  result r = Returned (PyStr "success") /\
  state (world r).1 = CLOSED /\
  failure_count (world r).1 = 0%Z.
Proof.
  assert (H : trial_admitted Examples.opened 5).
  { right. split; [reflexivity|]. exists 0%Q. split; [reflexivity|].
    vm_compute. discriminate. }
  cbv zeta. split; [exact H|].
  destruct (trial_success_closes Examples.opened Examples.successful_operation
              ([], []) (Examples.at_time 5) (Examples.bump (Examples.at_time 5))
              (PyStr "success") H eq_refl)
    as (Hr & _ & Hs & Hc & _).
  repeat split; assumption.
Defined.

(** X8. An error that is not of the expected class goes through a call that
    is not rejected as it is: it is not counted and does not date a failure.
    The circuit stays closed if it was closed; a trial request that ends this
    way leaves it half-open. *)
Theorem unexpected_error_passes_through {U : Type} (cb : CircuitBreaker)
    (func : pyfunc U) (args : arguments) (w w' : env U) (e : exn) :
  state cb = CLOSED \/ trial_admitted cb (clock w) ->
  fbody func args w = (Raised e, w') ->
  isinstance e (expected_exception cb) = false ->
  let r := call func args (cb, w) in
  result r = Raised e /\
  calls (emitted r) = [Raised e] /\
  failure_count (world r).1 = failure_count cb /\
  last_failure_time (world r).1 = last_failure_time cb /\
  state (world r).1 = match state cb with CLOSED => CLOSED | _ => HALF_OPEN end /\
  (world r).2 = w'.
Proof.
  intros Hadm Hf He. cbv zeta.
  destruct Hadm as [Hs|[Hs|(Hs & t & Ht & Hle)]].
  - rewrite call_not_open by congruence.
    rewrite (guarded_unexpected _ _ _ _ _ _ Hf He). cbn [world result emitted fst snd].
    rewrite Hs. repeat split; reflexivity.
  - rewrite call_not_open by congruence.
    rewrite (guarded_unexpected _ _ _ _ _ _ Hf He). cbn [world result emitted fst snd].
    rewrite Hs. repeat split; reflexivity.
  - rewrite (call_admitted _ _ _ _ _ Hs Ht Hle).
    rewrite (guarded_unexpected func args (set_state HALF_OPEN cb) w e w' Hf He), Hs.
    repeat split; reflexivity.
Qed.

(** A [KeyboardInterrupt] during the trial at time [5] of the breaker that
    opened at time [0]: the breaker is left half-open. *)
Lemma unexpected_error_passes_through_witness :
  let r := call MoreExamples.interrupted ([], []) (Examples.opened, Examples.at_time 5) in
  result r = Raised (Exn KeyboardInterrupt "" []) /\
  failure_count (world r).1 = 1%Z /\
  state (world r).1 = HALF_OPEN.
Proof.
  cbv zeta.
  destruct (unexpected_error_passes_through Examples.opened MoreExamples.interrupted
              ([], []) (Examples.at_time 5) (Examples.bump (Examples.at_time 5))
              (Exn KeyboardInterrupt "" []))
    as (Hr & _ & Hc & _ & Hs & _).
  - right. right. split; [reflexivity|]. exists 0%Q. split; [reflexivity|].
    vm_compute. discriminate.
  - reflexivity.
  - reflexivity.
  - repeat split; assumption.
Defined.

(** The [try] statement ends as the operation did. *)
Lemma guarded_transparent {U : Type} (func : pyfunc U) (args : arguments)
    (cb : CircuitBreaker) (w : env U) :
  result (guarded func args (cb, w)) = (fbody func args w).1 /\
  (world (guarded func args (cb, w))).2 = (fbody func args w).2.
Proof.
  destruct (fbody func args w) as [[v|e] w'] eqn:Hf.
  - rewrite (guarded_returned _ _ _ _ _ _ Hf). destruct (state cb); split; reflexivity.
  - destruct (isinstance e (expected_exception cb)) eqn:He.
    + destruct (guarded_failure func args cb w e w' Hf He) as [Hres Hw].
      cbv zeta in Hw. rewrite Hres, Hw. split; reflexivity.
    + rewrite (guarded_unexpected _ _ _ _ _ _ Hf He). split; reflexivity.
Qed.

(** X9. [reset] closes the circuit and zeroes [failure_count] whatever the
    state was, and keeps [last_failure_time]; the next call reaches the
    operation, once, and ends as the operation does. *)
Theorem reset_reopens_traffic {U : Type} (cb : CircuitBreaker) (w0 : env U)
    (func : pyfunc U) (args : arguments) (w : env U) :
  let cb0 := after reset cb w0 in
  let r := call func args (cb0, w) in
  state cb0 = CLOSED /\
  failure_count cb0 = 0%Z /\
  last_failure_time cb0 = last_failure_time cb /\
  calls (emitted r) = [(fbody func args w).1] /\
  result r = (fbody func args w).1.
Proof.
  cbv zeta. split; [reflexivity|]. split; [reflexivity|]. split; [reflexivity|].
  rewrite call_not_open by (cbn; congruence).
  split; [apply guarded_calls | apply guarded_transparent].
Qed.

(** X10. On a breaker used through its methods only, a call either is
    rejected with the error of an open circuit, without invoking the operation
    and without changing the breaker, or invokes the operation exactly once
    and ends as the operation does: with its value, or with its error
    re-raised as it is. In particular the subtraction of the gate never fails
    on a missing [last_failure_time]. *)
Theorem breaker_is_transparent {U : Type} (cb : CircuitBreaker)
    (func : pyfunc U) (args : arguments) (w : env U) :
  reachable (U:=U) cb ->
  let r := call func args (cb, w) in
  (result r = Raised circuit_open /\ calls (emitted r) = [] /\ world r = (cb, w)) \/
  (calls (emitted r) = [(fbody func args w).1] /\
   result r = (fbody func args w).1 /\
   (world r).2 = (fbody func args w).2).
Proof.
  intros Hreach. cbv zeta.
  assert (Hdec : state cb = OPEN \/ state cb <> OPEN)
    by (destruct (state cb); auto; right; discriminate).
  destruct Hdec as [Hs|Hs].
  - destruct (reachable_dated cb Hreach) as [t Ht]; [congruence|].
    destruct (Qlt_le_dec (clock w - t) (timeout cb)) as [Hlt|Hle].
    + left. rewrite (call_rejected func args cb w t Hs Ht Hlt).
      repeat split; reflexivity.
    + right. rewrite (call_admitted _ _ _ _ _ Hs Ht Hle).
      rewrite emitted_after_events, result_after_events, world_after_events.
      cbn [app]. rewrite calls_log.
      split; [apply guarded_calls | apply guarded_transparent].
  - right. rewrite call_not_open by assumption.
    split; [apply guarded_calls | apply guarded_transparent].
Qed.

(** The breaker that opened at time [0]: rejected at time [1/2]. *)
Lemma breaker_is_transparent_witness :
  reachable (U:=Z) Examples.opened /\
  result (call Examples.successful_operation ([], [])
               (Examples.opened, Examples.at_time 0.5)) = Raised circuit_open.
Proof.
  assert (H : reachable (U:=Z) Examples.opened).
  { unfold Examples.opened. apply reach_call, reach_init. }
  split; [exact H|].
  destruct (breaker_is_transparent Examples.opened Examples.successful_operation
              ([], []) (Examples.at_time 0.5) H) as [(Hr & _)|(Hc & _)].
  - exact Hr.
  - vm_compute in Hc. discriminate.
Defined.

End BreakerRuns.

(** ** More on [InMemoryCache] and [cached] *)

Module CacheRuns.
Import Py Eff Cache EffFacts CacheFacts.

Section Facts.
Context {U : Type}.
Implicit Types (c : InMemoryCache) (w : env U) (key : string) (v : pyval).

Lemma delete_eq key c w :
  Cache.delete key (c, w) =
    match _cache c !! key with
    | Some _ => Run (Returned tt) (set__cache (base.delete key) c, w)
                    [Log DEBUG "Cache deleted"]
    | None => Run (Returned tt) (c, w) []
    end.
Proof.
  unfold Cache.delete, bind, self. cbn.
  destruct (_cache c !! key); reflexivity.
Qed.

Lemma cleanup_expired_eq c w :
  let gone := filter (fun kv => expired (clock w) kv.2 = true) (_cache c) in
  cleanup_expired (c, w) =
    Run (Returned (Z.of_nat (size gone)))
        (set__cache (filter (fun kv => expired (clock w) kv.2 = false)) c, w)
        (if bool_decide (gone = ∅) then []
         else [Log INFO "Expired cache entries cleaned"]).
Proof.
  cbv zeta. unfold cleanup_expired, bind, self, lift, time_time, update. cbn.
  destruct (bool_decide _); reflexivity.
Qed.

Lemma kept_is_complement (now : Q) (m : gmap string entry) :
  filter (fun kv : string * entry => expired now kv.2 = false) m
  = filter (fun kv => ¬ (expired now kv.2 = true)) m.
Proof.
  apply map_filter_ext. intros k e _. cbn. destruct (expired now e); split; congruence.
Qed.

End Facts.

(** X11. A value stored by [set] is returned by every [get] of the same key
    made no later than [ttl] seconds after the [set], where a [ttl] of [None]
    or [0] stands for the default of the cache; a [get] made later returns
    [None] and removes the entry. *)
Theorem set_then_get {U : Type} (c : InMemoryCache) (w w2 : env U)
    (key : string) (v : pyval) (ttl' : option Z) :
  let stored := (world (set key v ttl' (c, w))).1 in
  let seconds := match ttl' with
                 | Some t => if (t =? 0)%Z then ttl c else t
                 | None => ttl c
                 end in
  let r := get key (stored, w2) in
  ((clock w2 <= clock w + inject_Z seconds)%Q ->
     result r = Returned v /\ world r = (stored, w2)) /\
  ((clock w + inject_Z seconds < clock w2)%Q ->
     result r = Returned PyNone /\ _cache (world r).1 !! key = None).
Proof.
  cbv zeta. rewrite set_eq. cbn [world fst]. rewrite get_eq.
  cbn [_cache set__cache]. rewrite lookup_insert_eq.
  change (ttl_or ttl' (ttl c)) with
    (match ttl' with Some t => if (t =? 0)%Z then ttl c else t | None => ttl c end).
  split.
  - intros Hlive. cbn [fst].
    destruct (expired _ _) eqn:He.
    + apply expired_true in He. cbn [expires_at] in He. lra.
    + split; reflexivity.
  - intros Hexp. cbn [fst].
    destruct (expired _ _) eqn:He.
    + cbn. rewrite lookup_delete_eq. split; reflexivity.
    + apply expired_false in He. cbn [expires_at] in He. lra.
Qed.

(** [test_cache_expiration]: [ttl = 1], a [get] at once and one [1.1]
    seconds later. *)
Lemma set_then_get_witness :
  let stored := (world (set "key1" (PyStr "value1") None (new 1, Examples.at_time 0))).1 in
  result (get "key1" (stored, Examples.at_time 0)) = Returned (PyStr "value1") /\
  result (get "key1" (stored, Examples.at_time 1.1)) = Returned PyNone.
Proof.
  cbv zeta.
  destruct (set_then_get (new 1) (Examples.at_time 0) (Examples.at_time 0)
              "key1" (PyStr "value1") None) as [Hlive _].
  destruct (set_then_get (new 1) (Examples.at_time 0) (Examples.at_time 1.1)
              "key1" (PyStr "value1") None) as [_ Hgone].
  split.
  - apply Hlive. vm_compute. discriminate.
  - apply Hgone. vm_compute. reflexivity.
Defined.

(** X12. [delete] removes the key and nothing else: afterwards [get] of that
    key returns [None] and the other keys hold what they held; on a key that
    is not in the cache it changes nothing and logs nothing. *)
Theorem delete_removes_one_key {U : Type} (c : InMemoryCache) (w w2 : env U)
    (key : string) :
  let r := Cache.delete key (c, w) in
  result r = Returned tt /\
  _cache (world r).1 !! key = None /\
  (forall k, k <> key -> _cache (world r).1 !! k = _cache c !! k) /\
  ttl (world r).1 = ttl c /\
  result (get key ((world r).1, w2)) = Returned PyNone /\
  (_cache c !! key = None -> r = Run (Returned tt) (c, w) []).
Proof.
  cbv zeta. rewrite delete_eq.
  destruct (_cache c !! key) as [e|] eqn:He; cbn [result world fst].
  - cbn [_cache set__cache ttl]. rewrite get_eq. cbn [_cache set__cache].
    rewrite lookup_delete_eq. repeat split; try discriminate.
    intros k Hk. apply lookup_delete_ne. congruence.
  - rewrite get_eq, He. repeat split; auto.
Qed.

(** X13. After [clear] the cache is empty: [get] returns [None] for every
    key and [stats] counts no entry; the default [ttl] is kept. *)
Theorem clear_empties_the_cache {U : Type} (c : InMemoryCache) (w w2 : env U)
    (key : string) :
  let cleared := (world (clear (c, w))).1 in
  result (get key (cleared, w2)) = Returned PyNone /\
  result (stats (cleared, w2)) = Returned (0%Z, ttl c).
Proof. cbv zeta. rewrite get_eq. split; reflexivity. Qed.

(** X14. [cleanup_expired] returns the number of entries that have expired
    at the time of the call and removes exactly those: an entry is in the
    cache afterwards if and only if it was there and has not expired, and the
    number returned plus the number of entries left is the number of entries
    there were. *)
Theorem cleanup_removes_the_expired {U : Type} (c : InMemoryCache) (w : env U) :
  let r := cleanup_expired (c, w) in
  exists n : nat,
    result r = Returned (Z.of_nat n) /\
    n + size (_cache (world r).1) = size (_cache c) /\
    (forall k e, _cache (world r).1 !! k = Some e <->
                 _cache c !! k = Some e /\ (clock w <= expires_at e)%Q) /\
    ttl (world r).1 = ttl c /\
    (world r).2 = w.
Proof.
  cbv zeta. rewrite cleanup_expired_eq. cbv zeta.
  exists (size (filter (fun kv : string * entry => expired (clock w) kv.2 = true)
                       (_cache c))).
  cbn [result world fst snd _cache set__cache ttl].
  split; [reflexivity|]. split; [|split; [|split; reflexivity]].
  - rewrite kept_is_complement.
    rewrite <- map_size_disj_union by apply map_disjoint_filter_complement.
    rewrite map_filter_union_complement. reflexivity.
  - intros k e. rewrite map_lookup_filter_Some. cbn.
    rewrite expired_false. reflexivity.
Qed.

(** X15. A failure of the operation is not cached. When there is nothing to
    serve and the operation raises, the enabled decorated function raises the
    same exception after one invocation and stores nothing: the cache holds no
    value other than [None] under the fingerprint, so the next call invokes
    the operation again. *)
Theorem cached_failure_is_not_stored {U : Type} (_generate_key : arguments -> string)
    (ttl' : option Z) (func : pyfunc U) (args : arguments)
    (oc : option InMemoryCache) (w w' : env U) (ex : exn) :
  let key := fingerprint _generate_key func args in
  nothing_served oc key (clock w) ->
  fbody func args w = (Raised ex, w') ->
  let r := wrapper _generate_key ttl' true func args (oc, w) in
  result r = Raised ex /\
  calls (emitted r) = [Raised ex] /\
  (world r).2 = w' /\
  holds_none (world r).1 key /\
  forall w2,
    calls (emitted (wrapper _generate_key ttl' true func args ((world r).1, w2)))
      = [(fbody func args w2).1].
Proof.
  cbv zeta. intros Hn Hf.
  destruct (wrapper_miss_raised _generate_key ttl' func args oc w ex w' Hn Hf)
    as [Hres Hw].
  pose proof (wrapper_miss_calls _generate_key ttl' func args oc w Hn) as Hcalls.
  rewrite Hf in Hcalls. rewrite Hres, Hcalls, Hw. cbn [fst snd].
  assert (Hheld : holds_none
            (Some (after_read oc (fingerprint _generate_key func args) (clock w)))
            (fingerprint _generate_key func args)).
  { intros c e Hc He. injection Hc as <-. unfold after_read in He.
    destruct oc as [c|]; [|cbn in He; rewrite lookup_empty in He; discriminate].
    destruct (_cache c !! fingerprint _generate_key func args) as [e0|] eqn:Hl.
    - destruct (expired (clock w) e0) eqn:Hexp.
      + cbn [_cache set__cache] in He. rewrite lookup_delete_eq in He. discriminate.
      + rewrite Hl in He. injection He as <-.
        apply expired_false in Hexp. exact (Hn c e0 eq_refl Hl Hexp).
    - rewrite Hl in He. discriminate. }
  repeat split; try assumption.
  intros w2. apply wrapper_miss_calls. apply none_is_nothing_served. exact Hheld.
Qed.

(** An operation that always raises, called through the decorator on a
    fresh process. *)
Lemma cached_failure_is_not_stored_witness :
  let r := wrapper Examples.key_of None true Examples.always_fails ([], [])
             (None, Examples.start) in
  result r = Raised (Exn ValueError "Always fails" []) /\
  calls (emitted (wrapper Examples.key_of None true Examples.always_fails ([], [])
                    ((world r).1, Examples.start)))
    = [Raised (Exn ValueError "Always fails" [])].
Proof.
  cbv zeta.
  destruct (cached_failure_is_not_stored Examples.key_of None Examples.always_fails
              ([], []) None Examples.start (Examples.bump Examples.start)
              (Exn ValueError "Always fails" []))
    as (Hres & _ & _ & _ & Hagain).
  - intros c e Hc. discriminate.
  - reflexivity.
  - split; [exact Hres | exact (Hagain Examples.start)].
Defined.

(** X16. The decorated function reads and writes the entry of its own
    fingerprint only: whatever the call does (a hit, a miss, a failure of the
    operation), afterwards the cache object exists when caching is enabled,
    every other key holds what it held before, and the default [ttl] of the
    cache is the one it had, or [3600] when the call created the cache. *)
Theorem cached_wrapper_is_local {U : Type} (_generate_key : arguments -> string)
    (ttl' : option Z) (func : pyfunc U) (args : arguments)
    (oc : option InMemoryCache) (w : env U) :
  let key := fingerprint _generate_key func args in
  let before := default (new 3600) oc in
  exists c', (world (wrapper _generate_key ttl' true func args (oc, w))).1 = Some c' /\
    ttl c' = ttl before /\
    forall k, k <> key -> _cache c' !! k = _cache before !! k.
Proof.
  cbv zeta.
  unfold Cache.wrapper, get_cache, get, set, bind, self, lift, time_time, invoke. cbn.
  assert (Hdel : forall (c : InMemoryCache) k,
            k <> fingerprint _generate_key func args ->
            base.delete (fingerprint _generate_key func args) (_cache c) !! k
            = _cache c !! k).
  { intros c k Hk. apply lookup_delete_ne. congruence. }
  assert (Hins : forall (m : gmap string entry) e k,
            k <> fingerprint _generate_key func args ->
            <[fingerprint _generate_key func args := e]> m !! k = m !! k).
  { intros m e k Hk. apply lookup_insert_ne. congruence. }
  destruct oc as [c|]; cbn.
  - destruct (_cache c !! _) as [e|] eqn:Hl; cbn.
    + destruct (expired (clock w) e) eqn:Hexp; cbn.
      * destruct (fbody func args w) as [[v|ex] w1]; cbn;
          (eexists; split; [reflexivity|]; split; [reflexivity|]);
          intros k Hk; cbn; rewrite ?Hins by assumption; auto.
      * destruct (is_none (value e)); cbn.
        -- destruct (fbody func args w) as [[v|ex] w1]; cbn;
             (eexists; split; [reflexivity|]; split; [reflexivity|]);
             intros k Hk; cbn; rewrite ?Hins by assumption; auto.
        -- eexists; split; [reflexivity|]; split; [reflexivity|]. auto.
    + destruct (fbody func args w) as [[v|ex] w1]; cbn;
        (eexists; split; [reflexivity|]; split; [reflexivity|]);
        intros k Hk; cbn; rewrite ?Hins by assumption; auto.
  - rewrite lookup_empty. cbn.
    destruct (fbody func args w) as [[v|ex] w1]; cbn;
      (eexists; split; [reflexivity|]; split; [reflexivity|]);
      intros k Hk; cbn; rewrite ?Hins by assumption; auto.
Qed.

End CacheRuns.

(** ** More on [MetricsCollector] *)

Module MetricsRuns.
Import Py Eff Metrics EffFacts MetricsFacts Tracking.

Section Facts.
Context {U : Type}.
Implicit Types (c : MetricsCollector) (w : env U) (name : string).

Lemma occurrences_cons `{EqDecision A} (a b : A) (l : list A) :
  occurrences a (b :: l)
  = ((if decide (b = a) then 1 else 0) + occurrences a l)%Z.
Proof.
  unfold occurrences. rewrite filter_cons.
  destruct (decide (b = a)); cbn [length]; lia.
Qed.

Lemma occurrences_nonneg `{EqDecision A} (a : A) (l : list A) :
  (0 <= occurrences a l)%Z.
Proof. unfold occurrences. lia. Qed.

Lemma occurrences_bool (l : list bool) :
  (occurrences true l + occurrences false l)%Z = Z.of_nat (length l).
Proof.
  induction l as [|b l IH]; [reflexivity|].
  rewrite !occurrences_cons. cbn [length].
  destruct b; repeat (destruct (decide _); try congruence); lia.
Qed.

(** *** [increment_request] and [record_cache_hit] *)

Lemma increment_request_eq (ok : bool) c w :
  increment_request ok (c, w) =
    Run (Returned tt)
        (set_requests (fun r =>
           Requests (req_total r + 1)
                    (if ok then req_success r + 1 else req_success r)
                    (if ok then req_failure r else req_failure r + 1))%Z c, w) [].
Proof. destruct ok; reflexivity. Qed.

Lemma increment_requests_eq (oks : list bool) : forall c w,
  each increment_request oks (c, w) =
    Run (Returned tt)
        (set_requests (fun r =>
           Requests (req_total r + Z.of_nat (length oks))
                    (req_success r + occurrences true oks)
                    (req_failure r + occurrences false oks)) c, w) [].
Proof.
  induction oks as [|ok oks IH]; intros c w.
  - destruct c as [[]]. cbn. unfold set_requests. cbn.
    rewrite !Z.add_0_r. reflexivity.
  - cbn [each]. erewrite bind_quiet by apply increment_request_eq.
    rewrite IH, !occurrences_cons. cbn [length].
    destruct c as [[]]. unfold set_requests. cbn.
    do 4 f_equal; destruct ok;
      repeat (destruct (decide _); try congruence); lia.
Qed.

Lemma record_cache_hit_eq (hit : bool) c w :
  record_cache_hit hit (c, w) =
    Run (Returned tt)
        (set_cache (fun k =>
           CacheMetrics (if hit then hits k + 1 else hits k)
                        (if hit then misses k else misses k + 1))%Z c, w) [].
Proof. destruct hit; reflexivity. Qed.

Lemma record_cache_hits_eq (hs : list bool) : forall c w,
  each record_cache_hit hs (c, w) =
    Run (Returned tt)
        (set_cache (fun k =>
           CacheMetrics (hits k + occurrences true hs)
                        (misses k + occurrences false hs)) c, w) [].
Proof.
  induction hs as [|h hs IH]; intros c w.
  - destruct c as [? ? ? ? []]. cbn. unfold set_cache. cbn.
    rewrite !Z.add_0_r. reflexivity.
  - cbn [each]. erewrite bind_quiet by apply record_cache_hit_eq.
    rewrite IH, !occurrences_cons. cbn [length].
    destruct c as [? ? ? ? []]. unfold set_cache. cbn.
    do 4 f_equal; destruct h;
      repeat (destruct (decide _); try congruence); lia.
Qed.

Lemma ratio_bounds (a b : Z) :
  (0 <= a)%Z -> (0 <= b)%Z -> (0 < a + b)%Z ->
  (0 <= inject_Z a / inject_Z (a + b) <= 1)%Q.
Proof.
  intros Ha Hb Hab.
  assert (H0 : (0 < inject_Z (a + b))%Q).
  { change 0%Q with (inject_Z 0). rewrite <- Zlt_Qlt. exact Hab. }
  assert (Ha' : (0 <= inject_Z a)%Q).
  { change 0%Q with (inject_Z 0). rewrite <- Zle_Qle. exact Ha. }
  assert (Hle : (inject_Z a <= inject_Z (a + b))%Q).
  { rewrite <- Zle_Qle. lia. }
  split.
  - apply Qle_shift_div_l; [exact H0|]. lra.
  - apply Qle_shift_div_r; [exact H0|]. lra.
Qed.

(** *** [record_error] *)

Lemma record_error_eq (t : string) c w :
  record_error t (c, w) =
    Run (Returned tt)
        (set_errors (fun m => <[t := (default 0 (m !! t) + 1)%Z]> m) c, w) [].
Proof.
  unfold record_error, bind, self, update, set_errors. cbn.
  destruct (m_errors c !! t) as [n|] eqn:E; cbn.
  - do 2 f_equal. f_equal. apply map_eq. intros k.
    destruct (decide (k = t)) as [->|Hk].
    + rewrite lookup_alter_eq, lookup_insert_eq, E. reflexivity.
    + rewrite lookup_alter_ne, lookup_insert_ne by congruence. reflexivity.
  - rewrite alter_insert_eq. reflexivity.
Qed.

(** *** [record_latency] as an equation *)

Lemma with_latency_id c name l :
  m_latency c !! name = Some l -> with_latency c name l = c.
Proof.
  intros Hl. destruct c. unfold with_latency, set_latency. cbn in *.
  rewrite insert_id by assumption. reflexivity.
Qed.

Lemma on_latency_with_latency name f c l w :
  on_latency name f (with_latency c name l, w) =
    Run (Returned tt) (with_latency c name (f l), w) [].
Proof.
  unfold on_latency, update, with_latency, set_latency. cbn.
  rewrite alter_insert_eq. reflexivity.
Qed.

Lemma ensure_latency name c w :
  match m_latency c !! name with
  | None => update (set_latency (insert name new_latency))
  | Some _ => ret tt
  end (c, w)
  = Run (Returned tt) (with_latency c name (latency_of c name), w) [].
Proof.
  unfold latency_of. cbn.
  destruct (m_latency c !! name) as [l|] eqn:Hl; cbn.
  - rewrite with_latency_id by assumption. reflexivity.
  - reflexivity.
Qed.

Lemma record_latency_eq name duration c w :
  (lat_count (latency_of c name) + 1 <> 0)%Z ->
  record_latency name duration (c, w) =
    Run (Returned tt) (with_latency c name (timed (latency_of c name) duration), w) [].
Proof.
  intros Hc. unfold record_latency.
  rewrite (bind_quiet self _ (c, w) c (c, w)) by reflexivity.
  erewrite bind_quiet by apply ensure_latency.
  erewrite bind_quiet by apply on_latency_with_latency.
  erewrite bind_quiet by apply on_latency_with_latency.
  erewrite bind_quiet by reflexivity.
  unfold with_latency at 1, set_latency at 1; cbn [m_latency fst].
  rewrite lookup_insert_eq; cbn [lat_count].
  destruct (lat_count (latency_of c name) + 1 =? 0)%Z eqn:E; [lia|].
  erewrite bind_quiet by apply on_latency_with_latency.
  erewrite bind_quiet by apply on_latency_with_latency.
  rewrite on_latency_with_latency. reflexivity.
Qed.

Lemma latency_of_with_latency c name l :
  latency_of (with_latency c name l) name = l.
Proof.
  unfold latency_of, with_latency, set_latency. cbn.
  rewrite lookup_insert_eq. reflexivity.
Qed.

Lemma timed_all_count ds : forall l,
  lat_count (timed_all l ds) = (lat_count l + Z.of_nat (length ds))%Z.
Proof.
  induction ds as [|d ds IH]; intros l; cbn.
  - lia.
  - unfold timed_all in IH. rewrite IH. cbn. lia.
Qed.

Lemma timed_all_total ds : forall l,
  (lat_total (timed_all l ds) == lat_total l + Qsum ds)%Q.
Proof.
  unfold timed_all, Qsum.
  induction ds as [|d ds IH]; intros l; cbn [foldl foldr].
  - ring.
  - rewrite IH. cbn [timed lat_total]. ring.
Qed.

Lemma timed_all_snoc l ds d :
  timed_all l (ds ++ [d]) = timed (timed_all l ds) d.
Proof. unfold timed_all. rewrite foldl_snoc. reflexivity. Qed.

Lemma timed_all_extrema ds :
  Forall (fun d => 0 <= d)%Q ds ->
  min_of (lat_min (timed_all new_latency ds)) ds /\
  max_of (lat_max (timed_all new_latency ds)) ds.
Proof.
  induction ds as [|d ds IH] using rev_ind; intros Hpos.
  - cbn. split; [reflexivity|]. split; congruence.
  - apply Forall_app in Hpos as [Hrest Hd]. inversion Hd as [|? ? Hd0 _]; subst.
    destruct (IH Hrest) as [Hmin Hmax].
    rewrite timed_all_snoc. cbn [timed lat_min lat_max].
    split; [apply py_min_snoc, Hmin | apply py_max_snoc; assumption].
Qed.

Lemma timed_all_avg l ds :
  ds <> [] ->
  lat_avg (timed_all l ds)
  = (lat_total (timed_all l ds) / inject_Z (lat_count (timed_all l ds)))%Q.
Proof.
  destruct ds as [|d ds _] using rev_ind; [congruence|]. intros _.
  rewrite timed_all_snoc. reflexivity.
Qed.

Lemma record_latencies name ds : forall c w,
  (0 <= lat_count (latency_of c name))%Z ->
  each (record_latency name) ds (c, w) =
    Run (Returned tt)
        (match ds with
         | [] => c
         | _ => with_latency c name (timed_all (latency_of c name) ds)
         end, w) [].
Proof.
  induction ds as [|d ds IH]; intros c w Hc; [reflexivity|].
  cbn [each].
  erewrite bind_quiet by (apply record_latency_eq; lia).
  rewrite IH by (rewrite latency_of_with_latency; cbn; lia).
  rewrite latency_of_with_latency.
  destruct ds as [|d' ds]; [reflexivity|].
  do 2 f_equal. unfold with_latency, set_latency. cbn.
  rewrite insert_insert_eq. reflexivity.
Qed.

End Facts.

(** X17. [record_error] counts the errors by type: after a series of calls
    the counter of a type is the one it had (or [0]) plus the number of calls
    made with that type, a type that was not recorded has the entry it had,
    and nothing else of the collector has changed. *)
Theorem errors_are_counted {U : Type} (ts : list string) (t : string)
    (c : MetricsCollector) (w : env U) :
  let r := each record_error ts (c, w) in
  result r = Returned tt /\
  (world r).2 = w /\
  m_errors (world r).1 !! t
    = (if decide (occurrences t ts = 0%Z) then m_errors c !! t
       else Some (default 0 (m_errors c !! t) + occurrences t ts)%Z) /\
  m_requests (world r).1 = m_requests c /\
  m_nodes (world r).1 = m_nodes c /\
  m_latency (world r).1 = m_latency c /\
  m_cache (world r).1 = m_cache c.
Proof.
  cbv zeta. revert c. induction ts as [|t0 ts IH]; intros c.
  - cbn. repeat split; reflexivity.
  - cbn [each]. erewrite bind_quiet by apply record_error_eq.
    destruct (IH (set_errors (fun m => <[t0 := (default 0 (m !! t0) + 1)%Z]> m) c))
      as (Hr & Hw & Hl & Hreq & Hn & Hlat & Hc).
    rewrite Hr, Hw, Hl, Hreq, Hn, Hlat, Hc. repeat split; try reflexivity.
    rewrite occurrences_cons. pose proof (occurrences_nonneg t ts) as Hpos.
    unfold set_errors. cbn [m_errors].
    destruct (decide (t0 = t)) as [->|Hne].
    + rewrite lookup_insert_eq. cbn [from_option id].
      destruct (decide (occurrences t ts = 0%Z)) as [E|E];
        (destruct (decide (1 + occurrences t ts = 0)%Z); [lia|]);
        apply (f_equal Some); lia.
    + rewrite lookup_insert_ne by assumption.
      destruct (decide (occurrences t ts = 0%Z)) as [E|E];
        destruct (decide (0 + occurrences t ts = 0)%Z); try lia; try reflexivity.
Qed.

(** X18. Request and cache figures of a snapshot. On a collector that has
    just been reset, after any series of [increment_request] and
    [record_cache_hit] calls, [get_metrics] reports: [total] the number of
    requests, [success] and [failure] the numbers of true and false flags;
    the numbers of hits and misses; [success_rate = success / total] and
    [hit_rate = hits / (hits + misses)], each [0] when nothing was recorded
    and otherwise between [0] and [1]; and as uptime the time since the
    reset. *)
Theorem request_and_cache_rates {U : Type} (utcnow_isoformat : env U -> string)
    (oks hs : list bool) (c0 : MetricsCollector) (w0 w w2 : env U) :
  let fresh := after reset c0 w0 in
  let c := after (each increment_request oks ;;; each record_cache_hit hs) fresh w in
  exists s,
    get_metrics utcnow_isoformat (c, w2) = Run (Returned s) (c, w2) [] /\
    s_requests s = Requests (Z.of_nat (length oks)) (occurrences true oks)
                            (occurrences false oks) /\
    s_cache s = CacheMetrics (occurrences true hs) (occurrences false hs) /\
    (success_rate s ==
       match oks with
       | [] => 0
       | _ => inject_Z (occurrences true oks) / inject_Z (Z.of_nat (length oks))
       end)%Q /\
    (hit_rate s ==
       match hs with
       | [] => 0
       | _ => inject_Z (occurrences true hs) / inject_Z (Z.of_nat (length hs))
       end)%Q /\
    (0 <= success_rate s <= 1)%Q /\
    (0 <= hit_rate s <= 1)%Q /\
    uptime_seconds s = (clock w2 - clock w0)%Q.
Proof.
  cbv zeta. unfold after.
  erewrite bind_quiet by apply increment_requests_eq.
  rewrite record_cache_hits_eq. cbn [world fst].
  eexists. split; [reflexivity|].
  cbn. rewrite !Z.add_0_l.
  split; [reflexivity|]. split; [reflexivity|].
  pose proof (occurrences_bool oks) as Hoks. pose proof (occurrences_bool hs) as Hhs.
  pose proof (occurrences_nonneg true oks). pose proof (occurrences_nonneg false oks).
  pose proof (occurrences_nonneg true hs). pose proof (occurrences_nonneg false hs).
  assert (Hs : forall l : list bool,
            (0 <? Z.of_nat (length l))%Z = match l with [] => false | _ => true end).
  { intros [|b l]; [reflexivity|]. apply Z.ltb_lt. cbn [length]. lia. }
  rewrite Hhs, !Hs.
  repeat split.
  - destruct oks; reflexivity.
  - destruct hs; reflexivity.
  - destruct oks as [|b oks]; [lra|]. rewrite <- Hoks.
    apply ratio_bounds; try assumption. rewrite Hoks. cbn [length]. lia.
  - destruct oks as [|b oks]; [lra|]. rewrite <- Hoks.
    apply ratio_bounds; try assumption. rewrite Hoks. cbn [length]. lia.
  - destruct hs as [|b hs]; [lra|]. rewrite <- Hhs.
    apply ratio_bounds; try assumption. rewrite Hhs. cbn [length]. lia.
  - destruct hs as [|b hs]; [lra|]. rewrite <- Hhs.
    apply ratio_bounds; try assumption. rewrite Hhs. cbn [length]. lia.
Qed.

(** X19. Starting from a collector that has no entry for the operation,
    [k >= 1] calls of [record_latency] with non-negative durations all return
    and leave an entry with: [count = k]; [total] the sum of the durations;
    [avg = total / k]; [min] and [max] the least and the greatest of the
    durations. The entries of the other operations and the rest of the
    collector are as they were. *)
Theorem latency_statistics {U : Type} (operation : string) (ds : list Q)
    (c : MetricsCollector) (w : env U) :
  m_latency c !! operation = None ->
  ds <> [] ->
  Forall (fun d => 0 <= d)%Q ds ->
  let r := each (record_latency operation) ds (c, w) in
  let k := Z.of_nat (length ds) in
  result r = Returned tt /\
  (world r).2 = w /\
  (exists l mn,
     m_latency (world r).1 !! operation = Some l /\
     lat_count l = k /\
     (lat_total l == Qsum ds)%Q /\
     (lat_avg l == Qsum ds / inject_Z k)%Q /\
     lat_min l = Finite mn /\
     is_minimum mn ds /\
     is_maximum (lat_max l) ds) /\
  (forall o, o <> operation -> m_latency (world r).1 !! o = m_latency c !! o) /\
  m_requests (world r).1 = m_requests c /\
  m_nodes (world r).1 = m_nodes c /\
  m_errors (world r).1 = m_errors c /\
  m_cache (world r).1 = m_cache c.
Proof.
  intros Hfresh Hne Hpos. cbv zeta.
  assert (H0 : latency_of c operation = new_latency).
  { unfold latency_of. rewrite Hfresh. reflexivity. }
  rewrite record_latencies by (rewrite H0; cbn; lia).
  rewrite H0. destruct ds as [|d0 ds0] eqn:Eds; [congruence|]. rewrite <- Eds in *.
  cbn [result world fst snd].
  split; [reflexivity|]. split; [reflexivity|].
  split; [|repeat split; try reflexivity;
           intros o Ho; unfold with_latency, set_latency; cbn;
           apply lookup_insert_ne; congruence].
  destruct (timed_all_extrema ds Hpos) as [Hmin Hmax].
  pose proof (timed_all_count ds new_latency) as Hc.
  pose proof (timed_all_total ds new_latency) as Ht.
  pose proof (timed_all_avg new_latency ds Hne) as Ha.
  destruct (lat_min (timed_all new_latency ds)) as [mn|] eqn:Emin;
    [|cbn in Hmin; congruence].
  exists (timed_all new_latency ds), mn.
  cbn in Hc, Ht.
  split.
  { unfold with_latency, set_latency. cbn. apply lookup_insert_eq. }
  split; [lia|].
  assert (Ht' : (lat_total (timed_all new_latency ds) == Qsum ds)%Q).
  { rewrite Ht. ring. }
  split; [exact Ht'|]. split.
  { rewrite Ha, Hc, Ht'. cbn. reflexivity. }
  split; [exact Emin|]. split; [exact Hmin|].
  apply Hmax. exact Hne.
Qed.

(** [test_metrics_latency]: [record_latency("operation1", 1.5)], then [2.0]. *)
Lemma latency_statistics_witness :
  let r := each (record_latency (U:=Z) "operation1") [1.5; 2.0]%Q
                (empty_metrics 0, Examples.start) in
  result r = Returned tt /\
  exists l mn,
    m_latency (world r).1 !! "operation1" = Some l /\
    lat_count l = 2%Z /\
    (lat_total l == Qsum [1.5; 2.0])%Q /\
    (lat_avg l == Qsum [1.5; 2.0] / inject_Z 2)%Q /\
    lat_min l = Finite mn /\
    is_minimum mn [1.5; 2.0]%Q /\
    is_maximum (lat_max l) [1.5; 2.0]%Q.
Proof.
  cbv zeta.
  destruct (latency_statistics (U:=Z) "operation1" [1.5; 2.0]%Q (empty_metrics 0)
              Examples.start) as (Hr & _ & Hl & _).
  - reflexivity.
  - discriminate.
  - repeat constructor; cbn; lra.
  - split; [exact Hr | exact Hl].
Defined.

End MetricsRuns.

(** ** The decorators [track_time] and [track_node_execution] *)

Module TrackingFacts.
Import Py Eff Metrics EffFacts MetricsFacts Tracking MetricsRuns.

Section Facts.
Context {U : Type}.
Implicit Types (om : option MetricsCollector) (w : env U) (name : string).

Lemma record_node_in_singleton name d ok om w :
  (0 <= count (entry_of (collector_at om (clock w)) name))%Z ->
  get_metrics_collector (record_node_execution name d ok) (om, w) =
    Run (Returned tt)
        (Some (with_entry (collector_at om (clock w)) name
                 (recorded (entry_of (collector_at om (clock w)) name) d ok)), w)
        (created om).
Proof.
  intros Hc. unfold get_metrics_collector, collector_at in *.
  destruct om as [m|]; cbn [fst snd from_option id] in *.
  - rewrite record_node_execution_eq. cbv zeta.
    destruct (_ =? _)%Z eqn:E; [lia|]. reflexivity.
  - unfold Metrics.init, bind, time_time, log. cbn -[record_node_execution].
    rewrite record_node_execution_eq. cbv zeta.
    destruct (_ =? _)%Z eqn:E; [cbn in *; lia|]. reflexivity.
Qed.

Lemma record_latency_in_singleton name d om w :
  (0 <= lat_count (latency_of (collector_at om (clock w)) name))%Z ->
  get_metrics_collector (record_latency name d) (om, w) =
    Run (Returned tt)
        (Some (with_latency (collector_at om (clock w)) name
                 (timed (latency_of (collector_at om (clock w)) name) d)), w)
        (created om).
Proof.
  intros Hc. unfold get_metrics_collector, collector_at in *.
  destruct om as [m|]; cbn [fst snd from_option id] in *.
  - rewrite record_latency_eq by lia. reflexivity.
  - unfold Metrics.init, bind, time_time, log. cbn -[record_latency].
    rewrite record_latency_eq by (cbn in *; lia). reflexivity.
Qed.

(** The decorated functions as equations. *)
Lemma track_node_execution_run name func args om w x w1 :
  fbody func args w = (x, w1) ->
  (0 <= count (entry_of (collector_at om (clock w1)) name))%Z ->
  track_node_execution name func args (om, w) =
    Run x
        (Some (with_entry (collector_at om (clock w1)) name
                 (recorded (entry_of (collector_at om (clock w1)) name)
                           (clock w1 - clock w) (counts_as_success x))), w1)
        (Log INFO ("Node " +:+ name +:+ " started") :: Call x
           :: (if counts_as_success x then []
               else [Log ERROR ("Node " +:+ name +:+ " failed")])
           ++ created om ++ [Log INFO ("Node " +:+ name +:+ " completed")]).
Proof.
  intros Hf Hc.
  unfold track_node_execution, with_local, try_finally, try_except, bind, under,
    lift, invoke, time_time, local, assign, log, raise.
  cbn -[record_node_execution get_metrics_collector matches].
  rewrite Hf.
  destruct x as [v|e]; cbn -[record_node_execution get_metrics_collector matches].
  - rewrite record_node_in_singleton by assumption.
    cbn. destruct om; reflexivity.
  - destruct (matches e [Exception]) eqn:Hm;
      cbn -[record_node_execution get_metrics_collector matches];
      rewrite record_node_in_singleton by assumption;
      cbn; destruct om; reflexivity.
Qed.

Lemma track_time_run operation func args om w x w1 :
  fbody func args w = (x, w1) ->
  (0 <= lat_count (latency_of (collector_at om (clock w1)) (op_name operation func)))%Z ->
  track_time operation func args (om, w) =
    Run x
        (Some (with_latency (collector_at om (clock w1)) (op_name operation func)
                 (timed (latency_of (collector_at om (clock w1))
                                    (op_name operation func))
                        (clock w1 - clock w))), w1)
        (Call x :: created om
           ++ [Log DEBUG ("Operation " +:+ op_name operation func +:+ " completed")]).
Proof.
  intros Hf Hc.
  unfold track_time, with_local, try_finally, try_except, bind, under,
    lift, invoke, time_time, local, assign, log, raise.
  cbn -[record_latency get_metrics_collector matches op_name].
  rewrite Hf.
  destruct x as [v|e]; cbn -[record_latency get_metrics_collector matches op_name].
  - rewrite record_latency_in_singleton by assumption.
    cbn -[op_name]. destruct om; reflexivity.
  - destruct (matches e [Exception]) eqn:Hm;
      cbn -[record_latency get_metrics_collector matches op_name];
      rewrite record_latency_in_singleton by assumption;
      cbn -[op_name]; destruct om; reflexivity.
Qed.

End Facts.

(** X20. [track_node_execution] is transparent and records one execution.
    The decorated function invokes the operation once and ends as the
    operation does (same value or same exception, same effects on the
    environment). Whatever the outcome, the entry of the node in the global
    collector (created at that moment if there was none) has gone through one
    [record_node_execution] with, as duration, the time the operation took,
    and with [success] false exactly when the operation raised an [Exception];
    an exception outside [Exception], such as [KeyboardInterrupt], is
    recorded as a success. *)
Theorem node_decorator_records {U : Type} (node_name : string) (func : pyfunc U)
    (args : arguments) (om : option MetricsCollector) (w : env U) :
  let x := (fbody func args w).1 in
  let w' := (fbody func args w).2 in
  let m0 := collector_at om (clock w') in
  let n0 := entry_of m0 node_name in
  (0 <= count n0)%Z ->
  let r := track_node_execution node_name func args (om, w) in
  result r = x /\
  calls (emitted r) = [x] /\
  world r = (Some (with_entry m0 node_name
                     (recorded n0 (clock w' - clock w) (counts_as_success x))), w').
Proof.
  cbv zeta. intros Hc.
  destruct (fbody func args w) as [x w1] eqn:Hf. cbn [fst snd] in *.
  rewrite (track_node_execution_run node_name func args om w x w1 Hf Hc).
  cbn [result world emitted].
  split; [reflexivity|]. split; [|reflexivity].
  destruct (counts_as_success x), om; reflexivity.
Qed.

(** A node that takes a second and a half, decorated, on a fresh process. *)
Lemma node_decorator_records_witness :
  let r := track_node_execution "retrieve" MoreExamples.slow_node ([], [])
             (None, Examples.start) in
  result r = Returned (PyStr "done") /\
  calls (emitted r) = [Returned (PyStr "done")] /\
  world r = (Some (with_entry (empty_metrics (0 + 1.5)) "retrieve"
                     (recorded new_node (0 + 1.5 - 0) true)),
             Env (0 + 1.5) 1%Z).
Proof.
  cbv zeta.
  apply (node_decorator_records "retrieve" MoreExamples.slow_node ([], []) None
           Examples.start).
  vm_compute. discriminate.
Defined.

(** X21. [track_time] is transparent and records one latency sample. The
    decorated function invokes the operation once and ends as the operation
    does. Whatever the outcome, the entry of [operation] (of the name of the
    function when [operation] is [None] or empty) in the global collector,
    created at that moment if there was none, has gone through one
    [record_latency] with the time the operation took. *)
Theorem time_decorator_records {U : Type} (operation : option string)
    (func : pyfunc U) (args : arguments) (om : option MetricsCollector) (w : env U) :
  let x := (fbody func args w).1 in
  let w' := (fbody func args w).2 in
  let m0 := collector_at om (clock w') in
  let op := op_name operation func in
  let l0 := latency_of m0 op in
  (0 <= lat_count l0)%Z ->
  let r := track_time operation func args (om, w) in
  result r = x /\
  calls (emitted r) = [x] /\
  world r = (Some (with_latency m0 op (timed l0 (clock w' - clock w))), w').
Proof.
  cbv zeta. intros Hc.
  destruct (fbody func args w) as [x w1] eqn:Hf. cbn [fst snd] in *.
  rewrite (track_time_run operation func args om w x w1 Hf Hc).
  cbn [result world emitted].
  split; [reflexivity|]. split; [|reflexivity].
  destruct om; reflexivity.
Qed.

(** [test_track_time_decorator], with an operation that takes a second and
    a half. *)
Lemma time_decorator_records_witness :
  let r := track_time (Some "test_operation") MoreExamples.slow_node ([], [])
             (None, Examples.start) in
  result r = Returned (PyStr "done") /\
  calls (emitted r) = [Returned (PyStr "done")] /\
  world r = (Some (with_latency (empty_metrics (0 + 1.5)) "test_operation"
                     (timed new_latency (0 + 1.5 - 0))),
             Env (0 + 1.5) 1%Z).
Proof.
  cbv zeta.
  apply (time_decorator_records (Some "test_operation") MoreExamples.slow_node
           ([], []) None Examples.start).
  vm_compute. discriminate.
Defined.

End TrackingFacts.

(** ** [utils/validation.py] *)

Module ValidationFacts.
Import Py Eff EffFacts Validation.

Section Facts.
Context {S : Type}.
Variable isspace : Z -> bool.
Variable search : string -> text -> bool.
Implicit Types (s : text) (c : Z).

(** *** [strip] *)

Lemma lstrip_head s c : head (lstrip isspace s) = Some c -> isspace c = false.
Proof.
  induction s as [|a s IH]; cbn; [discriminate|].
  destruct (isspace a) eqn:E; [exact IH|]. cbn. congruence.
Qed.

Lemma lstrip_suffix s : exists p, s = p ++ lstrip isspace s.
Proof.
  induction s as [|a s [p IH]]; cbn; [exists []; reflexivity|].
  destruct (isspace a).
  - exists (a :: p). cbn. congruence.
  - exists []. reflexivity.
Qed.

Lemma lstrip_id s :
  (forall c, head s = Some c -> isspace c = false) -> lstrip isspace s = s.
Proof.
  destruct s as [|a s]; cbn; [reflexivity|]. intros H.
  rewrite (H a eq_refl). reflexivity.
Qed.

Lemma rstrip_last s c : last (rstrip isspace s) = Some c -> isspace c = false.
Proof.
  induction s as [|a s IH]; cbn; [discriminate|].
  destruct (rstrip isspace s) as [|b kept] eqn:E.
  - destruct (isspace a) eqn:Ea; cbn; [discriminate|congruence].
  - rewrite last_cons. destruct (last (b :: kept)) eqn:El.
    + exact IH.
    + apply last_None in El. discriminate.
Qed.

Lemma rstrip_prefix s : exists q, s = rstrip isspace s ++ q.
Proof.
  induction s as [|a s [q IH]]; cbn; [exists []; reflexivity|].
  destruct (rstrip isspace s) as [|b kept] eqn:E.
  - destruct (isspace a).
    + exists (a :: s). reflexivity.
    + exists s. reflexivity.
  - exists q. cbn in *. congruence.
Qed.

Lemma rstrip_id s :
  (forall c, last s = Some c -> isspace c = false) -> rstrip isspace s = s.
Proof.
  induction s as [|a s IH]; cbn; [reflexivity|]. intros H.
  destruct s as [|b s'].
  - cbn. rewrite (H a eq_refl). reflexivity.
  - rewrite IH; [reflexivity|]. intros c Hc. apply H.
    rewrite last_cons, Hc. reflexivity.
Qed.

Lemma strip_trimmed s : trimmed isspace (strip isspace s).
Proof.
  unfold strip. split.
  - apply lstrip_head.
  - intros c Hc. destruct (lstrip_suffix (rstrip isspace s)) as [p Hp].
    apply (rstrip_last s). rewrite Hp, last_app, Hc. reflexivity.
Qed.

Lemma strip_id s : trimmed isspace s -> strip isspace s = s.
Proof.
  intros [Hh Hl]. unfold strip. rewrite rstrip_id by exact Hl.
  apply lstrip_id, Hh.
Qed.

Lemma strip_infix s : exists p q, s = p ++ strip isspace s ++ q.
Proof.
  destruct (rstrip_prefix s) as [q Hq].
  destruct (lstrip_suffix (rstrip isspace s)) as [p Hp].
  exists p, q. unfold strip. rewrite app_assoc, <- Hp. exact Hq.
Qed.

(** *** Parts of a text *)

Lemma spaced_infix p s q : spaced isspace (p ++ s ++ q) -> spaced isspace s.
Proof.
  intros H i c d Hc Hd. apply (H (length p + i)%nat).
  - rewrite lookup_app_r by lia. replace (length p + i - length p)%nat with i by lia.
    apply lookup_app_l_Some. exact Hc.
  - rewrite lookup_app_r by lia.
    replace (Datatypes.S (length p + i) - length p)%nat with (Datatypes.S i) by lia.
    apply lookup_app_l_Some. exact Hd.
Qed.

Lemma spaced_take n s : spaced isspace s -> spaced isspace (take n s).
Proof.
  intros H. apply (spaced_infix [] (take n s) (drop n s)).
  cbn. rewrite take_drop. exact H.
Qed.

Lemma spaced_tail a s : spaced isspace (a :: s) -> spaced isspace s.
Proof. intros H. apply (spaced_infix [a] s []). rewrite app_nil_r. exact H. Qed.

(** *** [re.sub(r'\s+', ' ', s)] *)

Lemma sub_spaces_chars (P : Z -> Prop) (b : bool) s :
  P 32%Z -> Forall P s -> Forall P (sub_spaces isspace b s).
Proof.
  intros H32 Hs. revert b. induction Hs as [|a s Ha Hs IH]; intros b; cbn.
  - constructor.
  - destruct (isspace a); [destruct b|]; repeat constructor; auto.
Qed.

Lemma sub_spaces_whitespace (b : bool) s :
  Forall (fun c => isspace c = true -> c = 32%Z) (sub_spaces isspace b s).
Proof.
  revert b. induction s as [|a s IH]; intros b; cbn.
  - constructor.
  - destruct (isspace a) eqn:E; [destruct b|]; repeat constructor; auto.
    congruence.
Qed.

Lemma sub_spaces_head s c :
  head (sub_spaces isspace true s) = Some c -> isspace c = false.
Proof.
  induction s as [|a s IH]; cbn; [discriminate|].
  destruct (isspace a) eqn:E; [exact IH|]. cbn. congruence.
Qed.

Lemma spaced_cons a s :
  (isspace a = true -> forall d, head s = Some d -> isspace d = false) ->
  spaced isspace s -> spaced isspace (a :: s).
Proof.
  intros Ha Hs [|i] c d Hc Hd Hsp; cbn in *.
  - injection Hc as <-. apply Ha; [exact Hsp|]. destruct s; cbn in *; congruence.
  - apply (Hs i c d); assumption.
Qed.

Lemma sub_spaces_spaced (b : bool) s : spaced isspace (sub_spaces isspace b s).
Proof.
  revert b. induction s as [|a s IH]; intros b; cbn.
  - intros i c d Hc. destruct i; discriminate.
  - destruct (isspace a) eqn:E; [destruct b|].
    + apply IH.
    + apply spaced_cons; [|apply IH]. intros _ d. apply sub_spaces_head.
    + apply spaced_cons; [|apply IH]. congruence.
Qed.

Lemma sub_spaces_id (b : bool) s :
  (b = true -> forall c, head s = Some c -> isspace c = false) ->
  Forall (fun c => isspace c = true -> c = 32%Z) s ->
  spaced isspace s ->
  sub_spaces isspace b s = s.
Proof.
  intros Hb Hw. revert b Hb. induction Hw as [|a s Ha Hw IH]; intros b Hb Hsp; cbn.
  - reflexivity.
  - destruct (isspace a) eqn:E.
    + destruct b; [rewrite (Hb eq_refl a eq_refl) in E; discriminate|].
      rewrite (Ha eq_refl). f_equal. apply IH.
      * intros _ d Hd. apply (Hsp 0%nat a d); [reflexivity| |exact E].
        destruct s; cbn in *; congruence.
      * eapply spaced_tail, Hsp.
    + f_equal. apply IH; [discriminate|]. eapply spaced_tail, Hsp.
Qed.

Lemma sub_spaces_letters (b : bool) s :
  isspace 32%Z = true ->
  filter (fun c => isspace c = false) (sub_spaces isspace b s)
  = filter (fun c => isspace c = false) s.
Proof.
  intros H32. revert b. induction s as [|a s IH]; intros b; cbn [sub_spaces]; [reflexivity|].
  destruct (isspace a) eqn:E.
  - rewrite (filter_cons_False _ a) by congruence.
    destruct b; [apply IH|]. rewrite filter_cons_False by congruence. apply IH.
  - rewrite !filter_cons_True by assumption. f_equal. apply IH.
Qed.

Lemma filter_infix (P : Z -> Prop) `{forall c, Decision (P c)} p s q :
  Forall (fun c => ~ P c) p -> Forall (fun c => ~ P c) q ->
  filter P (p ++ s ++ q) = filter P s.
Proof.
  intros Hp Hq. rewrite !filter_app.
  assert (Hnil : forall l, Forall (fun c => ~ P c) l -> filter P l = []).
  { intros l Hl. induction Hl as [|a l Ha Hl IH]; [reflexivity|].
    rewrite filter_cons_False by assumption. exact IH. }
  rewrite (Hnil p Hp), (Hnil q Hq), app_nil_r. reflexivity.
Qed.

Lemma lstrip_dropped s :
  exists p, s = p ++ lstrip isspace s /\ Forall (fun c => ~ isspace c = false) p.
Proof.
  induction s as [|a s (p & IH & Hp)]; cbn; [exists []; split; [reflexivity|constructor]|].
  destruct (isspace a) eqn:E.
  - exists (a :: p). split; [cbn; congruence|]. constructor; [congruence|exact Hp].
  - exists []. split; [reflexivity|constructor].
Qed.

Lemma rstrip_dropped s :
  exists q, s = rstrip isspace s ++ q /\ Forall (fun c => ~ isspace c = false) q.
Proof.
  induction s as [|a s (q & IH & Hq)]; cbn; [exists []; split; [reflexivity|constructor]|].
  destruct (rstrip isspace s) as [|b kept] eqn:E.
  - destruct (isspace a) eqn:Ea.
    + exists (a :: s). split; [reflexivity|]. cbn in IH. subst q.
      constructor; [congruence|exact Hq].
    + exists s. split; [reflexivity|]. cbn in IH. subst q. exact Hq.
  - exists q. split; [cbn in *; congruence|exact Hq].
Qed.

Lemma strip_letters s :
  filter (fun c => isspace c = false) (strip isspace s)
  = filter (fun c => isspace c = false) s.
Proof.
  destruct (rstrip_dropped s) as (q & Hq & Hqs).
  destruct (lstrip_dropped (rstrip isspace s)) as (p & Hp & Hps).
  unfold strip. rewrite Hq at 2. rewrite Hp at 2.
  rewrite <- app_assoc. symmetry. apply filter_infix; assumption.
Qed.

(** *** The untruncated result of [sanitize_text] *)

Lemma sanitize_text_eq s :
  sanitize_text isspace s None
  = strip isspace (sub_spaces isspace false (replace_nul s)).
Proof.
  unfold sanitize_text. destruct (bool_decide_reflect (s = [])) as [->|]; reflexivity.
Qed.

Lemma Forall_infix (P : Z -> Prop) p s q : Forall P (p ++ s ++ q) -> Forall P s.
Proof. intros H. apply Forall_app in H as [_ H]. apply Forall_app in H as [H _]. exact H. Qed.

Lemma sanitized_chars s :
  Forall (fun c => c <> 0%Z /\ (isspace c = true -> c = 32%Z))
         (sanitize_text isspace s None).
Proof.
  rewrite sanitize_text_eq.
  destruct (strip_infix (sub_spaces isspace false (replace_nul s))) as (p & q & Hpq).
  apply (Forall_infix _ p _ q). rewrite <- Hpq.
  apply Forall_and. split.
  - apply sub_spaces_chars; [discriminate|].
    unfold replace_nul. apply list.Forall_forall. intros c Hc.
    apply list_elem_of_filter in Hc. tauto.
  - apply sub_spaces_whitespace.
Qed.

Lemma sanitized_spaced s : spaced isspace (sanitize_text isspace s None).
Proof.
  rewrite sanitize_text_eq.
  destruct (strip_infix (sub_spaces isspace false (replace_nul s))) as (p & q & Hpq).
  apply (spaced_infix p _ q). rewrite <- Hpq. apply sub_spaces_spaced.
Qed.

Lemma sanitized_trimmed s : trimmed isspace (sanitize_text isspace s None).
Proof. rewrite sanitize_text_eq. apply strip_trimmed. Qed.

Lemma replace_nul_id s : Forall (fun c => c <> 0%Z) s -> replace_nul s = s.
Proof.
  intros H. unfold replace_nul. induction H as [|a s Ha H IH]; [reflexivity|].
  rewrite filter_cons_True by assumption. f_equal. exact IH.
Qed.

Lemma sanitized_fixed s :
  Forall (fun c => c <> 0%Z /\ (isspace c = true -> c = 32%Z)) s ->
  spaced isspace s -> trimmed isspace s ->
  sanitize_text isspace s None = s.
Proof.
  intros Hc Hsp Htr. rewrite sanitize_text_eq.
  apply Forall_and in Hc as [Hnul Hw].
  rewrite replace_nul_id by exact Hnul.
  rewrite sub_spaces_id by (try discriminate; assumption).
  apply strip_id, Htr.
Qed.

(** *** The validators *)

Lemma check_patterns_eq (patterns : list string) s (w : S) :
  (Forall (fun p => search p s = false) patterns /\
   check_patterns search patterns s w = Run (Returned tt) w []) \/
  (exists p, In p patterns /\ search p s = true /\
     check_patterns search patterns s w =
       Run (Raised (Exn ValidationError "Question contains suspicious content"
                        [("pattern", PyStr p)]))
           w [Log WARNING "Suspicious pattern detected in question"]).
Proof.
  induction patterns as [|p rest IH]; cbn.
  - left. split; [constructor|reflexivity].
  - destruct (search p s) eqn:E.
    + right. exists p. split; [left; reflexivity|]. split; [exact E|reflexivity].
    + destruct IH as [[Hall Hrun]|(p' & Hin & Hs & Hrun)].
      * left. split; [constructor; assumption|exact Hrun].
      * right. exists p'. split; [right; exact Hin|]. split; assumption.
Qed.

Lemma len_nil_iff {A} (l : list A) : l = [] <-> len l = 0%Z.
Proof. unfold len. destruct l; cbn; split; try congruence; lia. Qed.

End Facts.

(** X22. [validate_question] accepts a question exactly when, once stripped
    of the whitespace at its ends, it has between 3 and 1000 characters and
    none of the four suspicious patterns is found in it. It then returns the
    stripped question, and validating that result again returns it
    unchanged. In every other case it raises a [ValidationError]. It changes
    nothing but the log. *)
Theorem validate_question_accepts {S : Type} (isspace : Z -> bool)
    (search : string -> text -> bool) (question : text) (w : S) :
  let r := validate_question isspace search question w in
  let stripped := strip isspace question in
  let acceptable :=
    (3 <= len stripped <= 1000)%Z /\
    Forall (fun p => search p stripped = false) suspicious_patterns in
  world r = w /\
  calls (emitted r) = [] /\
  (acceptable ->
     result r = Returned stripped /\
     validate_question isspace search stripped w = r) /\
  (~ acceptable -> exists e, result r = Raised e /\ exn_class e = ValidationError).
Proof.
  cbv zeta. unfold validate_question.
  destruct (bool_decide_reflect (question = [])) as [->|Hne].
  { split; [reflexivity|]. split; [reflexivity|]. split.
    - intros [[H _] _]. change (len (strip isspace [])) with 0%Z in H. lia.
    - intros _. eexists. split; reflexivity. }
  destruct (len (strip isspace question) <? 3)%Z eqn:E3.
  { apply Z.ltb_lt in E3. split; [reflexivity|]. split; [reflexivity|]. split.
    - intros [[H _] _]. lia.
    - intros _. eexists. split; reflexivity. }
  apply Z.ltb_ge in E3.
  destruct (1000 <? len (strip isspace question))%Z eqn:E1000.
  { apply Z.ltb_lt in E1000. split; [reflexivity|]. split; [reflexivity|]. split.
    - intros [[_ H] _]. lia.
    - intros _. eexists. split; reflexivity. }
  apply Z.ltb_ge in E1000.
  assert (Hagain : strip isspace (strip isspace question) = strip isspace question).
  { apply strip_id, strip_trimmed. }
  assert (Hnonempty : strip isspace question <> []).
  { intros H. apply len_nil_iff in H. lia. }
  destruct (check_patterns_eq search suspicious_patterns (strip isspace question) w)
    as [[Hall Hrun]|(p & Hin & Hs & Hrun)].
  - erewrite bind_quiet by exact Hrun.
    split; [reflexivity|]. split; [reflexivity|]. split.
    + intros _. split; [reflexivity|].
      destruct (bool_decide_reflect (strip isspace question = [])); [contradiction|].
      rewrite Hagain.
      destruct (len (strip isspace question) <? 3)%Z eqn:E3'; [apply Z.ltb_lt in E3'; lia|].
      destruct (1000 <? len (strip isspace question))%Z eqn:E1000';
        [apply Z.ltb_lt in E1000'; lia|].
      erewrite bind_quiet by exact Hrun. reflexivity.
    + intros Hn. exfalso. apply Hn. split; [lia|exact Hall].
  - erewrite bind_raised by exact Hrun.
    split; [reflexivity|]. split; [reflexivity|]. split.
    + intros [_ H]. rewrite list.Forall_forall in H.
      assert (search p (strip isspace question) = false) as Hf
        by (apply H; apply list_elem_of_In; exact Hin).
      congruence.
    + intros _. eexists. split; reflexivity.
Qed.

(** [test_validate_question_valid] and [test_validate_question_suspicious],
    among ASCII characters. *)
Lemma validate_question_accepts_witness :
  let ok := MoreExamples.codes "What is machine learning?" in
  let bad := MoreExamples.codes "<script>alert('xss')</script>" in
  result (validate_question MoreExamples.ascii_isspace MoreExamples.ascii_search
            ok tt) = Returned ok /\
  exists e,
    result (validate_question MoreExamples.ascii_isspace MoreExamples.ascii_search
              bad tt) = Raised e /\
    exn_class e = ValidationError.
Proof.
  cbv zeta. split.
  - refine (proj1 (proj1 (proj2 (proj2
      (validate_question_accepts MoreExamples.ascii_isspace MoreExamples.ascii_search
         (MoreExamples.codes "What is machine learning?") tt))) _)).
    split; [vm_compute; split; discriminate|].
    repeat constructor.
  - refine (proj2 (proj2 (proj2
      (validate_question_accepts MoreExamples.ascii_isspace MoreExamples.ascii_search
         (MoreExamples.codes "<script>alert('xss')</script>") tt))) _).
    intros [_ H]. inversion H as [|? ? Hs _]. vm_compute in Hs. discriminate.
Defined.

(** X23. [validate_generation] accepts a text exactly when, once stripped of
    the whitespace at its ends, it has at least 10 characters; it then
    returns the stripped text, and validating that result again returns it
    unchanged. Otherwise it raises a [ValidationError], which carries the
    length of the stripped text unless the argument was empty. It changes
    nothing but the log. *)
Theorem validate_generation_accepts {S : Type} (isspace : Z -> bool)
    (generation : text) (w : S) :
  let r := validate_generation isspace generation w in
  let stripped := strip isspace generation in
  world r = w /\
  ((10 <= len stripped)%Z ->
     result r = Returned stripped /\
     validate_generation isspace stripped w = r) /\
  ((len stripped < 10)%Z ->
     exists e, result r = Raised e /\ exn_class e = ValidationError /\
       (generation <> [] -> exn_details e = [("length", PyInt (len stripped))])).
Proof.
  cbv zeta. unfold validate_generation.
  destruct (bool_decide_reflect (generation = [])) as [->|Hne].
  { split; [reflexivity|]. split.
    - intros H. change (len (strip isspace [])) with 0%Z in H. lia.
    - intros _. eexists. split; [reflexivity|]. split; [reflexivity|]. congruence. }
  destruct (len (strip isspace generation) <? 10)%Z eqn:E.
  { apply Z.ltb_lt in E. split; [reflexivity|]. split.
    - intros H. lia.
    - intros _. eexists. repeat split; reflexivity. }
  apply Z.ltb_ge in E.
  split; [reflexivity|]. split; [|intros H; lia].
  intros _. split; [reflexivity|].
  assert (Hnonempty : strip isspace generation <> []).
  { intros H. apply len_nil_iff in H. lia. }
  destruct (bool_decide_reflect (strip isspace generation = [])); [contradiction|].
  rewrite (strip_id isspace _ (strip_trimmed isspace generation)).
  destruct (len (strip isspace generation) <? 10)%Z eqn:E'; [apply Z.ltb_lt in E'; lia|].
  reflexivity.
Qed.

(** [test_validate_generation_valid] and [test_validate_generation_too_short],
    among ASCII characters. *)
Lemma validate_generation_accepts_witness :
  let ok := MoreExamples.codes "This is a valid answer to the question." in
  result (validate_generation MoreExamples.ascii_isspace ok tt) = Returned ok /\
  exists e,
    result (validate_generation MoreExamples.ascii_isspace (MoreExamples.codes "Short") tt)
      = Raised e /\
    exn_class e = ValidationError /\
    exn_details e = [("length", PyInt 5)].
Proof.
  cbv zeta. split.
  - refine (proj1 (proj1 (proj2
      (validate_generation_accepts MoreExamples.ascii_isspace
         (MoreExamples.codes "This is a valid answer to the question.") tt)) _)).
    vm_compute. discriminate.
  - destruct (proj2 (proj2
      (validate_generation_accepts MoreExamples.ascii_isspace
         (MoreExamples.codes "Short") tt))) as (e & Hr & Hc & Hd).
    + vm_compute. reflexivity.
    + exists e. split; [exact Hr|]. split; [exact Hc|]. apply Hd. discriminate.
Defined.

(** X24. [validate_documents] never raises on a list: it returns the first
    [100] documents, in order, so the list itself when it has at most [100]
    elements, and a list of exactly [100] when it has more. *)
Theorem validate_documents_truncates {S A : Type} (documents : list A) (w : S) :
  let r := validate_documents documents w in
  world r = w /\
  exists docs,
    result r = Returned docs /\
    docs = take 100 documents /\
    length docs = Nat.min 100 (length documents) /\
    ((length documents <= 100)%nat -> docs = documents) /\
    exists dropped, documents = docs ++ dropped.
Proof.
  cbv zeta. unfold validate_documents.
  assert (Hall : forall docs : list A,
            docs = take 100 documents ->
            docs = take 100 documents /\
            length docs = Nat.min 100 (length documents) /\
            ((length documents <= 100)%nat -> docs = documents) /\
            exists dropped, documents = docs ++ dropped).
  { intros docs ->. split; [reflexivity|]. split; [apply length_take|].
    split; [intros H; apply take_ge; exact H|].
    exists (drop 100 documents). symmetry. apply take_drop. }
  destruct (bool_decide_reflect (documents = [])) as [->|Hne].
  { split; [reflexivity|]. exists []. split; [reflexivity|]. apply Hall. reflexivity. }
  destruct (100 <? len documents)%Z eqn:E.
  - split; [reflexivity|]. exists (take 100 documents). split; [reflexivity|].
    apply Hall. reflexivity.
  - apply Z.ltb_ge in E. unfold len in E.
    split; [reflexivity|]. exists documents. split; [reflexivity|].
    apply Hall. symmetry. apply take_ge. lia.
Qed.

(** X25. What [sanitize_text] without a maximum length returns is in normal
    form: it has no NUL character, its only whitespace characters are single
    spaces between two other characters, and it has no whitespace at either
    end. The texts in normal form are exactly those [sanitize_text] leaves
    as they are, so sanitizing twice is sanitizing once. When the space is a
    whitespace character, the other characters of the text, NUL apart, are
    kept in their order. *)
Theorem sanitize_text_normal_form (isspace : Z -> bool) (s : text) :
  let normal (t : text) :=
    Forall (fun c => c <> 0%Z /\ (isspace c = true -> c = 32%Z)) t /\
    spaced isspace t /\ trimmed isspace t in
  let r := sanitize_text isspace s None in
  normal r /\
  sanitize_text isspace r None = r /\
  (forall t, normal t <-> sanitize_text isspace t None = t) /\
  (isspace 32%Z = true ->
   filter (fun c => isspace c = false) r
   = filter (fun c => isspace c = false) (replace_nul s)).
Proof.
  cbv zeta.
  assert (Hn : forall t,
            Forall (fun c => c <> 0%Z /\ (isspace c = true -> c = 32%Z))
                   (sanitize_text isspace t None) /\
            spaced isspace (sanitize_text isspace t None) /\
            trimmed isspace (sanitize_text isspace t None)).
  { intros t. split; [apply sanitized_chars|].
    split; [apply sanitized_spaced | apply sanitized_trimmed]. }
  split; [apply Hn|]. split.
  { destruct (Hn s) as (H1 & H2 & H3). apply sanitized_fixed; assumption. }
  split.
  - intros t. split.
    + intros (H1 & H2 & H3). apply sanitized_fixed; assumption.
    + intros <-. apply Hn.
  - intros H32. rewrite sanitize_text_eq, strip_letters.
    apply sub_spaces_letters. exact H32.
Qed.

(** The first case of [test_sanitize_text], among ASCII characters. *)
Lemma sanitize_text_normal_form_witness :
  let s := MoreExamples.codes "  Hello   World  " ++ [10; 10]%Z
           ++ MoreExamples.codes "  Test  " in
  sanitize_text MoreExamples.ascii_isspace s None
    = MoreExamples.codes "Hello World Test" /\
  filter (fun c => MoreExamples.ascii_isspace c = false)
         (sanitize_text MoreExamples.ascii_isspace s None)
    = MoreExamples.codes "HelloWorldTest".
Proof.
  cbv zeta. split; [reflexivity|].
  rewrite (proj2 (proj2 (proj2
    (sanitize_text_normal_form MoreExamples.ascii_isspace
       (MoreExamples.codes "  Hello   World  " ++ [10; 10]%Z
        ++ MoreExamples.codes "  Test  "))))) by reflexivity.
  reflexivity.
Defined.

(** X26. [sanitize_text] with a maximum length [n]. For [n > 0] the result
    is the first [n] characters of the untruncated result, so it has at most
    [n] characters. [n = 0] is no limit. A negative [n] removes the last
    [-n] characters. In every case the result is the beginning of the
    untruncated result: it has no NUL character, no whitespace other than
    single spaces, and none at its start. *)
Theorem sanitize_text_truncation (isspace : Z -> bool) (s : text) (n : Z) :
  let full := sanitize_text isspace s None in
  let r := sanitize_text isspace s (Some n) in
  (n = 0%Z -> r = full) /\
  ((0 < n)%Z -> r = take (Z.to_nat n) full /\ len r = Z.min n (len full)) /\
  ((n < 0)%Z -> r = take (Z.to_nat (len full + n)) full) /\
  (exists dropped, full = r ++ dropped) /\
  Forall (fun c => c <> 0%Z /\ (isspace c = true -> c = 32%Z)) r /\
  spaced isspace r /\
  (forall c, head r = Some c -> isspace c = false).
Proof.
  cbv zeta.
  assert (Hr : sanitize_text isspace s (Some n)
               = if negb (n =? 0)%Z && (n <? len (sanitize_text isspace s None))%Z
                 then slice_to (sanitize_text isspace s None) n
                 else sanitize_text isspace s None).
  { unfold sanitize_text. destruct (bool_decide_reflect (s = [])) as [->|]; [|reflexivity].
    destruct (negb _ && _);
      [unfold slice_to; destruct (0 <=? n)%Z; rewrite take_nil|]; reflexivity. }
  set (full := sanitize_text isspace s None) in *.
  assert (Hpre : exists k, sanitize_text isspace s (Some n) = take k full).
  { rewrite Hr. destruct (negb (n =? 0)%Z && (n <? len full)%Z).
    - unfold slice_to. destruct (0 <=? n)%Z; eexists; reflexivity.
    - exists (length full). symmetry. apply take_ge. lia. }
  split; [|split; [|split; [|split; [|split; [|split]]]]].
  - intros ->. rewrite Hr. reflexivity.
  - intros Hpos. rewrite Hr.
    destruct (n =? 0)%Z eqn:E0; [apply Z.eqb_eq in E0; lia|]. cbn [negb andb].
    destruct (n <? len full)%Z eqn:E.
    + apply Z.ltb_lt in E. unfold slice_to.
      destruct (0 <=? n)%Z eqn:E'; [|apply Z.leb_gt in E'; lia].
      split; [reflexivity|]. unfold len in *. rewrite length_take. lia.
    + apply Z.ltb_ge in E. unfold len in *.
      rewrite take_ge by lia. split; [reflexivity|]. lia.
  - intros Hneg. rewrite Hr.
    destruct (n =? 0)%Z eqn:E0; [apply Z.eqb_eq in E0; lia|]. cbn [negb andb].
    destruct (n <? len full)%Z eqn:E; [|apply Z.ltb_ge in E; unfold len in E; lia].
    unfold slice_to. destruct (0 <=? n)%Z eqn:E'; [apply Z.leb_le in E'; lia|].
    reflexivity.
  - destruct Hpre as [k ->]. exists (drop k full). symmetry. apply take_drop.
  - destruct Hpre as [k ->]. apply Forall_take. apply sanitized_chars.
  - destruct Hpre as [k ->]. apply spaced_take, sanitized_spaced.
  - destruct Hpre as [k ->]. intros c Hc.
    apply (proj1 (sanitized_trimmed isspace s)). fold full.
    destruct k; [discriminate|]. destruct full; [discriminate|]. exact Hc.
Qed.

(** The last case of [test_sanitize_text]: a hundred letters, at most
    fifty wanted. *)
Lemma sanitize_text_truncation_witness :
  len (sanitize_text MoreExamples.ascii_isspace (replicate 100 97%Z) (Some 50%Z))
    = 50%Z.
Proof.
  rewrite (proj2 (proj1 (proj2
    (sanitize_text_truncation MoreExamples.ascii_isspace (replicate 100 97%Z) 50))
    eq_refl)).
  reflexivity.
Defined.

End ValidationFacts.

(** ** [ingestion.py]: retried and timed *)

Module IngestionFacts.
Import Py Eff Retry Metrics EffFacts RetryFacts MetricsFacts Tracking MetricsRuns
  TrackingFacts RetryRuns Ingestion.

Section Invariant.
Context {U : Type}.
Variable dict_repr : details -> string.
Variables (cfg : config U) (func : pyfunc U) (args : arguments).

(** A property of the environment, indexed by the number of invocations
    made so far, that an invocation takes to the next index and that
    neither a sleep nor the hook disturbs. *)
Variable I : nat -> env U -> Prop.
Hypothesis I_call : forall n w, I n w -> I (Datatypes.S n) (fbody func args w).2.
Hypothesis I_sleep : forall n w d, I n w -> I n (Env (clock w + d) (user w)).
Hypothesis I_hook : forall h a e n w,
  on_retry cfg = Some h -> I n w -> I n (h a e w).2.

Lemma loop_invariant attempts : forall delay last_exception w n,
  I n w ->
  let r := Retry.loop dict_repr cfg func args attempts delay last_exception w in
  I (n + length (calls (emitted r))) (world r).
Proof.
  induction attempts as [|attempt rest IH]; intros delay last_exception w n Hn; cbv zeta.
  - cbn. rewrite Nat.add_0_r. exact Hn.
  - pose proof (I_call n w Hn) as Hcall.
    cbn [Retry.loop]. unfold iteration, try_except, bind, invoke. cbn.
    destruct (fbody func args w) as [[v|e] w1] eqn:Hf; cbn [snd] in Hcall; cbn.
    + destruct (0 <? attempt)%Z; cbn; rewrite Nat.add_1_r; exact Hcall.
    + destruct (matches e (exceptions cfg)) eqn:Hm; cbn.
      2:{ rewrite Nat.add_1_r. exact Hcall. }
      destruct (attempt =? max_retries cfg)%Z eqn:Ha; cbn.
      { rewrite Nat.add_1_r. exact Hcall. }
      destruct (on_retry cfg) as [h|] eqn:Hh; cbn.
      * pose proof (I_hook h attempt e _ w1 eq_refl Hcall) as Hhook.
        unfold call_hook. destruct (h attempt e w1) as [[[]|e'] w2]; cbn in Hhook |- *.
        -- unfold time_sleep. destruct (Qlt_le_dec delay 0); cbn.
           ++ rewrite Nat.add_1_r. exact Hhook.
           ++ rewrite !after_events_eq. cbn [world emitted].
              specialize (IH (delay * backoff_factor cfg)%Q (Some e)
                             (Env (clock w2 + delay) (user w2)) (Datatypes.S n)
                             (I_sleep _ _ _ Hhook)).
              cbv zeta in IH.
              match goal with
              | |- I (n + length (calls (?l ++ ?evs))) _ =>
                  replace (length (calls (l ++ evs)))
                    with (Datatypes.S (length (calls evs)))
                    by (rewrite calls_app; reflexivity)
              end.
              rewrite Nat.add_succ_r. exact IH.
        -- rewrite Nat.add_1_r. exact Hhook.
      * unfold time_sleep. destruct (Qlt_le_dec delay 0); cbn.
        -- rewrite Nat.add_1_r. exact Hcall.
        -- rewrite !after_events_eq. cbn [world emitted].
           specialize (IH (delay * backoff_factor cfg)%Q (Some e)
                          (Env (clock w1 + delay) (user w1)) (Datatypes.S n)
                          (I_sleep _ _ _ Hcall)).
           cbv zeta in IH.
              match goal with
              | |- I (n + length (calls (?l ++ ?evs))) _ =>
                  replace (length (calls (l ++ evs)))
                    with (Datatypes.S (length (calls evs)))
                    by (rewrite calls_app; reflexivity)
              end.
              rewrite Nat.add_succ_r. exact IH.
Qed.

End Invariant.

Section Facts.
Context {U : Type}.

Lemma latency_of_collector_at (om : option MetricsCollector) (t : Q) (op : string) :
  latency_of (collector_at om t) op = latency_of (collector_at om 0) op.
Proof. destruct om; reflexivity. Qed.

(** One invocation of the timed function adds one sample. *)
Lemma tracked_samples operation (func : pyfunc U) args (w : env globals) :
  (0 <= samples w (op_name operation func))%Z ->
  samples (fbody (tracked operation func) args w).2 (op_name operation func)
  = (samples w (op_name operation func) + 1)%Z.
Proof.
  unfold samples. intros Hc. cbn [tracked fbody snd].
  destruct (fbody func args (split w).2) as [x w1] eqn:Hf.
  assert (Hsplit : split w = ((user w).1, (split w).2)) by reflexivity.
  rewrite Hsplit.
  rewrite (track_time_run operation func args (user w).1 (split w).2 x w1 Hf)
    by (rewrite latency_of_collector_at; exact Hc).
  cbn [world join fst snd user collector_at from_option id].
  rewrite latency_of_with_latency. cbn [timed lat_count].
  rewrite latency_of_collector_at. reflexivity.
Qed.

End Facts.

(** X27. A function decorated with [track_time] and then with
    [retry_with_backoff] without a hook, as [load_documents] is: every
    attempt is timed. When the retry wrapper ends, however it ends, the global
    collector holds one more latency sample of the operation for each
    invocation made, so at most [max_retries + 1] more. *)
Theorem every_attempt_is_timed {U : Type} (dict_repr : details -> string)
    (cfg : config (globals (U:=U))) (operation : option string) (func : pyfunc U)
    (args : arguments) (w : env globals) :
  on_retry cfg = None ->
  (0 <= samples w (op_name operation func))%Z ->
  let r := Retry.wrapper dict_repr cfg (tracked operation func) args w in
  samples (world r) (op_name operation func)
  = (samples w (op_name operation func) + Z.of_nat (length (calls (emitted r))))%Z /\
  (length (calls (emitted r)) <= Z.to_nat (max_retries cfg + 1))%nat.
Proof.
  intros Hhook Hc. cbv zeta. split.
  - pose proof (loop_invariant dict_repr cfg (tracked operation func) args
                  (fun n w' => samples w' (op_name operation func)
                               = (samples w (op_name operation func) + Z.of_nat n)%Z))
      as Hinv.
    cbv beta in Hinv. unfold Retry.wrapper.
    rewrite <- (Nat.add_0_l (length _)).
    apply Hinv.
    + intros n w' Hn. rewrite tracked_samples by lia. lia.
    + intros n w' d Hn. exact Hn.
    + intros h a e n w' Hh. congruence.
    + lia.
  - unfold Retry.wrapper. etransitivity; [apply loop_calls_bounded|].
    rewrite length_range. reflexivity.
Qed.

(** [load_documents] on a fresh process, with a body that always fails:
    four attempts, four samples. *)
Lemma every_attempt_is_timed_witness :
  let r := load_documents Examples.dict_repr Examples.always_fails ([], [])
             (Env 0 (None, 0%Z)) in
  samples (world r) "load_documents" = 4%Z /\
  length (calls (emitted r)) = 4%nat.
Proof.
  cbv zeta.
  destruct (every_attempt_is_timed Examples.dict_repr load_documents_retry
              (Some "load_documents") Examples.always_fails ([], [])
              (Env 0 (None, 0%Z))) as [Hs _].
  - reflexivity.
  - vm_compute. discriminate.
  - assert (Hcalls : length (calls (emitted
              (load_documents Examples.dict_repr Examples.always_fails ([], [])
                 (Env 0 (None, 0%Z))))) = 4%nat) by (vm_compute; reflexivity).
    split; [|exact Hcalls].
    unfold load_documents. cbv zeta in Hs.
    change (op_name (Some "load_documents") Examples.always_fails)
      with "load_documents" in Hs.
    rewrite Hs. unfold load_documents in Hcalls. rewrite Hcalls. reflexivity.
Defined.

End IngestionFacts.
